(** * PhilReviews: the filter / sort / paginate / URL-sync pipeline of
    [static/app.js], embedded in Rocq.

    Strings are Rocq [string]s, read as the UTF-8 bytes of the JavaScript
    string: the separators the code splits on ([,], [-], [&], [=]) are ASCII,
    so splitting and joining bytes agrees with splitting and joining UTF-16
    code units.  [toLowerCase] and [trim] are modelled on the ASCII range
    (letters A-Z; space, tab, LF, VT, FF, CR); [localeCompare] is a
    parameter of the development.  Numbers are [Z]; NaN is [None].  The
    urlencoded format works on the bytes; replacing ill-formed UTF-8 on
    decoding is not modelled.  DOM output is kept as data: the rows and the
    page window of the last render.

    Three limits of the embedding.  A form control is a slot that holds
    the string assigned to it: what a select, a number input or a text
    input does to a value it does not accept is not modelled.  Integers
    are exact, where the program computes with doubles.  [render] is total:
    the exception the comparator throws on a sort key inherited from
    [Object.prototype], and the page count for a page size that is not
    positive, are left to [comparator] and [renderable] at the end of the
    definitions; the statements that depend on either assume
    [renderable]. *)

From Stdlib Require Import String Ascii List ZArith Lia Bool Permutation.
From Stdlib Require Import Decimal DecimalString DecimalPos DecimalZ.
From Stdlib Require Sorted OrderedTypeEx.
From Equations Require Import Equations.
Import ListNotations.

Open Scope string_scope.
Open Scope Z_scope.

(** ** JavaScript string and number primitives used by the program *)
Module JS.

Definition code (c : ascii) : Z := Z.of_N (N_of_ascii c).

Definition is_upper (c : ascii) : bool := (65 <=? code c) && (code c <=? 90).

Definition is_digit (c : ascii) : bool := (48 <=? code c) && (code c <=? 57).

Definition is_lower (c : ascii) : bool := (97 <=? code c) && (code c <=? 122).

(** White space stripped by [String.prototype.trim] and skipped by
    [parseInt] (ASCII part: TAB, LF, VT, FF, CR, SPACE). *)
Definition is_space (c : ascii) : bool :=
  ((9 <=? code c) && (code c <=? 13)) || (code c =? 32).

Definition lower_char (c : ascii) : ascii :=
  if is_upper c then ascii_of_N (N_of_ascii c + 32) else c.

Fixpoint toLowerCase (s : string) : string :=
  match s with
  | EmptyString => EmptyString
  | String c r => String (lower_char c) (toLowerCase r)
  end.

Fixpoint trimStart (s : string) : string :=
  match s with
  | EmptyString => EmptyString
  | String c r => if is_space c then trimStart r else s
  end.

Fixpoint trimEnd (s : string) : string :=
  match s with
  | EmptyString => EmptyString
  | String c r =>
      match trimEnd r with
      | EmptyString => if is_space c then EmptyString else String c EmptyString
      | r' => String c r'
      end
  end.

Definition trim (s : string) : string := trimEnd (trimStart s).

(** JavaScript truthiness of a string: non-empty. *)
Definition truthy (s : string) : bool :=
  match s with EmptyString => false | _ => true end.

(** [hay.includes(needle)] *)
Fixpoint includes (hay needle : string) : bool :=
  String.prefix needle hay ||
  match hay with
  | EmptyString => false
  | String _ r => includes r needle
  end.

(** Whether the character [c] occurs in [s]. *)
Fixpoint contains_char (c : ascii) (s : string) : bool :=
  match s with
  | EmptyString => false
  | String d r => Ascii.eqb d c || contains_char c r
  end.

(** [s.substring(0, n)] *)
Definition substring0 (n : nat) (s : string) : string := String.substring 0 n s.

(** [s.split(sep)] for a one-character separator: never the empty list. *)
Fixpoint split (sep : ascii) (s : string) : list string :=
  match s with
  | EmptyString => [EmptyString]
  | String c r =>
      if Ascii.eqb c sep then EmptyString :: split sep r
      else match split sep r with
           | h :: t => String c h :: t
           | [] => [String c EmptyString]
           end
  end.

(** [arr.join(sep)] *)
Fixpoint join (sep : string) (l : list string) : string :=
  match l with
  | [] => EmptyString
  | [x] => x
  | x :: r => x ++ sep ++ join sep r
  end.

Definition digit_val (c : ascii) : Z := code c - 48.

(** The digit loop of [parseInt(_, 10)]: stops at the first non-digit. *)
Fixpoint parse_digits (s : string) (acc : Z) : Z :=
  match s with
  | EmptyString => acc
  | String c r => if is_digit c then parse_digits r (acc * 10 + digit_val c) else acc
  end.

Definition starts_with_digit (s : string) : bool :=
  match s with String c _ => is_digit c | EmptyString => false end.

(** [parseInt(s, 10)]: leading white space is skipped, one optional sign is
    read, then the longest run of decimal digits; [None] is NaN. *)
Definition parseInt (s : string) : option Z :=
  let s1 := trimStart s in
  let '(neg, s2) :=
    match s1 with
    | String "-" r => (true, r)
    | String "+" r => (false, r)
    | _ => (false, s1)
    end in
  if starts_with_digit s2
  then Some (if neg then - parse_digits s2 0 else parse_digits s2 0)
  else None.

(** [x || d] on a possibly NaN number: NaN and 0 are falsy. *)
Definition num_or (x : option Z) (d : Z) : Z :=
  match x with
  | Some n => if n =? 0 then d else n
  | None => d
  end.

(** Truthiness of a number-or-null value ([fy1], [fy2]). *)
Definition num_truthy (x : option Z) : bool :=
  match x with
  | Some n => negb (n =? 0)
  | None => false
  end.

(** [String(n)] for an integer. *)
Definition string_of_Z (n : Z) : string := NilEmpty.string_of_int (Z.to_int n).

(** [value || ""] on a possibly missing string. *)
Definition or_empty (v : option string) : string :=
  match v with Some s => s | None => EmptyString end.

(** String concatenation coerces a missing property to ["undefined"]. *)
Definition to_string (v : option string) : string :=
  match v with Some s => s | None => "undefined" end.

End JS.

(** ** Insertion-ordered sets of strings ([Set]) *)
Module JSSet.

Definition t := list string.

Definition has (s : t) (v : string) : bool := existsb (String.eqb v) s.

(** [has] on a possibly missing property: the sets only hold strings. *)
Definition has_opt (s : t) (v : option string) : bool :=
  match v with Some x => has s x | None => false end.

Definition add (s : t) (v : string) : t := if has s v then s else (s ++ [v])%list.

Definition delete (s : t) (v : string) : t :=
  List.filter (fun x => negb (String.eqb x v)) s.

(** [new Set(array)] *)
Definition of_list (l : list string) : t := fold_left add l [].

Definition size (s : t) : Z := Z.of_nat (List.length s).

(** [Array.from(set)] *)
Definition to_list (s : t) : list string := s.

End JSSet.

(** ** [URLSearchParams] and the application/x-www-form-urlencoded format *)
Module URLSearchParams.

Definition t := list (string * string).

Definition has (p : t) (k : string) : bool :=
  existsb (fun kv => String.eqb (fst kv) k) p.

Fixpoint get (p : t) (k : string) : option string :=
  match p with
  | [] => None
  | (k', v) :: r => if String.eqb k' k then Some v else get r k
  end.

Definition remove_key (k : string) (p : t) : t :=
  List.filter (fun kv => negb (String.eqb (fst kv) k)) p.

(** [params.set(k, v)]: the first pair named [k] is replaced and the others
    removed; a new name is appended. *)
Fixpoint set (p : t) (k v : string) : t :=
  match p with
  | [] => [(k, v)]
  | (k', v') :: r =>
      if String.eqb k' k then (k, v) :: remove_key k r
      else (k', v') :: set r k v
  end.

Definition is_unreserved (c : ascii) : bool :=
  JS.is_digit c || JS.is_upper c || JS.is_lower c ||
  Ascii.eqb c "*" || Ascii.eqb c "-" || Ascii.eqb c "." || Ascii.eqb c "_".

Definition hex_digit (n : N) : ascii :=
  if (n <? 10)%N then ascii_of_N (48 + n) else ascii_of_N (55 + n).

Definition encode_byte (c : ascii) : string :=
  if Ascii.eqb c " " then "+"
  else if is_unreserved c then String c EmptyString
  else String "%" (String (hex_digit (N_of_ascii c / 16))
                  (String (hex_digit (N_of_ascii c mod 16)) EmptyString)).

(** The urlencoded byte serializer. *)
Fixpoint encode (s : string) : string :=
  match s with
  | EmptyString => EmptyString
  | String c r => encode_byte c ++ encode r
  end.

Definition serialize_pair (kv : string * string) : string :=
  encode (fst kv) ++ "=" ++ encode (snd kv).

(** [params.toString()] *)
Definition toString (p : t) : string := JS.join "&" (map serialize_pair p).

Definition hex_val (c : ascii) : option N :=
  let n := N_of_ascii c in
  if JS.is_digit c then Some (n - 48)%N
  else if ((65 <=? n) && (n <=? 70))%N then Some (n - 55)%N
  else if ((97 <=? n) && (n <=? 102))%N then Some (n - 87)%N
  else None.

(** Percent-decoding: a [%] not followed by two hex digits is kept. *)
Fixpoint percent_decode (s : string) : string :=
  match s with
  | EmptyString => EmptyString
  | String c r =>
      if Ascii.eqb c "%" then
        match r with
        | String h (String l r') =>
            match hex_val h, hex_val l with
            | Some a, Some b => String (ascii_of_N (16 * a + b)) (percent_decode r')
            | _, _ => String c (percent_decode r)
            end
        | _ => String c (percent_decode r)
        end
      else String c (percent_decode r)
  end.

Fixpoint plus_to_space (s : string) : string :=
  match s with
  | EmptyString => EmptyString
  | String c r => String (if Ascii.eqb c "+" then " "%char else c) (plus_to_space r)
  end.

Definition decode (s : string) : string := percent_decode (plus_to_space s).

(** Name and value of one [&]-separated piece: split at the first [=]. *)
Fixpoint split_first (sep : ascii) (s : string) : string * string :=
  match s with
  | EmptyString => (EmptyString, EmptyString)
  | String c r =>
      if Ascii.eqb c sep then (EmptyString, r)
      else let '(a, b) := split_first sep r in (String c a, b)
  end.

Definition parse_pair (piece : string) : string * string :=
  let '(n, v) := split_first "=" piece in (decode n, decode v).

(** The urlencoded parser: empty pieces are skipped. *)
Definition parse_urlencoded (input : string) : t :=
  map parse_pair (List.filter JS.truthy (JS.split "&" input)).

(** [new URLSearchParams(init)]: one leading [?] is dropped. *)
Definition parse (init : string) : t :=
  match init with
  | String "?" r => parse_urlencoded r
  | _ => parse_urlencoded init
  end.

End URLSearchParams.

(** ** Data model *)

(** A review entry as parsed from the embedded JSON.  [None] is a missing
    property.  [title], [author], [reviewer], [journal] and [access] are
    dereferenced without a guard by the code, so they are plain strings. *)
Record Entry := mkEntry {
  title : string;
  author : string;
  reviewer : string;
  journal : string;
  date : option string;
  access : string;
  summary : option string;
  link : option string;
  type : option string;
  subfield : option string;
  subfield2 : option string;
  symposium_group : option string
}.

(** [r[key]] where the entry has [key] as an own property.  A key the entry
    lacks is looked up on [Object.prototype] by the program:
    [read_property] below adds that step. *)
Definition prop (r : Entry) (key : string) : option string :=
  if String.eqb key "title" then Some (title r)
  else if String.eqb key "author" then Some (author r)
  else if String.eqb key "reviewer" then Some (reviewer r)
  else if String.eqb key "journal" then Some (journal r)
  else if String.eqb key "date" then date r
  else if String.eqb key "access" then Some (access r)
  else if String.eqb key "summary" then summary r
  else if String.eqb key "link" then link r
  else if String.eqb key "type" then type r
  else if String.eqb key "subfield" then subfield r
  else if String.eqb key "subfield2" then subfield2 r
  else if String.eqb key "symposium_group" then symposium_group r
  else None.

Definition SUBFIELD_NAMES : list (string * string) :=
  [ ("ethics", "Ethics & Moral Philosophy");
    ("applied-ethics", "Applied & Professional Ethics");
    ("political", "Political & Social Philosophy");
    ("legal", "Philosophy of Law");
    ("epistemology", "Epistemology & Philosophy of Mind");
    ("metaphysics", "Metaphysics & Logic");
    ("science", "Philosophy of Science");
    ("aesthetics", "Aesthetics & Philosophy of Art");
    ("religion", "Philosophy of Religion & Theology");
    ("history", "History of Philosophy");
    ("ancient", "Ancient & Medieval Philosophy");
    ("modern", "Early Modern Philosophy");
    ("continental", "Continental & Phenomenological");
    ("feminist", "Feminist Philosophy");
    ("non-western", "Non-Western & Comparative") ].

(** [SUBFIELD_NAMES[code]]; a missing code is the key ["undefined"]. *)
Definition subfield_name (code : option string) : option string :=
  URLSearchParams.get SUBFIELD_NAMES (JS.to_string code).

(** The [state] object. *)
Record State := mkState {
  page : Z;
  perPage : Z;
  sortKey : string;
  sortDir : string;
  expandedIdx : option Z
}.

(** The [value] of each form control in [els].  A control is a plain string
    slot: what a number input or a select does with a value it cannot hold
    is not modelled. *)
Record Form := mkForm {
  globalSearch : string;
  titleFilter : string;
  authorFilter : string;
  reviewerFilter : string;
  yearFrom : string;
  yearTo : string;
  accessFilter : string;
  typeFilter : string
}.

Inductive Control :=
| GlobalSearch | TitleFilter | AuthorFilter | ReviewerFilter
| YearFrom | YearTo | AccessFilter | TypeFilter.

(** An element of the [pages] array of [renderPagination]. *)
Inductive PageItem :=
| PageNum (n : Z)
| Ellipsis.

(** A rendered table row: absolute index, entry, and whether its detail row
    is shown. *)
Record Row := mkRow {
  row_idx : Z;
  row_entry : Entry;
  row_expanded : bool
}.

(** The module-level variables of the script, the form, the URL fragment
    (without its [#]) and what the last [render] put on the page. *)
Record World := mkWorld {
  allReviews : list Entry;
  filtered : list Entry;
  allJournals : list string;
  selectedJournals : JSSet.t;
  allSubfields : list string;
  selectedSubfields : JSSet.t;
  state : State;
  els : Form;
  hash : string;
  rows : list Row;
  pagination : list PageItem;
  totalPages : Z
}.

Definition initial_state : State :=
  {| page := 1; perPage := 25; sortKey := "date"; sortDir := "desc"; expandedIdx := None |}.

Definition empty_form : Form :=
  {| globalSearch := ""; titleFilter := ""; authorFilter := ""; reviewerFilter := "";
     yearFrom := ""; yearTo := ""; accessFilter := ""; typeFilter := "" |}.

(** *** Field updates *)

Definition set_page (n : Z) (s : State) : State :=
  {| page := n; perPage := perPage s; sortKey := sortKey s; sortDir := sortDir s;
     expandedIdx := expandedIdx s |}.

Definition set_perPage (n : Z) (s : State) : State :=
  {| page := page s; perPage := n; sortKey := sortKey s; sortDir := sortDir s;
     expandedIdx := expandedIdx s |}.

Definition set_sort (k d : string) (s : State) : State :=
  {| page := page s; perPage := perPage s; sortKey := k; sortDir := d;
     expandedIdx := expandedIdx s |}.

Definition set_expandedIdx (e : option Z) (s : State) : State :=
  {| page := page s; perPage := perPage s; sortKey := sortKey s; sortDir := sortDir s;
     expandedIdx := e |}.

Definition set_control (c : Control) (v : string) (f : Form) : Form :=
  {| globalSearch := match c with GlobalSearch => v | _ => globalSearch f end;
     titleFilter := match c with TitleFilter => v | _ => titleFilter f end;
     authorFilter := match c with AuthorFilter => v | _ => authorFilter f end;
     reviewerFilter := match c with ReviewerFilter => v | _ => reviewerFilter f end;
     yearFrom := match c with YearFrom => v | _ => yearFrom f end;
     yearTo := match c with YearTo => v | _ => yearTo f end;
     accessFilter := match c with AccessFilter => v | _ => accessFilter f end;
     typeFilter := match c with TypeFilter => v | _ => typeFilter f end |}.

Definition with_state (s : State) (w : World) : World :=
  {| allReviews := allReviews w; filtered := filtered w; allJournals := allJournals w;
     selectedJournals := selectedJournals w; allSubfields := allSubfields w;
     selectedSubfields := selectedSubfields w; state := s; els := els w; hash := hash w;
     rows := rows w; pagination := pagination w; totalPages := totalPages w |}.

Definition with_els (f : Form) (w : World) : World :=
  {| allReviews := allReviews w; filtered := filtered w; allJournals := allJournals w;
     selectedJournals := selectedJournals w; allSubfields := allSubfields w;
     selectedSubfields := selectedSubfields w; state := state w; els := f; hash := hash w;
     rows := rows w; pagination := pagination w; totalPages := totalPages w |}.

Definition with_selectedJournals (s : JSSet.t) (w : World) : World :=
  {| allReviews := allReviews w; filtered := filtered w; allJournals := allJournals w;
     selectedJournals := s; allSubfields := allSubfields w;
     selectedSubfields := selectedSubfields w; state := state w; els := els w; hash := hash w;
     rows := rows w; pagination := pagination w; totalPages := totalPages w |}.

Definition with_selectedSubfields (s : JSSet.t) (w : World) : World :=
  {| allReviews := allReviews w; filtered := filtered w; allJournals := allJournals w;
     selectedJournals := selectedJournals w; allSubfields := allSubfields w;
     selectedSubfields := s; state := state w; els := els w; hash := hash w;
     rows := rows w; pagination := pagination w; totalPages := totalPages w |}.

Definition with_filtered (l : list Entry) (w : World) : World :=
  {| allReviews := allReviews w; filtered := l; allJournals := allJournals w;
     selectedJournals := selectedJournals w; allSubfields := allSubfields w;
     selectedSubfields := selectedSubfields w; state := state w; els := els w; hash := hash w;
     rows := rows w; pagination := pagination w; totalPages := totalPages w |}.

Definition with_hash (h : string) (w : World) : World :=
  {| allReviews := allReviews w; filtered := filtered w; allJournals := allJournals w;
     selectedJournals := selectedJournals w; allSubfields := allSubfields w;
     selectedSubfields := selectedSubfields w; state := state w; els := els w; hash := h;
     rows := rows w; pagination := pagination w; totalPages := totalPages w |}.

Definition with_page (n : Z) (w : World) : World := with_state (set_page n (state w)) w.

Definition with_control (c : Control) (v : string) (w : World) : World :=
  with_els (set_control c v (els w)) w.

(** ** Generic helpers *)

(** [Array.prototype.sort] with a comparator: a stable insertion sort. *)
Fixpoint insert_by {A} (cmp : A -> A -> Z) (x : A) (l : list A) : list A :=
  match l with
  | [] => [x]
  | y :: t => if cmp x y <=? 0 then x :: l else y :: insert_by cmp x t
  end.

Definition sort_by {A} (cmp : A -> A -> Z) (l : list A) : list A :=
  fold_right (insert_by cmp) [] l.

(** [arr.slice(a, b)], negative indices counting from the end. *)
Definition slice {A} (l : list A) (a b : Z) : list A :=
  let len := Z.of_nat (List.length l) in
  let k := if a <? 0 then Z.max (len + a) 0 else Z.min a len in
  let e := if b <? 0 then Z.max (len + b) 0 else Z.min b len in
  firstn (Z.to_nat (e - k)) (skipn (Z.to_nat k) l).

(** [Math.ceil(c / s)] on integers, for a positive [s]. *)
Definition ceil_div (c s : Z) : Z := (c + s - 1) / s.

(** ** URL persistence *)

(** [if (v) params.set(k, v)] *)
Definition set_if_truthy (k v : string) (p : URLSearchParams.t) : URLSearchParams.t :=
  if JS.truthy v then URLSearchParams.set p k v else p.

(** A facet is written when its selection is neither empty nor of the size
    of the full list. *)
Definition facet_written (selected : JSSet.t) (all : list string) : bool :=
  (JSSet.size selected >? 0) && (JSSet.size selected <? Z.of_nat (List.length all)).

Definition set_facet (k : string) (selected : JSSet.t) (all : list string)
    (p : URLSearchParams.t) : URLSearchParams.t :=
  if facet_written selected all
  then URLSearchParams.set p k (JS.join "," (JSSet.to_list selected))
  else p.

(** The [params] object built by [syncToUrl]. *)
Definition url_params (w : World) : URLSearchParams.t :=
  let f := els w in
  let st := state w in
  let params := [] in
  let params := set_if_truthy "q" (JS.trim (globalSearch f)) params in
  let params := set_if_truthy "title" (JS.trim (titleFilter f)) params in
  let params := set_if_truthy "author" (JS.trim (authorFilter f)) params in
  let params := set_if_truthy "reviewer" (JS.trim (reviewerFilter f)) params in
  let params := set_facet "subfield" (selectedSubfields w) (allSubfields w) params in
  let params := set_facet "journals" (selectedJournals w) (allJournals w) params in
  let y1 := yearFrom f in
  let y2 := yearTo f in
  let params :=
    if JS.truthy y1 || JS.truthy y2
    then URLSearchParams.set params "year" (y1 ++ "-" ++ y2)
    else params in
  let params := set_if_truthy "access" (accessFilter f) params in
  let params := set_if_truthy "type" (typeFilter f) params in
  let defaultSort := String.eqb (sortKey st) "date" && String.eqb (sortDir st) "desc" in
  let params :=
    if negb defaultSort
    then URLSearchParams.set params "sort" (sortKey st ++ "-" ++ sortDir st)
    else params in
  let params :=
    if page st >? 1
    then URLSearchParams.set params "page" (JS.string_of_Z (page st))
    else params in
  params.

(** [syncToUrl]: the fragment is replaced by the serialized parameters (an
    empty serialization leaves no fragment). *)
Definition syncToUrl (w : World) : World :=
  with_hash (URLSearchParams.toString (url_params w)) w.

Definition read_text (k : string) (c : Control) (params : URLSearchParams.t)
    (w : World) : World :=
  match URLSearchParams.get params k with
  | Some v => with_control c v w
  | None => w
  end.

(** [new Set(values.filter(v => all.includes(v)))] *)
Definition restore_facet (all : list string) (v : string) : JSSet.t :=
  JSSet.of_list (List.filter (fun c => existsb (String.eqb c) all) (JS.split "," v)).

Definition read_subfield (params : URLSearchParams.t) (w : World) : World :=
  match URLSearchParams.get params "subfield" with
  | Some v => with_selectedSubfields (restore_facet (allSubfields w) v) w
  | None => w
  end.

Definition read_journals (params : URLSearchParams.t) (w : World) : World :=
  match URLSearchParams.get params "journals" with
  | Some v => with_selectedJournals (restore_facet (allJournals w) v) w
  | None => w
  end.

Definition read_year (params : URLSearchParams.t) (w : World) : World :=
  match URLSearchParams.get params "year" with
  | Some v =>
      let parts := JS.split "-" v in
      let w := match nth_error parts 0 with
               | Some p0 => if JS.truthy p0 then with_control YearFrom p0 w else w
               | None => w
               end in
      match nth_error parts 1 with
      | Some p1 => if JS.truthy p1 then with_control YearTo p1 w else w
      | None => w
      end
  | None => w
  end.

Definition read_sort (params : URLSearchParams.t) (w : World) : World :=
  match URLSearchParams.get params "sort" with
  | Some v =>
      match JS.split "-" v with
      | [k; d] => with_state (set_sort k d (state w)) w
      | _ => w
      end
  | None => w
  end.

Definition read_page (params : URLSearchParams.t) (w : World) : World :=
  match URLSearchParams.get params "page" with
  | Some v => with_page (JS.num_or (JS.parseInt v) 1) w
  | None => w
  end.

(** The body of [readFromUrl] once the parameters are parsed. *)
Definition read_params (params : URLSearchParams.t) (w : World) : World :=
  let w := read_text "q" GlobalSearch params w in
  let w := read_text "title" TitleFilter params w in
  let w := read_text "author" AuthorFilter params w in
  let w := read_text "reviewer" ReviewerFilter params w in
  let w := read_subfield params w in
  let w := read_journals params w in
  let w := read_year params w in
  let w := read_text "access" AccessFilter params w in
  let w := read_text "type" TypeFilter params w in
  let w := read_sort params w in
  read_page params w.

Definition readFromUrl (w : World) : World :=
  if negb (JS.truthy (hash w)) then w
  else read_params (URLSearchParams.parse (hash w)) w.

(** ** Filtering *)

(** [v ? parseInt(v, 10) : null]; null and NaN are both [None]: the code only
    tests the bound for truthiness before comparing with it. *)
Definition year_bound (v : string) : option Z :=
  if JS.truthy v then JS.parseInt v else None.

Definition bound_val (b : option Z) : Z :=
  match b with Some n => n | None => 0 end.

(** [parseInt((r.date || "").substring(0, 4), 10)] *)
Definition entry_year (r : Entry) : option Z :=
  JS.parseInt (JS.substring0 4 (JS.or_empty (date r))).

(** The year clause of the filter callback. *)
Definition year_passes (fy1 fy2 : option Z) (r : Entry) : bool :=
  if JS.num_truthy fy1 || JS.num_truthy fy2 then
    match entry_year r with
    | None => false
    | Some y =>
        if JS.num_truthy fy1 && (y <? bound_val fy1) then false
        else if JS.num_truthy fy2 && (y >? bound_val fy2) then false
        else true
    end
  else true.

Definition filterByJournal (w : World) : bool :=
  JSSet.size (selectedJournals w) <? Z.of_nat (List.length (allJournals w)).

Definition filterBySubfield (w : World) : bool :=
  JSSet.size (selectedSubfields w) <? Z.of_nat (List.length (allSubfields w)).

Definition blob (r : Entry) : string :=
  JS.toLowerCase
    (title r ++ " " ++ author r ++ " " ++ reviewer r ++ " " ++ journal r ++ " "
     ++ JS.to_string (date r) ++ " "
     ++ JS.toLowerCase (JS.or_empty (subfield_name (subfield r)))).

(** The callback of [allReviews.filter] in [applyFilters]. *)
Definition entry_passes (w : World) (r : Entry) : bool :=
  let f := els w in
  let g := JS.trim (JS.toLowerCase (globalSearch f)) in
  let ft := JS.trim (JS.toLowerCase (titleFilter f)) in
  let fa := JS.trim (JS.toLowerCase (authorFilter f)) in
  let fr := JS.trim (JS.toLowerCase (reviewerFilter f)) in
  let fy1 := year_bound (yearFrom f) in
  let fy2 := year_bound (yearTo f) in
  let fac := JS.toLowerCase (accessFilter f) in
  let ftype := typeFilter f in
  if JS.truthy g && negb (JS.includes (blob r) g) then false
  else if JS.truthy ft && negb (JS.includes (JS.toLowerCase (title r)) ft) then false
  else if JS.truthy fa && negb (JS.includes (JS.toLowerCase (author r)) fa) then false
  else if JS.truthy fr && negb (JS.includes (JS.toLowerCase (reviewer r)) fr) then false
  else if filterByJournal w && negb (JSSet.has (selectedJournals w) (journal r)) then false
  else if filterBySubfield w
          && (negb (JSSet.has_opt (selectedSubfields w) (subfield r))
              && negb (JSSet.has_opt (selectedSubfields w) (subfield2 r))) then false
  else if JS.truthy fac && negb (String.eqb (JS.toLowerCase (access r)) fac) then false
  else if JS.truthy ftype
          && negb (String.eqb (match type r with
                               | Some t => if JS.truthy t then t else "review"
                               | None => "review"
                               end) ftype) then false
  else year_passes fy1 fy2 r.

Definition applyFilters (w : World) : World :=
  with_filtered (List.filter (entry_passes w) (allReviews w)) w.

(** ** Pagination control *)

(** The [for] loop of [renderPagination]: pushes [i], [i+1], ... up to [hi]. *)
Equations? push_range (i hi : Z) : list PageItem by wf (Z.to_nat (hi + 1 - i)) lt :=
  push_range i hi with Z_le_gt_dec i hi => {
    | left _ := PageNum i :: push_range (i + 1) hi;
    | right _ := [] }.
Proof. lia. Qed.

(** The [pages] array built by [renderPagination] for the current page [p];
    nothing is rendered when there is a single page. *)
Definition renderPagination (totalPages p : Z) : list PageItem :=
  if totalPages <=? 1 then []
  else
    ([PageNum 1]
     ++ (if p >? 3 then [Ellipsis] else [])
     ++ push_range (Z.max 2 (p - 1)) (Z.min (totalPages - 1) (p + 1))
     ++ (if p <? totalPages - 2 then [Ellipsis] else [])
     ++ (if totalPages >? 1 then [PageNum totalPages] else []))%list.

(** ** Sorting, rendering and the event handlers *)

Section Browser.

(** [String.prototype.localeCompare] of the host. *)
Variable localeCompare : string -> string -> Z.

(** The comparator passed to [filtered.sort] by [applySort], for a sort key
    that no entry inherits from [Object.prototype]; on an inherited key the
    comparator of the program throws, see [comparator] below. *)
Definition compare_entries (key sdir : string) (a b : Entry) : Z :=
  let dir := if String.eqb sdir "asc" then 1 else -1 in
  let va := JS.toLowerCase (JS.or_empty (prop a key)) in
  let vb := JS.toLowerCase (JS.or_empty (prop b key)) in
  dir * localeCompare va vb.

Definition applySort (w : World) : World :=
  with_filtered
    (sort_by (compare_entries (sortKey (state w)) (sortDir (state w))) (filtered w)) w.

Fixpoint build_rows (expanded : option Z) (idx : Z) (items : list Entry) : list Row :=
  match items with
  | [] => []
  | r :: t =>
      {| row_idx := idx; row_entry := r;
         row_expanded := match expanded with Some e => e =? idx | None => false end |}
      :: build_rows expanded (idx + 1) t
  end.

Definition render (w : World) : World :=
  let w := applySort w in
  let count := Z.of_nat (List.length (filtered w)) in
  let st := state w in
  let total := Z.max 1 (ceil_div count (perPage st)) in
  let st := if page st >? total then set_page total st else st in
  let start := (page st - 1) * perPage st in
  let pageItems := slice (filtered w) start (start + perPage st) in
  {| allReviews := allReviews w; filtered := filtered w; allJournals := allJournals w;
     selectedJournals := selectedJournals w; allSubfields := allSubfields w;
     selectedSubfields := selectedSubfields w; state := st; els := els w; hash := hash w;
     rows := build_rows (expandedIdx st) start pageItems;
     pagination := renderPagination total (page st);
     totalPages := total |}.

Definition update (w : World) : World := render (applyFilters w).

(** The assignments of [clearFilters], before its final [update()]. *)
Definition reset_filters (w : World) : World :=
  let w := with_els empty_form w in
  let w := with_selectedSubfields (JSSet.of_list (allSubfields w)) w in
  let w := with_selectedJournals (JSSet.of_list (allJournals w)) w in
  let w := with_page 1 w in
  with_state (set_expandedIdx None (state w)) w.

Definition clearFilters (w : World) : World := update (reset_filters w).

(** The user interactions wired up on [DOMContentLoaded] and in [render].
    [PerPageChange n] carries the parsed value of the page-size select;
    [ControlChange c v] is a text input (after its debounce) or a select or
    number input whose value has become [v]; [PopState fragment] is a
    back/forward navigation to a URL with that fragment. *)
Inductive Action :=
| ClearClick
| PerPageChange (n : Z)
| ControlChange (c : Control) (v : string)
| SubfieldSelectAll
| SubfieldSelectNone
| SubfieldCheckbox (v : string) (checked : bool)
| JournalSelectAll
| JournalSelectNone
| JournalCheckbox (v : string) (checked : bool)
| HeaderClick (key : string)
| SourceCardClick (journal : string)
| BrowseRecentClick
| PopState (fragment : string)
| RowClick (idx : Z)
| NameLinkClick (kind value : string)
| PageButtonClick (np : Z).

(** Tail shared by every filter handler: [state.page = 1; update(); syncToUrl()]. *)
Definition refilter (w : World) : World := syncToUrl (update (with_page 1 w)).

Definition header_click (key : string) (s : State) : State :=
  if String.eqb (sortKey s) key
  then set_sort (sortKey s) (if String.eqb (sortDir s) "asc" then "desc" else "asc") s
  else set_sort key (if String.eqb key "date" then "desc" else "asc") s.

Definition row_click (idx : Z) (s : State) : State :=
  set_expandedIdx
    (match expandedIdx s with
     | Some e => if e =? idx then None else Some idx
     | None => Some idx
     end) s.

Definition step (a : Action) (w : World) : World :=
  match a with
  | ClearClick => syncToUrl (clearFilters w)
  | PerPageChange n =>
      syncToUrl (render (with_state (set_page 1 (set_perPage n (state w))) w))
  | ControlChange c v => refilter (with_control c v w)
  | SubfieldSelectAll =>
      refilter (with_selectedSubfields (JSSet.of_list (allSubfields w)) w)
  | SubfieldSelectNone => refilter (with_selectedSubfields [] w)
  | SubfieldCheckbox v checked =>
      refilter (with_selectedSubfields
                  (if checked then JSSet.add (selectedSubfields w) v
                   else JSSet.delete (selectedSubfields w) v) w)
  | JournalSelectAll =>
      refilter (with_selectedJournals (JSSet.of_list (allJournals w)) w)
  | JournalSelectNone => refilter (with_selectedJournals [] w)
  | JournalCheckbox v checked =>
      refilter (with_selectedJournals
                  (if checked then JSSet.add (selectedJournals w) v
                   else JSSet.delete (selectedJournals w) v) w)
  | HeaderClick key =>
      syncToUrl (render (with_page 1 (with_state (header_click key (state w)) w)))
  | SourceCardClick j =>
      let w := clearFilters w in
      let w := with_selectedJournals (JSSet.of_list [j]) w in
      let w := with_state (set_sort "date" "desc" (state w)) w in
      refilter w
  | BrowseRecentClick =>
      let w := clearFilters w in
      let w := with_state (set_sort "date" "desc" (state w)) w in
      refilter w
  | PopState h => update (readFromUrl (with_hash h w))
  | RowClick idx => render (with_state (row_click idx (state w)) w)
  | NameLinkClick kind value =>
      let w := clearFilters w in
      let w := if String.eqb kind "journal"
               then with_selectedJournals (JSSet.of_list [value]) w
               else with_control GlobalSearch value w in
      let w := with_state (set_sort "date" "desc" (state w)) w in
      refilter w
  | PageButtonClick np =>
      if (np >=? 1) && (np <=? totalPages w)
      then syncToUrl (render (with_page np w))
      else w
  end.

(** [s.replace(/^The /i, '')] *)
Definition strip_the (s : string) : string :=
  if String.eqb (JS.toLowerCase (JS.substring0 4 s)) "the "
  then String.substring 4 (String.length s - 4) s
  else s.

(** The variables as set up on [DOMContentLoaded] before the fragment is
    read: [reviews] is the embedded dataset, [boxes] the values of the
    subfield checkboxes of the page, [fragment] the URL fragment. *)
Definition fresh (reviews : list Entry) (boxes : list string) (fragment : string) : World :=
  let journals :=
    sort_by (fun a b => localeCompare (strip_the a) (strip_the b))
            (JSSet.of_list (map journal reviews)) in
  {| allReviews := reviews; filtered := []; allJournals := journals;
     selectedJournals := JSSet.of_list journals; allSubfields := boxes;
     selectedSubfields := JSSet.of_list boxes; state := initial_state;
     els := empty_form; hash := fragment; rows := []; pagination := [];
     totalPages := 1 |}.

Definition init (reviews : list Entry) (boxes : list string) (fragment : string) : World :=
  update (readFromUrl (fresh reviews boxes fragment)).

(** The worlds a page can be in: loaded from some fragment, then driven by
    any sequence of interactions. *)
Inductive reachable (reviews : list Entry) (boxes : list string) : World -> Prop :=
| reach_init fragment : reachable reviews boxes (init reviews boxes fragment)
| reach_step a w : reachable reviews boxes w -> reachable reviews boxes (step a w).

End Browser.

(** ** Observations used to state the properties *)

(** The direction [applySort] reads off [sortDir]: anything but ["asc"]
    sorts descending. *)
Definition ascending (d : string) : bool := String.eqb d "asc".

Definition same_set (a b : list string) : Prop := forall x, In x a <-> In x b.

(** Two worlds hold the same filter, sort and page state.  The text controls
    are compared after [trim] (the filter and the URL both trim them), the
    selections as sets; [perPage] and the expanded row are not compared. *)
Record view_equiv (w1 w2 : World) : Prop := {
  ve_q : JS.trim (globalSearch (els w1)) = JS.trim (globalSearch (els w2));
  ve_title : JS.trim (titleFilter (els w1)) = JS.trim (titleFilter (els w2));
  ve_author : JS.trim (authorFilter (els w1)) = JS.trim (authorFilter (els w2));
  ve_reviewer : JS.trim (reviewerFilter (els w1)) = JS.trim (reviewerFilter (els w2));
  ve_yearFrom : yearFrom (els w1) = yearFrom (els w2);
  ve_yearTo : yearTo (els w1) = yearTo (els w2);
  ve_access : accessFilter (els w1) = accessFilter (els w2);
  ve_type : typeFilter (els w1) = typeFilter (els w2);
  ve_journals : same_set (selectedJournals w1) (selectedJournals w2);
  ve_subfields : same_set (selectedSubfields w1) (selectedSubfields w2);
  ve_sortKey : sortKey (state w1) = sortKey (state w2);
  ve_sortDir : sortDir (state w1) = sortDir (state w2);
  ve_page : page (state w1) = page (state w2)
}.

Definition comma_free (l : list string) : Prop :=
  Forall (fun x => JS.contains_char "," x = false) l.

(** A facet selection as the data model has it: duplicate-free, inside the
    full list of values. *)
Definition selection_of (selected all : list string) : Prop :=
  NoDup selected /\ incl selected all.

(** The view states whose URL encoding can be decoded without loss. *)
Record shareable (w : World) : Prop := {
  sh_journals : selection_of (selectedJournals w) (allJournals w);
  sh_subfields : selection_of (selectedSubfields w) (allSubfields w);
  sh_journals_some : selectedJournals w = [] -> allJournals w = [];
  sh_subfields_some : selectedSubfields w = [] -> allSubfields w = [];
  sh_journals_comma : comma_free (selectedJournals w);
  sh_subfields_comma : comma_free (selectedSubfields w);
  sh_yearFrom : JS.contains_char "-" (yearFrom (els w)) = false;
  sh_yearTo : JS.contains_char "-" (yearTo (els w)) = false;
  sh_sortKey : JS.contains_char "-" (sortKey (state w)) = false;
  sh_sortDir : JS.contains_char "-" (sortDir (state w)) = false;
  sh_page : 1 <= page (state w)
}.

(** The interactions that only change a filter. *)
Definition filter_action (a : Action) : bool :=
  match a with
  | ClearClick | ControlChange _ _
  | SubfieldSelectAll | SubfieldSelectNone | SubfieldCheckbox _ _
  | JournalSelectAll | JournalSelectNone | JournalCheckbox _ _ => true
  | _ => false
  end.

(** Ticking the journal checkboxes [vs] one after the other. *)
Definition check_journals (cmp : string -> string -> Z) (vs : list string)
    (w : World) : World :=
  fold_left (fun u v => step cmp (JournalCheckbox v true) u) vs w.

(** Ticking the subfield checkboxes [vs] one after the other. *)
Definition check_subfields (cmp : string -> string -> Z) (vs : list string)
    (w : World) : World :=
  fold_left (fun u v => step cmp (SubfieldCheckbox v true) u) vs w.

(** The year clause as [applyFilters] evaluates it on the form. *)
Definition year_clause (w : World) (r : Entry) : bool :=
  year_passes (year_bound (yearFrom (els w))) (year_bound (yearTo (els w))) r.

(** A year control constrains the result with the bound [n]: its value
    parses to [n] and [n] is not zero (zero and NaN are falsy). *)
Definition bound_in_effect (v : string) (n : Z) : Prop :=
  JS.parseInt v = Some n /\ n <> 0.

(** The integers [lo], [lo+1], ..., [hi] (empty when [hi < lo]). *)
Definition zrange (lo hi : Z) : list Z :=
  map (fun k => lo + Z.of_nat k) (seq 0 (Z.to_nat (hi + 1 - lo))).

(** A page window reads well: it starts and ends with a page number,
    neighbouring numbers are consecutive, and an ellipsis stands exactly
    between two numbers that are not. *)
Fixpoint gapped (l : list PageItem) : bool :=
  match l with
  | [PageNum _] => true
  | PageNum a :: ((PageNum b :: _) as r) => (b =? a + 1) && gapped r
  | PageNum a :: Ellipsis :: ((PageNum b :: _) as r) => (a + 1 <? b) && gapped r
  | _ => false
  end.

(** The keys [readFromUrl] looks up. *)
Definition recognized_keys : list string :=
  ["q"; "title"; "author"; "reviewer"; "subfield"; "journals"; "year"; "access";
   "type"; "sort"; "page"].

(** Two worlds differ at most in the expanded row and the rendered rows. *)
Record same_but_expansion (w1 w2 : World) : Prop := {
  sbe_allReviews : allReviews w1 = allReviews w2;
  sbe_filtered : filtered w1 = filtered w2;
  sbe_allJournals : allJournals w1 = allJournals w2;
  sbe_selectedJournals : selectedJournals w1 = selectedJournals w2;
  sbe_allSubfields : allSubfields w1 = allSubfields w2;
  sbe_selectedSubfields : selectedSubfields w1 = selectedSubfields w2;
  sbe_page : page (state w1) = page (state w2);
  sbe_perPage : perPage (state w1) = perPage (state w2);
  sbe_sortKey : sortKey (state w1) = sortKey (state w2);
  sbe_sortDir : sortDir (state w1) = sortDir (state w2);
  sbe_els : els w1 = els w2;
  sbe_hash : hash w1 = hash w2;
  sbe_pagination : pagination w1 = pagination w2;
  sbe_totalPages : totalPages w1 = totalPages w2
}.

(** ** Sample data for the worked examples *)

(** A comparison by code points, standing in for [localeCompare]. *)
Definition codepoint_compare (a b : string) : Z :=
  match String.compare a b with
  | Lt => -1
  | Eq => 0
  | Gt => 1
  end.

Definition review (t a rv j d : string) (sf : option string) : Entry :=
  {| title := t; author := a; reviewer := rv; journal := j; date := Some d;
     access := "Open"; summary := None; link := None; type := None;
     subfield := sf; subfield2 := None; symposium_group := None |}.

Definition sample_2012 : Entry :=
  review "Leviathan Revisited" "Thomas Hobbes" "A. Reader" "Mind" "2012-05-01"
    (Some "political").

Definition sample_2009 : Entry :=
  review "On Virtue" "P. Foot" "B. Critic" "Ethics" "2009-01-01" (Some "ethics").

Definition sample_2010 : Entry :=
  review "Untitled Notes" "C. Author" "D. Reviewer" "Mind" "2010-03-15" None.

Definition sample_reviews : list Entry := [sample_2012; sample_2009; sample_2010].

Definition sample_boxes : list string := ["ethics"; "political"; "history"].

(** The sample page as loaded without a fragment. *)
Definition demo_w0 : World := init codepoint_compare sample_reviews sample_boxes "".

(** The sample page after a few interactions: sorted by title, one journal
    unchecked, a year bound and a search typed, one entry per page, page 2. *)
Definition demo_w : World :=
  step codepoint_compare (PageButtonClick 2)
   (step codepoint_compare (PerPageChange 1)
    (step codepoint_compare (ControlChange GlobalSearch " Mind ")
     (step codepoint_compare (ControlChange YearFrom "2009")
      (step codepoint_compare (JournalCheckbox "Ethics" false)
       (step codepoint_compare (HeaderClick "title") demo_w0))))).

(** The sample page after "select none" on the journal facet. *)
Definition demo_none : World := step codepoint_compare JournalSelectNone demo_w0.

(** The sample page with the year range 2010 to 2011. *)
Definition demo_years : World :=
  step codepoint_compare (ControlChange YearTo "2011")
    (step codepoint_compare (ControlChange YearFrom "2010") demo_w0).

(** The sample page with 0 typed as the upper year bound. *)
Definition demo_year_zero : World :=
  step codepoint_compare (ControlChange YearTo "0") demo_w0.

(** The sample page with the "history" subfield unchecked. *)
Definition demo_subfields : World :=
  step codepoint_compare (SubfieldCheckbox "history" false) demo_w0.

(** The sample page opened with a negative page number in the fragment. *)
Definition demo_negative : World :=
  init codepoint_compare sample_reviews sample_boxes "page=-3".

(** The sample page before rendering, decoded from a fragment with a
    fractional page number. *)
Definition demo_fraction : World :=
  readFromUrl (fresh codepoint_compare sample_reviews sample_boxes "page=2.5").

(** The sample page with every journal and every subfield unchecked. *)
Definition demo_unchecked : World := step codepoint_compare SubfieldSelectNone demo_none.

(** ** The filter indicator *)

(** The [active] array of [updateFilterIndicator]. *)
Definition active_filters (w : World) : list string :=
  let f := els w in
  let active := [] in
  let active := if JS.truthy (JS.trim (globalSearch f))
                then (active ++ ["search"])%list else active in
  let active := if JS.truthy (JS.trim (titleFilter f))
                then (active ++ ["title"])%list else active in
  let active := if JS.truthy (JS.trim (authorFilter f))
                then (active ++ ["author"])%list else active in
  let active := if JS.truthy (JS.trim (reviewerFilter f))
                then (active ++ ["reviewer"])%list else active in
  let active := if JSSet.size (selectedSubfields w) <? Z.of_nat (List.length (allSubfields w))
                then (active ++ ["subfield"])%list else active in
  let active := if JSSet.size (selectedJournals w) <? Z.of_nat (List.length (allJournals w))
                then (active ++ ["journals"])%list else active in
  let active := if JS.truthy (yearFrom f) || JS.truthy (yearTo f)
                then (active ++ ["year"])%list else active in
  let active := if JS.truthy (accessFilter f)
                then (active ++ ["access"])%list else active in
  let active := if JS.truthy (typeFilter f)
                then (active ++ ["type"])%list else active in
  active.

(** The text [updateFilterIndicator] puts in the indicator. *)
Definition filter_indicator (w : World) : string :=
  let n := Z.of_nat (List.length (active_filters w)) in
  if n >? 0
  then JS.string_of_Z n ++ " filter" ++ (if n >? 1 then "s" else "") ++ " active"
  else "".

(** ** Further observations *)

(** The fragment is the serialization of the current state. *)
Definition in_sync (w : World) : Prop :=
  hash w = URLSearchParams.toString (url_params w).

(** What every render leaves behind on a page over the dataset [reviews]
    with subfield checkboxes [boxes]. *)
Record consistent (reviews : list Entry) (boxes : list string) (w : World) : Prop := {
  cons_allReviews : allReviews w = reviews;
  cons_allSubfields : allSubfields w = boxes;
  cons_filtered :
    Permutation (filtered w) (List.filter (entry_passes w) (allReviews w));
  cons_totalPages :
    totalPages w
    = Z.max 1 (ceil_div (Z.of_nat (List.length (filtered w))) (perPage (state w)));
  cons_page : page (state w) <= totalPages w;
  cons_pagination : pagination w = renderPagination (totalPages w) (page (state w));
  cons_selectedJournals : NoDup (selectedJournals w);
  cons_selectedSubfields : NoDup (selectedSubfields w)
}.

(** The interactions whose handler ends by returning to page 1. *)
Definition resets_page (a : Action) : bool :=
  match a with
  | PopState _ | RowClick _ | PageButtonClick _ => false
  | _ => true
  end.

(** The state [syncToUrl] writes as the empty fragment. *)
Record at_defaults (w : World) : Prop := {
  def_q : JS.trim (globalSearch (els w)) = "";
  def_title : JS.trim (titleFilter (els w)) = "";
  def_author : JS.trim (authorFilter (els w)) = "";
  def_reviewer : JS.trim (reviewerFilter (els w)) = "";
  def_subfield : facet_written (selectedSubfields w) (allSubfields w) = false;
  def_journals : facet_written (selectedJournals w) (allJournals w) = false;
  def_yearFrom : yearFrom (els w) = "";
  def_yearTo : yearTo (els w) = "";
  def_access : accessFilter (els w) = "";
  def_type : typeFilter (els w) = "";
  def_sortKey : sortKey (state w) = "date";
  def_sortDir : sortDir (state w) = "desc";
  def_page : page (state w) <= 1
}.

(** The entries shown on page [k]. *)
Definition page_entries (cmp : string -> string -> Z) (w : World) (k : Z) : list Entry :=
  map row_entry (rows (render cmp (with_page k w))).

(** The interactions whose handler does not assign [state.expandedIdx]. *)
Definition keeps_expansion (a : Action) : bool :=
  match a with
  | ClearClick | SourceCardClick _ | BrowseRecentClick | NameLinkClick _ _
  | RowClick _ => false
  | _ => true
  end.

(** The strings [applyFilters] joins into the text searched by the global
    search; a missing date reads ["undefined"]. *)
Definition searched_fields (r : Entry) : list string :=
  [title r; author r; reviewer r; journal r; JS.to_string (date r);
   JS.or_empty (subfield_name (subfield r))].

(** The interactions that change the sort, the page size, the page or the
    expanded row, and no filter. *)
Definition view_action (a : Action) : bool :=
  match a with
  | PerPageChange _ | HeaderClick _ | RowClick _ | PageButtonClick _ => true
  | _ => false
  end.

(** The key [applySort] compares: the lower-cased sort field, a missing
    one being the empty string. *)
Definition sort_value (w : World) (r : Entry) : string :=
  JS.toLowerCase (JS.or_empty (prop r (sortKey (state w)))).

(** The table is ordered by the sort key in the sort direction, for the
    comparison [cmp] of two keys. *)
Definition sorted_view (cmp : string -> string -> Z) (w : World) : Prop :=
  forall i j a b, (i < j)%nat ->
    nth_error (filtered w) i = Some a -> nth_error (filtered w) j = Some b ->
    if ascending (sortDir (state w))
    then cmp (sort_value w a) (sort_value w b) <= 0
    else 0 <= cmp (sort_value w a) (sort_value w b).

(** ** Property reads through the prototype chain *)

(** The properties every object inherits from [Object.prototype]: eleven
    functions and the [__proto__] accessor, which yields the prototype
    object.  None of them is a string and all of them are truthy. *)
Definition object_prototype_keys : list string :=
  ["constructor"; "hasOwnProperty"; "isPrototypeOf"; "propertyIsEnumerable";
   "toLocaleString"; "toString"; "valueOf"; "__proto__"; "__defineGetter__";
   "__defineSetter__"; "__lookupGetter__"; "__lookupSetter__"].

Definition inherited_key (k : string) : bool :=
  existsb (String.eqb k) object_prototype_keys.

(** What [r[key]] evaluates to on an entry parsed from JSON: an own
    property, else the inherited one, else [undefined]. *)
Inductive PropertyValue :=
| Missing
| Text (s : string)
| Inherited.

Definition read_property (r : Entry) (key : string) : PropertyValue :=
  match prop r key with
  | Some s => Text s
  | None => if inherited_key key then Inherited else Missing
  end.

(** [(v || "").toLowerCase()]: an inherited function or object is truthy
    and has no [toLowerCase], so the call throws a TypeError ([None]). *)
Definition sort_operand (v : PropertyValue) : option string :=
  match v with
  | Missing => Some (JS.toLowerCase "")
  | Text s => Some (JS.toLowerCase (if JS.truthy s then s else ""))
  | Inherited => None
  end.

(** The comparator of [applySort] with the exception: [None] when it
    throws. *)
Definition comparator (localeCompare : string -> string -> Z) (key sdir : string)
    (a b : Entry) : option Z :=
  let dir := if String.eqb sdir "asc" then 1 else -1 in
  match sort_operand (read_property a key) with
  | None => None
  | Some va =>
      match sort_operand (read_property b key) with
      | None => None
      | Some vb => Some (dir * localeCompare va vb)
      end
  end.

(** The worlds on which [render] runs to its end and computes what the
    model computes: the sort key is not an inherited property, so the
    comparator does not throw, and the page size is positive, so
    [ceil_div] is [Math.ceil] of the quotient. *)
Definition renderable (w : World) : Prop :=
  inherited_key (sortKey (state w)) = false /\ 0 < perPage (state w).

(** The pages reached by a load and a sequence of interactions none of
    which ends in a world that is not [renderable].  Every [render] of a
    handler runs with the sort key and the page size the page has before
    or after the handler, so no handler on such a path is cut short by an
    exception. *)
Inductive browsable (cmp : string -> string -> Z) (reviews : list Entry)
    (boxes : list string) : World -> Prop :=
| browse_init fragment :
    renderable (init cmp reviews boxes fragment) ->
    browsable cmp reviews boxes (init cmp reviews boxes fragment)
| browse_step a w :
    browsable cmp reviews boxes w -> renderable (step cmp a w) ->
    browsable cmp reviews boxes (step cmp a w).

(** The sample page before rendering, decoded from a fragment whose sort
    key is the name of an inherited property. *)
Definition demo_inherited : World :=
  readFromUrl (fresh codepoint_compare sample_reviews sample_boxes "sort=constructor-asc").
(** * Properties *)

(** ** Strings: splitting and joining *)

Lemma split_nonempty sep s : JS.split sep s <> [].
Proof.
  destruct s as [|c r]; simpl; [discriminate|].
  destruct (Ascii.eqb c sep); [discriminate|].
  destruct (JS.split sep r); discriminate.
Qed.

Lemma split_no_sep sep s :
  JS.contains_char sep s = false -> JS.split sep s = [s].
Proof.
  induction s as [|c r IH]; simpl; intros H; [reflexivity|].
  apply orb_false_iff in H as [Hc Hr].
  rewrite Hc, (IH Hr). reflexivity.
Qed.

Lemma split_app_sep sep a b :
  JS.contains_char sep a = false ->
  JS.split sep (a ++ String sep b) = a :: JS.split sep b.
Proof.
  induction a as [|c r IH]; simpl; intros H.
  - rewrite Ascii.eqb_refl. reflexivity.
  - apply orb_false_iff in H as [Hc Hr].
    rewrite Hc, (IH Hr). reflexivity.
Qed.

Lemma split_join sep l :
  l <> [] ->
  Forall (fun x => JS.contains_char sep x = false) l ->
  JS.split sep (JS.join (String sep EmptyString) l) = l.
Proof.
  intros Hne Hall. induction Hall as [|x r Hx Hr IH]; [contradiction|].
  destruct r as [|y r'].
  - simpl. apply split_no_sep, Hx.
  - change (JS.join (String sep "") (x :: y :: r'))
      with (x ++ String sep (JS.join (String sep "") (y :: r'))).
    rewrite split_app_sep by exact Hx.
    rewrite IH by discriminate. reflexivity.
Qed.

Lemma contains_char_app c a b :
  JS.contains_char c (a ++ b) = JS.contains_char c a || JS.contains_char c b.
Proof.
  induction a as [|d r IH]; simpl; [reflexivity|].
  rewrite IH, orb_assoc. reflexivity.
Qed.

(** ** The urlencoded format round-trips *)

Lemma encode_byte_no_amp c :
  JS.contains_char "&" (URLSearchParams.encode_byte c) = false.
Proof. destruct c as [[] [] [] [] [] [] [] []]; reflexivity. Qed.

Lemma encode_byte_no_eq c :
  JS.contains_char "=" (URLSearchParams.encode_byte c) = false.
Proof. destruct c as [[] [] [] [] [] [] [] []]; reflexivity. Qed.

Lemma encode_no_amp s : JS.contains_char "&" (URLSearchParams.encode s) = false.
Proof.
  induction s as [|c r IH]; simpl; [reflexivity|].
  rewrite contains_char_app, encode_byte_no_amp, IH. reflexivity.
Qed.

Lemma encode_no_eq s : JS.contains_char "=" (URLSearchParams.encode s) = false.
Proof.
  induction s as [|c r IH]; simpl; [reflexivity|].
  rewrite contains_char_app, encode_byte_no_eq, IH. reflexivity.
Qed.

Lemma decode_encode_byte c rest :
  URLSearchParams.decode (URLSearchParams.encode_byte c ++ rest)
  = String c (URLSearchParams.decode rest).
Proof. destruct c as [[] [] [] [] [] [] [] []]; reflexivity. Qed.

Lemma decode_encode s : URLSearchParams.decode (URLSearchParams.encode s) = s.
Proof.
  induction s as [|c r IH]; [reflexivity|].
  simpl URLSearchParams.encode. rewrite decode_encode_byte, IH. reflexivity.
Qed.

Lemma split_first_app sep a b :
  JS.contains_char sep a = false ->
  URLSearchParams.split_first sep (a ++ String sep b) = (a, b).
Proof.
  induction a as [|c r IH]; simpl; intros H.
  - rewrite Ascii.eqb_refl. reflexivity.
  - apply orb_false_iff in H as [Hc Hr].
    rewrite Hc, (IH Hr). reflexivity.
Qed.

Lemma parse_serialize_pair kv :
  URLSearchParams.parse_pair (URLSearchParams.serialize_pair kv) = kv.
Proof.
  destruct kv as [k v]. unfold URLSearchParams.parse_pair, URLSearchParams.serialize_pair.
  simpl fst; simpl snd.
  change (URLSearchParams.encode k ++ "=" ++ URLSearchParams.encode v)
    with (URLSearchParams.encode k ++ String "=" (URLSearchParams.encode v)).
  rewrite split_first_app by apply encode_no_eq.
  rewrite !decode_encode. reflexivity.
Qed.

Lemma serialize_pair_no_amp kv :
  JS.contains_char "&" (URLSearchParams.serialize_pair kv) = false.
Proof.
  unfold URLSearchParams.serialize_pair.
  rewrite !contains_char_app, !encode_no_amp. reflexivity.
Qed.

Lemma serialize_pair_truthy kv :
  JS.truthy (URLSearchParams.serialize_pair kv) = true.
Proof.
  unfold URLSearchParams.serialize_pair.
  destruct (URLSearchParams.encode (fst kv)); reflexivity.
Qed.

Lemma encode_byte_head c :
  exists d r, URLSearchParams.encode_byte c = String d r /\ d <> "?"%char.
Proof.
  destruct c as [[] [] [] [] [] [] [] []]; eexists; eexists; (split; [reflexivity | discriminate]).
Qed.

Lemma toString_head ps :
  match URLSearchParams.toString ps with
  | String "?" _ => False
  | _ => True
  end.
Proof.
  destruct ps as [|[k v] r]; [exact I|].
  assert (H : exists d t, URLSearchParams.toString ((k, v) :: r) = String d t /\ d <> "?"%char).
  { unfold URLSearchParams.toString. simpl map.
    assert (Hp : exists d t, URLSearchParams.serialize_pair (k, v) = String d t /\ d <> "?"%char).
    { unfold URLSearchParams.serialize_pair. simpl fst; simpl snd.
      destruct k as [|c k'].
      - simpl. eexists; eexists; split; [reflexivity | discriminate].
      - simpl URLSearchParams.encode.
        destruct (encode_byte_head c) as (d & t & -> & Hd).
        simpl. eexists; eexists; split; [reflexivity | exact Hd]. }
    destruct Hp as (d & t & Hp & Hd).
    destruct (map URLSearchParams.serialize_pair r) as [|y r'].
    - simpl. rewrite Hp. eauto.
    - change (JS.join "&" (URLSearchParams.serialize_pair (k, v) :: y :: r'))
        with (URLSearchParams.serialize_pair (k, v) ++ "&" ++ JS.join "&" (y :: r')).
      rewrite Hp. simpl. eauto. }
  destruct H as (d & t & -> & Hd).
  destruct d as [[] [] [] [] [] [] [] []]; try exact I. apply Hd. reflexivity.
Qed.

(** Parsing the serialization of a parameter list gives the list back. *)
Lemma parse_toString ps : URLSearchParams.parse (URLSearchParams.toString ps) = ps.
Proof.
  assert (Hu : URLSearchParams.parse_urlencoded (URLSearchParams.toString ps) = ps).
  { unfold URLSearchParams.parse_urlencoded, URLSearchParams.toString.
    destruct ps as [|kv r]; [reflexivity|].
    rewrite split_join.
    - rewrite forallb_filter_id.
      + rewrite map_map. rewrite <- (map_id (kv :: r)) at 2.
        apply map_ext. apply parse_serialize_pair.
      + apply forallb_forall. intros x Hx. apply in_map_iff in Hx as (y & <- & _).
        apply serialize_pair_truthy.
    - discriminate.
    - apply Forall_forall. intros x Hx. apply in_map_iff in Hx as (y & <- & _).
      apply serialize_pair_no_amp. }
  pose proof (toString_head ps) as Hh.
  unfold URLSearchParams.parse.
  destruct (URLSearchParams.toString ps) as [|c t]; [exact Hu|].
  destruct c as [[] [] [] [] [] [] [] []]; try exact Hu. contradiction.
Qed.

Lemma toString_empty ps : URLSearchParams.toString ps = EmptyString -> ps = [].
Proof.
  destruct ps as [|kv r]; [reflexivity|]. intros H.
  pose proof (parse_toString (kv :: r)) as Hp. rewrite H in Hp. discriminate.
Qed.

(** ** Numbers: [parseInt] reads back what [String] prints *)

Lemma parse_digits_uint d d' :
  JS.parse_digits (NilEmpty.string_of_uint d) (Z.of_N (Unsigned.of_lu d'))
  = Z.of_N (Unsigned.of_lu (Decimal.revapp d d')).
Proof.
  revert d'. induction d as [|d IH|d IH|d IH|d IH|d IH|d IH|d IH|d IH|d IH|d IH];
    intros d'; [reflexivity|..];
    cbn [NilEmpty.string_of_uint JS.parse_digits Decimal.revapp];
    match goal with
    | |- context [JS.is_digit ?c] => change (JS.is_digit c) with true; cbv iota
    end;
    rewrite <- IH; f_equal; cbn [Unsigned.of_lu]; unfold JS.digit_val, JS.code;
    cbn [N_of_ascii N_of_digits]; lia.
Qed.

Lemma string_of_uint_head d :
  d <> Decimal.Nil ->
  exists c r, NilEmpty.string_of_uint d = String c r /\ JS.is_digit c = true.
Proof.
  destruct d; [congruence|..]; intros _; eexists; eexists; (split; reflexivity).
Qed.

Lemma parseInt_digit_head c r :
  JS.is_digit c = true ->
  JS.parseInt (String c r) = Some (JS.parse_digits (String c r) 0).
Proof.
  destruct c as [[] [] [] [] [] [] [] []]; intros H; try discriminate H; reflexivity.
Qed.

Lemma parseInt_minus_digit_head c r :
  JS.is_digit c = true ->
  JS.parseInt (String "-" (String c r)) = Some (- JS.parse_digits (String c r) 0).
Proof.
  destruct c as [[] [] [] [] [] [] [] []]; intros H; try discriminate H; reflexivity.
Qed.

Lemma parse_digits_to_uint p :
  JS.parse_digits (NilEmpty.string_of_uint (Pos.to_uint p)) 0 = Z.pos p.
Proof.
  change 0 with (Z.of_N (Unsigned.of_lu Decimal.Nil)).
  rewrite parse_digits_uint.
  change (Decimal.revapp (Pos.to_uint p) Decimal.Nil) with (Decimal.rev (Pos.to_uint p)).
  rewrite <- Unsigned.of_uint_alt, Unsigned.of_to. reflexivity.
Qed.

(** [parseInt(String(n), 10) === n] for every integer [n]. *)
Lemma parseInt_string_of_Z n : JS.parseInt (JS.string_of_Z n) = Some n.
Proof.
  unfold JS.string_of_Z. destruct n as [|p|p]; [reflexivity|..]; simpl Z.to_int;
    cbn [NilEmpty.string_of_int];
    destruct (string_of_uint_head (Pos.to_uint p) (Unsigned.to_uint_nonnil p))
      as (c & r & E & Hc).
  - rewrite E, (parseInt_digit_head _ _ Hc), <- E, parse_digits_to_uint. reflexivity.
  - rewrite E, (parseInt_minus_digit_head _ _ Hc), <- E, parse_digits_to_uint. reflexivity.
Qed.

(** ** Strings: trimming and case folding *)

Lemma is_space_lower c : JS.is_space (JS.lower_char c) = JS.is_space c.
Proof. destruct c as [[] [] [] [] [] [] [] []]; reflexivity. Qed.

Lemma toLowerCase_trimStart s :
  JS.toLowerCase (JS.trimStart s) = JS.trimStart (JS.toLowerCase s).
Proof.
  induction s as [|c r IH]; [reflexivity|].
  simpl. rewrite is_space_lower. destruct (JS.is_space c); [exact IH | reflexivity].
Qed.

Lemma toLowerCase_trimEnd s :
  JS.toLowerCase (JS.trimEnd s) = JS.trimEnd (JS.toLowerCase s).
Proof.
  induction s as [|c r IH]; [reflexivity|].
  simpl. rewrite <- IH, is_space_lower.
  destruct (JS.trimEnd r) as [|d r']; simpl.
  - destruct (JS.is_space c); reflexivity.
  - reflexivity.
Qed.

(** Case folding and trimming commute. *)
Lemma toLowerCase_trim s : JS.toLowerCase (JS.trim s) = JS.trim (JS.toLowerCase s).
Proof.
  unfold JS.trim. rewrite toLowerCase_trimEnd, toLowerCase_trimStart. reflexivity.
Qed.

Lemma trimEnd_idem s : JS.trimEnd (JS.trimEnd s) = JS.trimEnd s.
Proof.
  induction s as [|c r IH]; [reflexivity|].
  simpl. destruct (JS.trimEnd r) as [|d r'] eqn:E.
  - destruct (JS.is_space c) eqn:Hc; [reflexivity|]. simpl. rewrite Hc. reflexivity.
  - cbn [JS.trimEnd]. cbn [JS.trimEnd] in IH. rewrite IH. reflexivity.
Qed.

Lemma trimStart_head s :
  JS.trimStart s = EmptyString \/
  exists c r, JS.trimStart s = String c r /\ JS.is_space c = false.
Proof.
  induction s as [|c r IH]; [left; reflexivity|].
  simpl. destruct (JS.is_space c) eqn:Hc; [exact IH|]. right. eauto.
Qed.

Lemma trimEnd_head c r :
  JS.is_space c = false -> exists r', JS.trimEnd (String c r) = String c r'.
Proof.
  intros Hc. simpl. destruct (JS.trimEnd r); [rewrite Hc|]; eauto.
Qed.

Lemma trimStart_trim s : JS.trimStart (JS.trim s) = JS.trim s.
Proof.
  unfold JS.trim. destruct (trimStart_head s) as [-> | (c & r & -> & Hc)]; [reflexivity|].
  destruct (trimEnd_head c r Hc) as (r' & ->). simpl. rewrite Hc. reflexivity.
Qed.

(** [trim] is idempotent. *)
Lemma trim_idem s : JS.trim (JS.trim s) = JS.trim s.
Proof.
  unfold JS.trim at 1. rewrite trimStart_trim. unfold JS.trim. apply trimEnd_idem.
Qed.

(** The filter reads a text control through [toLowerCase().trim()], which
    only depends on the trimmed value. *)
Lemma normalise_trim a b :
  JS.trim a = JS.trim b ->
  JS.trim (JS.toLowerCase a) = JS.trim (JS.toLowerCase b).
Proof. intros H. rewrite <- !toLowerCase_trim, H. reflexivity. Qed.

(** ** [URLSearchParams]: reading back what [set] wrote *)

Lemma get_remove_key_other p k k' :
  k <> k' -> URLSearchParams.get (URLSearchParams.remove_key k p) k' = URLSearchParams.get p k'.
Proof.
  intros Hk. induction p as [|[a v] r IH]; [reflexivity|].
  simpl. destruct (String.eqb_spec a k) as [->|Ha]; simpl.
  - destruct (String.eqb_spec k k'); [contradiction | exact IH].
  - rewrite IH. reflexivity.
Qed.

Lemma get_set_same p k v : URLSearchParams.get (URLSearchParams.set p k v) k = Some v.
Proof.
  induction p as [|[a u] r IH]; simpl.
  - rewrite String.eqb_refl. reflexivity.
  - destruct (String.eqb_spec a k) as [->|Ha]; simpl.
    + rewrite String.eqb_refl. reflexivity.
    + destruct (String.eqb_spec a k); [contradiction | exact IH].
Qed.

Lemma get_set_other p k k' v :
  k <> k' -> URLSearchParams.get (URLSearchParams.set p k v) k' = URLSearchParams.get p k'.
Proof.
  intros Hk. induction p as [|[a u] r IH]; simpl.
  - destruct (String.eqb_spec k k'); [contradiction | reflexivity].
  - destruct (String.eqb_spec a k) as [->|Ha]; simpl.
    + destruct (String.eqb_spec k k'); [contradiction|].
      apply get_remove_key_other, Hk.
    + rewrite IH. reflexivity.
Qed.

Lemma get_cond_set (b : bool) p k k' v :
  URLSearchParams.get (if b then URLSearchParams.set p k v else p) k'
  = if String.eqb k k' then (if b then Some v else URLSearchParams.get p k')
    else URLSearchParams.get p k'.
Proof.
  destruct (String.eqb_spec k k') as [->|Hk]; destruct b; try reflexivity.
  - apply get_set_same.
  - apply get_set_other, Hk.
Qed.

Ltac url_get :=
  unfold url_params, set_if_truthy, set_facet; cbv zeta;
  repeat (rewrite get_cond_set; cbn [String.eqb Ascii.eqb Bool.eqb]);
  reflexivity.

Lemma url_get_q w :
  URLSearchParams.get (url_params w) "q"
  = if JS.truthy (JS.trim (globalSearch (els w)))
    then Some (JS.trim (globalSearch (els w))) else None.
Proof. url_get. Qed.

Lemma url_get_title w :
  URLSearchParams.get (url_params w) "title"
  = if JS.truthy (JS.trim (titleFilter (els w)))
    then Some (JS.trim (titleFilter (els w))) else None.
Proof. url_get. Qed.

Lemma url_get_author w :
  URLSearchParams.get (url_params w) "author"
  = if JS.truthy (JS.trim (authorFilter (els w)))
    then Some (JS.trim (authorFilter (els w))) else None.
Proof. url_get. Qed.

Lemma url_get_reviewer w :
  URLSearchParams.get (url_params w) "reviewer"
  = if JS.truthy (JS.trim (reviewerFilter (els w)))
    then Some (JS.trim (reviewerFilter (els w))) else None.
Proof. url_get. Qed.

Lemma url_get_subfield w :
  URLSearchParams.get (url_params w) "subfield"
  = if facet_written (selectedSubfields w) (allSubfields w)
    then Some (JS.join "," (selectedSubfields w)) else None.
Proof. url_get. Qed.

Lemma url_get_journals w :
  URLSearchParams.get (url_params w) "journals"
  = if facet_written (selectedJournals w) (allJournals w)
    then Some (JS.join "," (selectedJournals w)) else None.
Proof. url_get. Qed.

Lemma url_get_year w :
  URLSearchParams.get (url_params w) "year"
  = if JS.truthy (yearFrom (els w)) || JS.truthy (yearTo (els w))
    then Some (yearFrom (els w) ++ "-" ++ yearTo (els w)) else None.
Proof. url_get. Qed.

Lemma url_get_access w :
  URLSearchParams.get (url_params w) "access"
  = if JS.truthy (accessFilter (els w)) then Some (accessFilter (els w)) else None.
Proof. url_get. Qed.

Lemma url_get_type w :
  URLSearchParams.get (url_params w) "type"
  = if JS.truthy (typeFilter (els w)) then Some (typeFilter (els w)) else None.
Proof. url_get. Qed.

Lemma url_get_sort w :
  URLSearchParams.get (url_params w) "sort"
  = if negb (String.eqb (sortKey (state w)) "date" && String.eqb (sortDir (state w)) "desc")
    then Some (sortKey (state w) ++ "-" ++ sortDir (state w)) else None.
Proof. url_get. Qed.

Lemma url_get_page w :
  URLSearchParams.get (url_params w) "page"
  = if page (state w) >? 1 then Some (JS.string_of_Z (page (state w))) else None.
Proof. url_get. Qed.

(** ** Insertion-ordered sets *)

Lemma has_In s v : JSSet.has s v = true <-> In v s.
Proof.
  unfold JSSet.has. rewrite existsb_exists. split.
  - intros (x & Hx & E). apply String.eqb_eq in E. subst. exact Hx.
  - intros H. exists v. split; [exact H | apply String.eqb_refl].
Qed.

Lemma add_In s v x : In x (JSSet.add s v) <-> In x s \/ x = v.
Proof.
  unfold JSSet.add. destruct (JSSet.has s v) eqn:E.
  - apply has_In in E. split; [auto | intros [H | ->]; assumption].
  - rewrite in_app_iff. simpl. intuition.
Qed.

Lemma add_NoDup s v : NoDup s -> NoDup (JSSet.add s v).
Proof.
  intros H. unfold JSSet.add. destruct (JSSet.has s v) eqn:E; [exact H|].
  apply NoDup_app; [exact H | repeat constructor; intros [] | ].
  intros x Hx [<-|[]]. apply has_In in Hx. congruence.
Qed.

Lemma fold_add_In l acc x :
  In x (fold_left JSSet.add l acc) <-> In x acc \/ In x l.
Proof.
  revert acc. induction l as [|v r IH]; intros acc; simpl; [tauto|].
  rewrite IH, add_In. intuition.
Qed.

Lemma fold_add_NoDup l acc : NoDup acc -> NoDup (fold_left JSSet.add l acc).
Proof.
  revert acc. induction l as [|v r IH]; intros acc H; simpl; [exact H|].
  apply IH, add_NoDup, H.
Qed.

Lemma fold_add_id l acc :
  NoDup (acc ++ l)%list -> fold_left JSSet.add l acc = (acc ++ l)%list.
Proof.
  revert acc. induction l as [|v r IH]; intros acc H; simpl.
  - rewrite app_nil_r. reflexivity.
  - assert (E : JSSet.has acc v = false).
    { destruct (JSSet.has acc v) eqn:E; [|reflexivity].
      apply has_In in E. apply NoDup_remove_2 in H.
      exfalso. apply H. apply in_or_app. left. exact E. }
    unfold JSSet.add at 2. rewrite E. rewrite IH; rewrite <- app_assoc; [reflexivity | exact H].
Qed.

Lemma of_list_In l x : In x (JSSet.of_list l) <-> In x l.
Proof. unfold JSSet.of_list. rewrite fold_add_In. simpl. tauto. Qed.

Lemma of_list_NoDup l : NoDup (JSSet.of_list l).
Proof. apply fold_add_NoDup. constructor. Qed.

(** [new Set(Array.from(s))] is [s] again. *)
Lemma of_list_id l : NoDup l -> JSSet.of_list l = l.
Proof. intros H. unfold JSSet.of_list. apply fold_add_id. exact H. Qed.

Lemma delete_In s v x : In x (JSSet.delete s v) <-> In x s /\ x <> v.
Proof.
  unfold JSSet.delete. rewrite filter_In, negb_true_iff, String.eqb_neq. tauto.
Qed.

Lemma delete_NoDup s v : NoDup s -> NoDup (JSSet.delete s v).
Proof. apply NoDup_filter. Qed.

Lemma size_lt_length (s all : list string) :
  (JSSet.size s <? Z.of_nat (List.length all)) = (List.length s <? List.length all)%nat.
Proof.
  unfold JSSet.size.
  destruct (Nat.ltb_spec (List.length s) (List.length all)); [apply Z.ltb_lt | apply Z.ltb_ge]; lia.
Qed.

(** A duplicate-free selection inside the full list that is at least as
    long as the list holds every value. *)
Lemma full_selection (s all : list string) :
  NoDup s -> incl s all -> (List.length all <= List.length s)%nat -> incl all s.
Proof. intros Hn Hi Hl. apply NoDup_length_incl; assumption. Qed.

(** A duplicate-free selection missing a value of the full list is strictly
    shorter than it. *)
Lemma strict_selection (s all : list string) x :
  NoDup s -> incl s all -> In x all -> ~ In x s ->
  (List.length s < List.length all)%nat.
Proof.
  intros Hn Hi Hx Hnx.
  destruct (Nat.ltb_spec (List.length s) (List.length all)) as [H|H]; [exact H|].
  exfalso. apply Hnx. exact (full_selection s all Hn Hi H x Hx).
Qed.

(** ** What [readFromUrl] leaves alone and what it overwrites *)

Section Readers.

Variable ps : URLSearchParams.t.

Lemma read_text_frame (f : Form -> string) k c w :
  (forall v E, f (set_control c v E) = f E) ->
  f (els (read_text k c ps w)) = f (els w).
Proof.
  intros H. unfold read_text. destruct (URLSearchParams.get ps k); [apply H | reflexivity].
Qed.

Lemma read_text_hit (f : Form -> string) k c w :
  (forall v E, f (set_control c v E) = v) ->
  f (els (read_text k c ps w))
  = match URLSearchParams.get ps k with Some v => v | None => f (els w) end.
Proof.
  intros H. unfold read_text. destruct (URLSearchParams.get ps k); [apply H | reflexivity].
Qed.

Lemma read_year_frame (f : Form -> string) w :
  (forall v E, f (set_control YearFrom v E) = f E) ->
  (forall v E, f (set_control YearTo v E) = f E) ->
  f (els (read_year ps w)) = f (els w).
Proof.
  intros H1 H2. unfold read_year. destruct (URLSearchParams.get ps "year") as [v|]; [|reflexivity].
  destruct (nth_error (JS.split "-" v) 1) as [p1|];
    destruct (nth_error (JS.split "-" v) 0) as [p0|];
    try destruct (JS.truthy p1); try destruct (JS.truthy p0);
    cbn [els with_control with_els]; rewrite ?H2, ?H1; reflexivity.
Qed.

Lemma read_year_from w :
  yearFrom (els (read_year ps w))
  = match URLSearchParams.get ps "year" with
    | Some v =>
        match JS.split "-" v with
        | p0 :: _ => if JS.truthy p0 then p0 else yearFrom (els w)
        | [] => yearFrom (els w)
        end
    | None => yearFrom (els w)
    end.
Proof.
  unfold read_year. destruct (URLSearchParams.get ps "year") as [v|]; [|reflexivity].
  destruct (JS.split "-" v) as [|p0 [|p1 t]]; cbn; [reflexivity|..].
  - destruct (JS.truthy p0); reflexivity.
  - destruct (JS.truthy p1), (JS.truthy p0); reflexivity.
Qed.

Lemma read_year_to w :
  yearTo (els (read_year ps w))
  = match URLSearchParams.get ps "year" with
    | Some v =>
        match JS.split "-" v with
        | _ :: p1 :: _ => if JS.truthy p1 then p1 else yearTo (els w)
        | _ => yearTo (els w)
        end
    | None => yearTo (els w)
    end.
Proof.
  unfold read_year. destruct (URLSearchParams.get ps "year") as [v|]; [|reflexivity].
  destruct (JS.split "-" v) as [|p0 [|p1 t]]; cbn; [reflexivity|..].
  - destruct (JS.truthy p0); reflexivity.
  - destruct (JS.truthy p1), (JS.truthy p0); reflexivity.
Qed.

(** Each reader keeps the record fields it does not assign. *)
Ltac reader_frame R :=
  intros; unfold R, read_text;
  repeat match goal with
         | |- context [match ?x with _ => _ end] => destruct x
         end; reflexivity.

Lemma read_text_state k c w : state (read_text k c ps w) = state w.
Proof. reader_frame read_text. Qed.
Lemma read_text_selJ k c w : selectedJournals (read_text k c ps w) = selectedJournals w.
Proof. reader_frame read_text. Qed.
Lemma read_text_selS k c w : selectedSubfields (read_text k c ps w) = selectedSubfields w.
Proof. reader_frame read_text. Qed.
Lemma read_text_allJ k c w : allJournals (read_text k c ps w) = allJournals w.
Proof. reader_frame read_text. Qed.
Lemma read_text_allS k c w : allSubfields (read_text k c ps w) = allSubfields w.
Proof. reader_frame read_text. Qed.

Lemma read_subfield_els w : els (read_subfield ps w) = els w.
Proof. reader_frame read_subfield. Qed.
Lemma read_subfield_state w : state (read_subfield ps w) = state w.
Proof. reader_frame read_subfield. Qed.
Lemma read_subfield_selJ w : selectedJournals (read_subfield ps w) = selectedJournals w.
Proof. reader_frame read_subfield. Qed.
Lemma read_subfield_allJ w : allJournals (read_subfield ps w) = allJournals w.
Proof. reader_frame read_subfield. Qed.
Lemma read_subfield_allS w : allSubfields (read_subfield ps w) = allSubfields w.
Proof. reader_frame read_subfield. Qed.

Lemma read_journals_els w : els (read_journals ps w) = els w.
Proof. reader_frame read_journals. Qed.
Lemma read_journals_state w : state (read_journals ps w) = state w.
Proof. reader_frame read_journals. Qed.
Lemma read_journals_selS w : selectedSubfields (read_journals ps w) = selectedSubfields w.
Proof. reader_frame read_journals. Qed.
Lemma read_journals_allJ w : allJournals (read_journals ps w) = allJournals w.
Proof. reader_frame read_journals. Qed.
Lemma read_journals_allS w : allSubfields (read_journals ps w) = allSubfields w.
Proof. reader_frame read_journals. Qed.

Lemma read_year_state w : state (read_year ps w) = state w.
Proof. reader_frame read_year. Qed.
Lemma read_year_selJ w : selectedJournals (read_year ps w) = selectedJournals w.
Proof. reader_frame read_year. Qed.
Lemma read_year_selS w : selectedSubfields (read_year ps w) = selectedSubfields w.
Proof. reader_frame read_year. Qed.
Lemma read_year_allJ w : allJournals (read_year ps w) = allJournals w.
Proof. reader_frame read_year. Qed.
Lemma read_year_allS w : allSubfields (read_year ps w) = allSubfields w.
Proof. reader_frame read_year. Qed.

Lemma read_sort_els w : els (read_sort ps w) = els w.
Proof. reader_frame read_sort. Qed.
Lemma read_sort_page w : page (state (read_sort ps w)) = page (state w).
Proof. reader_frame read_sort. Qed.
Lemma read_sort_selJ w : selectedJournals (read_sort ps w) = selectedJournals w.
Proof. reader_frame read_sort. Qed.
Lemma read_sort_selS w : selectedSubfields (read_sort ps w) = selectedSubfields w.
Proof. reader_frame read_sort. Qed.
Lemma read_sort_allJ w : allJournals (read_sort ps w) = allJournals w.
Proof. reader_frame read_sort. Qed.
Lemma read_sort_allS w : allSubfields (read_sort ps w) = allSubfields w.
Proof. reader_frame read_sort. Qed.

Lemma read_page_els w : els (read_page ps w) = els w.
Proof. reader_frame read_page. Qed.
Lemma read_page_sortKey w : sortKey (state (read_page ps w)) = sortKey (state w).
Proof. reader_frame read_page. Qed.
Lemma read_page_sortDir w : sortDir (state (read_page ps w)) = sortDir (state w).
Proof. reader_frame read_page. Qed.
Lemma read_page_selJ w : selectedJournals (read_page ps w) = selectedJournals w.
Proof. reader_frame read_page. Qed.
Lemma read_page_selS w : selectedSubfields (read_page ps w) = selectedSubfields w.
Proof. reader_frame read_page. Qed.
Lemma read_page_allJ w : allJournals (read_page ps w) = allJournals w.
Proof. reader_frame read_page. Qed.
Lemma read_page_allS w : allSubfields (read_page ps w) = allSubfields w.
Proof. reader_frame read_page. Qed.

End Readers.

Create Rewrite HintDb readers.

#[export] Hint Rewrite
  read_text_state read_text_selJ read_text_selS read_text_allJ read_text_allS
  read_subfield_els read_subfield_state read_subfield_selJ read_subfield_allJ
  read_subfield_allS
  read_journals_els read_journals_state read_journals_selS read_journals_allJ
  read_journals_allS
  read_year_state read_year_selJ read_year_selS read_year_allJ read_year_allS
  read_sort_els read_sort_page read_sort_selJ read_sort_selS read_sort_allJ read_sort_allS
  read_page_els read_page_sortKey read_page_sortDir read_page_selJ read_page_selS
  read_page_allJ read_page_allS : readers.

(** Skips the readers that do not assign the form field [f]. *)
Ltac strip_readers f :=
  unfold read_params; cbv zeta;
  repeat first
    [ rewrite read_page_els | rewrite read_sort_els
    | rewrite read_journals_els | rewrite read_subfield_els
    | rewrite (read_text_frame _ f) by reflexivity
    | rewrite (read_year_frame _ f) by reflexivity ].

Section Decoded.

Variables (ps : URLSearchParams.t) (w : World).

Lemma read_params_globalSearch :
  globalSearch (els (read_params ps w))
  = match URLSearchParams.get ps "q" with Some v => v | None => globalSearch (els w) end.
Proof.
  strip_readers globalSearch. rewrite (read_text_hit ps globalSearch) by reflexivity.
  strip_readers globalSearch. reflexivity.
Qed.

Lemma read_params_titleFilter :
  titleFilter (els (read_params ps w))
  = match URLSearchParams.get ps "title" with Some v => v | None => titleFilter (els w) end.
Proof.
  strip_readers titleFilter. rewrite (read_text_hit ps titleFilter) by reflexivity.
  strip_readers titleFilter. reflexivity.
Qed.

Lemma read_params_authorFilter :
  authorFilter (els (read_params ps w))
  = match URLSearchParams.get ps "author" with Some v => v | None => authorFilter (els w) end.
Proof.
  strip_readers authorFilter. rewrite (read_text_hit ps authorFilter) by reflexivity.
  strip_readers authorFilter. reflexivity.
Qed.

Lemma read_params_reviewerFilter :
  reviewerFilter (els (read_params ps w))
  = match URLSearchParams.get ps "reviewer" with
    | Some v => v | None => reviewerFilter (els w) end.
Proof.
  strip_readers reviewerFilter. rewrite (read_text_hit ps reviewerFilter) by reflexivity.
  strip_readers reviewerFilter. reflexivity.
Qed.

Lemma read_params_accessFilter :
  accessFilter (els (read_params ps w))
  = match URLSearchParams.get ps "access" with Some v => v | None => accessFilter (els w) end.
Proof.
  strip_readers accessFilter. rewrite (read_text_hit ps accessFilter) by reflexivity.
  strip_readers accessFilter. reflexivity.
Qed.

Lemma read_params_typeFilter :
  typeFilter (els (read_params ps w))
  = match URLSearchParams.get ps "type" with Some v => v | None => typeFilter (els w) end.
Proof.
  strip_readers typeFilter. rewrite (read_text_hit ps typeFilter) by reflexivity.
  strip_readers typeFilter. reflexivity.
Qed.

Lemma read_params_yearFrom :
  yearFrom (els (read_params ps w))
  = match URLSearchParams.get ps "year" with
    | Some v =>
        match JS.split "-" v with
        | p0 :: _ => if JS.truthy p0 then p0 else yearFrom (els w)
        | [] => yearFrom (els w)
        end
    | None => yearFrom (els w)
    end.
Proof.
  strip_readers yearFrom. rewrite read_year_from.
  autorewrite with readers. strip_readers yearFrom. reflexivity.
Qed.

Lemma read_params_yearTo :
  yearTo (els (read_params ps w))
  = match URLSearchParams.get ps "year" with
    | Some v =>
        match JS.split "-" v with
        | _ :: p1 :: _ => if JS.truthy p1 then p1 else yearTo (els w)
        | _ => yearTo (els w)
        end
    | None => yearTo (els w)
    end.
Proof.
  strip_readers yearTo. rewrite read_year_to.
  autorewrite with readers. strip_readers yearTo. reflexivity.
Qed.

Lemma read_params_allJournals : allJournals (read_params ps w) = allJournals w.
Proof. unfold read_params; cbv zeta. autorewrite with readers. reflexivity. Qed.

Lemma read_params_allSubfields : allSubfields (read_params ps w) = allSubfields w.
Proof. unfold read_params; cbv zeta. autorewrite with readers. reflexivity. Qed.

Lemma read_params_selectedSubfields :
  selectedSubfields (read_params ps w)
  = match URLSearchParams.get ps "subfield" with
    | Some v => restore_facet (allSubfields w) v
    | None => selectedSubfields w
    end.
Proof.
  unfold read_params; cbv zeta. autorewrite with readers.
  unfold read_subfield. destruct (URLSearchParams.get ps "subfield"); cbn;
    autorewrite with readers; reflexivity.
Qed.

Lemma read_params_selectedJournals :
  selectedJournals (read_params ps w)
  = match URLSearchParams.get ps "journals" with
    | Some v => restore_facet (allJournals w) v
    | None => selectedJournals w
    end.
Proof.
  unfold read_params; cbv zeta. autorewrite with readers.
  unfold read_journals. destruct (URLSearchParams.get ps "journals"); cbn;
    autorewrite with readers; reflexivity.
Qed.

Lemma read_params_sort :
  (sortKey (state (read_params ps w)), sortDir (state (read_params ps w)))
  = match URLSearchParams.get ps "sort" with
    | Some v =>
        match JS.split "-" v with
        | [k; d] => (k, d)
        | _ => (sortKey (state w), sortDir (state w))
        end
    | None => (sortKey (state w), sortDir (state w))
    end.
Proof.
  unfold read_params; cbv zeta. autorewrite with readers.
  unfold read_sort. destruct (URLSearchParams.get ps "sort") as [v|].
  - destruct (JS.split "-" v) as [|k [|d [|x t]]]; cbn; autorewrite with readers; reflexivity.
  - autorewrite with readers. reflexivity.
Qed.

Lemma read_params_page :
  page (state (read_params ps w))
  = match URLSearchParams.get ps "page" with
    | Some v => JS.num_or (JS.parseInt v) 1
    | None => page (state w)
    end.
Proof.
  unfold read_params; cbv zeta. unfold read_page.
  destruct (URLSearchParams.get ps "page"); [reflexivity|].
  autorewrite with readers. reflexivity.
Qed.

End Decoded.

(** ** Decoding what [syncToUrl] wrote *)

Lemma read_params_nil w : read_params [] w = w.
Proof. destruct w. reflexivity. Qed.

Lemma readFromUrl_toString ps w :
  hash w = URLSearchParams.toString ps -> readFromUrl w = read_params ps w.
Proof.
  intros H. unfold readFromUrl. rewrite H.
  destruct (URLSearchParams.toString ps) eqn:E.
  - apply toString_empty in E. subst ps. simpl. symmetry. apply read_params_nil.
  - cbn [JS.truthy negb]. rewrite <- E, parse_toString. reflexivity.
Qed.

Lemma trimmed_text_round_trip v :
  JS.trim (match (if JS.truthy (JS.trim v) then Some (JS.trim v) else None) with
           | Some x => x
           | None => EmptyString
           end) = JS.trim v.
Proof.
  destruct (JS.trim v) eqn:E; [reflexivity|].
  cbn [JS.truthy]. rewrite <- E. apply trim_idem.
Qed.

Lemma plain_text_round_trip v :
  match (if JS.truthy v then Some v else None) with
  | Some x => x
  | None => EmptyString
  end = v.
Proof. destruct v; reflexivity. Qed.

Lemma filter_included (sel all : list string) :
  incl sel all -> List.filter (fun c => existsb (String.eqb c) all) sel = sel.
Proof.
  intros H. apply forallb_filter_id, forallb_forall. intros x Hx.
  apply existsb_exists. exists x. split; [apply H, Hx | apply String.eqb_refl].
Qed.

Lemma restore_facet_join sel all :
  selection_of sel all -> comma_free sel -> sel <> [] ->
  restore_facet all (JS.join "," sel) = sel.
Proof.
  intros [Hn Hi] Hc Hne. unfold restore_facet.
  rewrite (split_join "," sel Hne Hc), (filter_included _ _ Hi).
  apply of_list_id, Hn.
Qed.

Lemma size_positive (sel : JSSet.t) : (JSSet.size sel >? 0) = false -> sel = [].
Proof.
  unfold JSSet.size. destruct sel; [reflexivity|]. simpl List.length.
  intros H. rewrite Z.gtb_ltb, Z.ltb_ge in H. lia.
Qed.

(** A facet decoded on a page whose selection is the default one. *)
Lemma facet_round_trip sel all :
  selection_of sel all -> comma_free sel -> (sel = [] -> all = []) ->
  same_set (match (if facet_written sel all then Some (JS.join "," sel) else None) with
            | Some v => restore_facet all v
            | None => JSSet.of_list all
            end) sel.
Proof.
  intros Hs Hc He. unfold facet_written.
  destruct (JSSet.size sel >? 0) eqn:Hpos.
  - destruct (JSSet.size sel <? Z.of_nat (List.length all)) eqn:Hlt; cbn [andb].
    + rewrite restore_facet_join; [intros x; tauto | assumption..|].
      intros ->. discriminate Hpos.
    + rewrite size_lt_length in Hlt. apply Nat.ltb_ge in Hlt.
      destruct Hs as [Hn Hi]. intros x. rewrite of_list_In. split.
      * apply (full_selection sel all Hn Hi Hlt).
      * apply Hi.
  - cbn [andb]. apply size_positive in Hpos. rewrite (He Hpos), Hpos.
    intros x. reflexivity.
Qed.

Lemma year_value_split y1 y2 :
  JS.contains_char "-" y1 = false -> JS.contains_char "-" y2 = false ->
  JS.split "-" (y1 ++ "-" ++ y2) = [y1; y2].
Proof.
  intros H1 H2. change (y1 ++ "-" ++ y2) with (y1 ++ String "-" y2).
  rewrite split_app_sep by exact H1. rewrite split_no_sep by exact H2. reflexivity.
Qed.

Lemma same_set_length (a b : list string) :
  NoDup a -> NoDup b -> same_set a b -> List.length a = List.length b.
Proof.
  intros Ha Hb H. apply Permutation_length, NoDup_Permutation; assumption.
Qed.

Lemma same_set_has a b v : same_set a b -> JSSet.has a v = JSSet.has b v.
Proof.
  intros H. destruct (JSSet.has b v) eqn:E.
  - apply has_In, H, has_In, E.
  - destruct (JSSet.has a v) eqn:E'; [|reflexivity].
    apply has_In, H, has_In in E'. congruence.
Qed.

Lemma same_set_has_opt a b v : same_set a b -> JSSet.has_opt a v = JSSet.has_opt b v.
Proof. intros H. destruct v; [apply same_set_has, H | reflexivity]. Qed.

(** Equivalent view states over the same facets filter every entry alike. *)
Lemma view_equiv_passes w1 w2 r :
  view_equiv w1 w2 ->
  allJournals w1 = allJournals w2 -> allSubfields w1 = allSubfields w2 ->
  NoDup (selectedJournals w1) -> NoDup (selectedJournals w2) ->
  NoDup (selectedSubfields w1) -> NoDup (selectedSubfields w2) ->
  entry_passes w1 r = entry_passes w2 r.
Proof.
  intros [] HJ HS NJ1 NJ2 NS1 NS2. unfold entry_passes, filterByJournal, filterBySubfield.
  rewrite !size_lt_length.
  rewrite (same_set_length _ _ NJ1 NJ2 ve_journals0), (same_set_length _ _ NS1 NS2 ve_subfields0).
  rewrite (same_set_has _ _ (journal r) ve_journals0).
  rewrite (same_set_has_opt _ _ (subfield r) ve_subfields0).
  rewrite (same_set_has_opt _ _ (subfield2 r) ve_subfields0).
  rewrite (normalise_trim _ _ ve_q0), (normalise_trim _ _ ve_title0).
  rewrite (normalise_trim _ _ ve_author0), (normalise_trim _ _ ve_reviewer0).
  rewrite ve_yearFrom0, ve_yearTo0, ve_access0, ve_type0, HJ, HS.
  reflexivity.
Qed.

Section RoundTrip.

Variable localeCompare : string -> string -> Z.

Lemma fresh_allJournals reviews boxes h :
  allJournals (fresh localeCompare reviews boxes h)
  = allJournals (fresh localeCompare reviews boxes "").
Proof. reflexivity. Qed.

(** C1 (amended): URL round trip.  Take a view state whose facet selections
    are duplicate-free subsets of the full value lists, are empty only when
    the facet has no value at all, and hold no name with a comma; whose year
    bounds, sort key and sort direction hold no dash; and whose page is at
    least 1.  Serialising it with [syncToUrl] and decoding the fragment with
    [readFromUrl] on a freshly loaded page of the same dataset gives an
    equivalent filter, sort and page state (text filters up to surrounding
    white space, selections as sets), and the two states filter every entry
    alike.  The expanded row is not part of the comparison. *)
Theorem C1_url_round_trip (reviews : list Entry) (boxes : list string) (w : World) :
  allJournals w = allJournals (fresh localeCompare reviews boxes "") ->
  allSubfields w = boxes ->
  shareable w ->
  let w' := readFromUrl (fresh localeCompare reviews boxes (hash (syncToUrl w))) in
  view_equiv w' w /\ (forall r, entry_passes w' r = entry_passes w r).
Proof.
  intros HJ HS Hsh w'.
  set (W0 := fresh localeCompare reviews boxes (hash (syncToUrl w))) in *.
  assert (E : w' = read_params (url_params w) W0)
    by (apply readFromUrl_toString; reflexivity).
  assert (EJ : allJournals W0 = allJournals w) by (symmetry; exact HJ).
  assert (ES : allSubfields W0 = allSubfields w) by (symmetry; exact HS).
  assert (DJ : selectedJournals W0 = JSSet.of_list (allJournals w))
    by (rewrite <- EJ; reflexivity).
  assert (DS : selectedSubfields W0 = JSSet.of_list (allSubfields w))
    by (rewrite <- ES; reflexivity).
  destruct Hsh.
  assert (Hsort : (sortKey (state w'), sortDir (state w'))
                  = (sortKey (state w), sortDir (state w))).
  { rewrite E, read_params_sort, url_get_sort.
    destruct (negb (String.eqb (sortKey (state w)) "date"
                    && String.eqb (sortDir (state w)) "desc")) eqn:T.
    - rewrite year_value_split by assumption. reflexivity.
    - apply negb_false_iff, andb_true_iff in T as [Tk Td].
      apply String.eqb_eq in Tk, Td. rewrite Tk, Td. reflexivity. }
  assert (Hve : view_equiv w' w).
  { rewrite E. constructor.
    - rewrite read_params_globalSearch, url_get_q. apply trimmed_text_round_trip.
    - rewrite read_params_titleFilter, url_get_title. apply trimmed_text_round_trip.
    - rewrite read_params_authorFilter, url_get_author. apply trimmed_text_round_trip.
    - rewrite read_params_reviewerFilter, url_get_reviewer. apply trimmed_text_round_trip.
    - rewrite read_params_yearFrom, url_get_year.
      destruct (JS.truthy (yearFrom (els w)) || JS.truthy (yearTo (els w))) eqn:T.
      + rewrite year_value_split by assumption.
        destruct (yearFrom (els w)); reflexivity.
      + apply orb_false_iff in T as [T _].
        destruct (yearFrom (els w)); [reflexivity | discriminate T].
    - rewrite read_params_yearTo, url_get_year.
      destruct (JS.truthy (yearFrom (els w)) || JS.truthy (yearTo (els w))) eqn:T.
      + rewrite year_value_split by assumption.
        destruct (yearTo (els w)); reflexivity.
      + apply orb_false_iff in T as [_ T].
        destruct (yearTo (els w)); [reflexivity | discriminate T].
    - rewrite read_params_accessFilter, url_get_access. apply plain_text_round_trip.
    - rewrite read_params_typeFilter, url_get_type. apply plain_text_round_trip.
    - rewrite read_params_selectedJournals, url_get_journals, EJ, DJ.
      apply facet_round_trip; assumption.
    - rewrite read_params_selectedSubfields, url_get_subfield, ES, DS.
      apply facet_round_trip; assumption.
    - injection Hsort as Hk _. rewrite <- E. exact Hk.
    - injection Hsort as _ Hd. rewrite <- E. exact Hd.
    - rewrite read_params_page, url_get_page.
      destruct (page (state w) >? 1) eqn:Hp.
      + rewrite parseInt_string_of_Z. unfold JS.num_or.
        destruct (Z.eqb_spec (page (state w)) 0); [lia | reflexivity].
      + rewrite Z.gtb_ltb, Z.ltb_ge in Hp. change (page (state W0)) with 1. lia. }
  split; [exact Hve|].
  intros r. apply view_equiv_passes; try assumption.
  - rewrite E, read_params_allJournals. exact EJ.
  - rewrite E, read_params_allSubfields. exact ES.
  - rewrite E, read_params_selectedJournals.
    destruct (URLSearchParams.get (url_params w) "journals");
      [apply of_list_NoDup | rewrite DJ; apply of_list_NoDup].
  - apply sh_journals0.
  - rewrite E, read_params_selectedSubfields.
    destruct (URLSearchParams.get (url_params w) "subfield");
      [apply of_list_NoDup | rewrite DS; apply of_list_NoDup].
  - apply sh_subfields0.
Qed.

End RoundTrip.

Ltac concrete_nodup := vm_compute; repeat constructor; cbn; intuition discriminate.

Ltac concrete_incl :=
  let x := fresh "x" in
  let H := fresh "H" in
  vm_compute; intros x H;
  repeat (destruct H as [H|H]; [subst x; tauto|]); contradiction.

Lemma demo_w_shareable : shareable demo_w.
Proof.
  constructor.
  - split; [concrete_nodup | concrete_incl].
  - split; [concrete_nodup | concrete_incl].
  - vm_compute. discriminate.
  - vm_compute. discriminate.
  - vm_compute. repeat constructor.
  - vm_compute. repeat constructor.
  - vm_compute. reflexivity.
  - vm_compute. reflexivity.
  - vm_compute. reflexivity.
  - vm_compute. reflexivity.
  - vm_compute. discriminate.
Defined.

Lemma C1_url_round_trip_witness :
  hash (syncToUrl demo_w) = "q=Mind&journals=Mind&year=2009-&sort=title-asc&page=2"
  /\ shareable demo_w
  /\ view_equiv
       (readFromUrl (fresh codepoint_compare sample_reviews sample_boxes
                           (hash (syncToUrl demo_w))))
       demo_w.
Proof.
  split; [vm_compute; reflexivity|]. split; [exact demo_w_shareable|].
  refine (proj1 (C1_url_round_trip codepoint_compare sample_reviews sample_boxes demo_w
                   _ _ demo_w_shareable)); vm_compute; reflexivity.
Defined.

(** C1 as stated fails: with every journal unchecked the selection is the
    empty subset, [syncToUrl] writes no [journals] key, and decoding the
    fragment on a fresh page selects every journal again: the encoded state
    shows no entry, the decoded one shows them all. *)
Lemma C1_counterexample :
  let w := demo_none in
  let w' := readFromUrl (fresh codepoint_compare sample_reviews sample_boxes
                               (hash (syncToUrl w))) in
  selection_of (selectedJournals w) (allJournals w)
  /\ selection_of (selectedSubfields w) (allSubfields w)
  /\ selectedJournals w = [] /\ selectedJournals w' = ["Ethics"; "Mind"]
  /\ hash (syncToUrl w) = ""
  /\ ~ view_equiv w' w
  /\ List.filter (entry_passes w) sample_reviews = []
  /\ List.filter (entry_passes w') sample_reviews = sample_reviews.
Proof.
  cbv zeta.
  split; [split; [concrete_nodup | concrete_incl]|].
  split; [split; [concrete_nodup | concrete_incl]|].
  split; [vm_compute; reflexivity|].
  split; [vm_compute; reflexivity|].
  split; [vm_compute; reflexivity|].
  split.
  - intros [_ _ _ _ _ _ _ _ HJ _ _ _ _].
    assert (H : In "Mind" (selectedJournals demo_none)).
    { apply (proj1 (HJ "Mind")). vm_compute. auto. }
    vm_compute in H. exact H.
  - split; vm_compute; reflexivity.
Qed.

(** ** The year clause *)

Lemma year_bound_parseInt v : year_bound v = JS.parseInt v.
Proof. destruct v; reflexivity. Qed.

Lemma num_truthy_spec b :
  JS.num_truthy b = true <-> exists n, b = Some n /\ n <> 0.
Proof.
  destruct b as [n|]; simpl.
  - rewrite negb_true_iff, Z.eqb_neq. split.
    + intros H. exists n. auto.
    + intros (m & E & H). injection E as ->. exact H.
  - split; [discriminate | intros (m & E & _); discriminate].
Qed.

Lemma num_truthy_effect v :
  JS.num_truthy (year_bound v) = true <-> exists n, bound_in_effect v n.
Proof. rewrite num_truthy_spec, year_bound_parseInt. reflexivity. Qed.

Lemma effect_some n (P : Z -> Prop) :
  (forall a, Some n = Some a /\ a <> 0 -> P a) <-> (n <> 0 -> P n).
Proof.
  split.
  - intros H Hn. apply H. auto.
  - intros H a [E Ha]. injection E as <-. auto.
Qed.

Lemma effect_none (P : Z -> Prop) :
  (forall a, @None Z = Some a /\ a <> 0 -> P a) <-> True.
Proof. split; [trivial | intros _ a [E _]; discriminate E]. Qed.

Lemma year_passes_spec fy1 fy2 r :
  match entry_year r with
  | None =>
      year_passes fy1 fy2 r = true <->
      (forall a, ~ (fy1 = Some a /\ a <> 0)) /\ (forall b, ~ (fy2 = Some b /\ b <> 0))
  | Some y =>
      year_passes fy1 fy2 r = true <->
      (forall a, fy1 = Some a /\ a <> 0 -> a <= y)
      /\ (forall b, fy2 = Some b /\ b <> 0 -> y <= b)
  end.
Proof.
  unfold year_passes.
  destruct (entry_year r) as [y|]; destruct fy1 as [a|], fy2 as [b|];
    unfold not; rewrite ?effect_some, ?effect_none;
    cbn [JS.num_truthy bound_val orb];
    try destruct (Z.eqb_spec a 0) as [Ea|Ea]; try destruct (Z.eqb_spec b 0) as [Eb|Eb];
    cbn [negb orb andb];
    try destruct (Z.ltb_spec y a) as [La|La]; try destruct (Z.gtb_spec y b) as [Lb|Lb];
    cbn [negb orb andb];
    (split; [intros Hp; try discriminate Hp; split; try trivial; intros; lia
            | intros [H1 H2]; try reflexivity; exfalso;
              first [ specialize (H1 Ea); lia | specialize (H2 Eb); lia
                    | exact (H1 Ea) | exact (H2 Eb) ] ]).
Qed.

(** The entry only passes [applyFilters] when its year clause holds. *)
Lemma entry_passes_year w r : entry_passes w r = true -> year_clause w r = true.
Proof.
  unfold entry_passes, year_clause.
  repeat match goal with
         | |- (if ?c then false else _) = true -> _ => destruct c; [discriminate|]
         end.
  exact (fun H => H).
Qed.

(** C3 (amended): the year filter.  The entry's year is [parseInt] of the
    first four characters of its date (of the empty string when the date is
    missing).  A year control is in effect when its value parses to a
    non-zero integer; an empty, non-numeric or zero value is no bound.  An
    entry whose year does not parse passes the year clause exactly when no
    bound is in effect; an entry with year [y] passes it exactly when [y] is
    at least the lower bound in effect and at most the upper bound in effect.
    An entry that fails the year clause is not in the filtered result. *)
Theorem C3_year_filter (w : World) (r : Entry) :
  entry_year r = JS.parseInt (JS.substring0 4 (JS.or_empty (date r)))
  /\ (entry_passes w r = true -> year_clause w r = true)
  /\ match entry_year r with
     | None =>
         year_clause w r = true <->
         (forall a, ~ bound_in_effect (yearFrom (els w)) a)
         /\ (forall b, ~ bound_in_effect (yearTo (els w)) b)
     | Some y =>
         year_clause w r = true <->
         (forall a, bound_in_effect (yearFrom (els w)) a -> a <= y)
         /\ (forall b, bound_in_effect (yearTo (els w)) b -> y <= b)
     end.
Proof.
  split; [reflexivity|]. split; [apply entry_passes_year|].
  unfold year_clause. rewrite !year_bound_parseInt. apply year_passes_spec.
Qed.

Lemma C3_year_filter_witness :
  map title (filtered demo_years) = ["Untitled Notes"]
  /\ entry_passes demo_years sample_2010 = true
  /\ year_clause demo_years sample_2010 = true.
Proof.
  split; [vm_compute; reflexivity|].
  assert (H : entry_passes demo_years sample_2010 = true) by (vm_compute; reflexivity).
  split; [exact H|].
  exact (proj1 (proj2 (C3_year_filter demo_years sample_2010)) H).
Defined.

(** C3 as stated fails: with 0 typed as the upper bound the bound is set,
    yet the entry dated 2012 passes the year filter although 2012 > 0. *)
Lemma C3_counterexample :
  yearTo (els demo_year_zero) = "0"
  /\ JS.truthy (yearTo (els demo_year_zero)) = true
  /\ JS.parseInt (yearTo (els demo_year_zero)) = Some 0
  /\ entry_year sample_2012 = Some 2012
  /\ year_clause demo_year_zero sample_2012 = true
  /\ In sample_2012 (filtered demo_year_zero)
  /\ ~ (2012 <= 0).
Proof.
  repeat (split; [vm_compute; reflexivity|]).
  split; [vm_compute; auto | lia].
Qed.

(** ** Sorting keeps the entries *)

Lemma insert_by_perm {A} (cmp : A -> A -> Z) x l :
  Permutation (insert_by cmp x l) (x :: l).
Proof.
  induction l as [|y t IH]; simpl; [reflexivity|].
  destruct (cmp x y <=? 0); [reflexivity|].
  rewrite IH. apply perm_swap.
Qed.

Lemma sort_by_perm {A} (cmp : A -> A -> Z) l : Permutation (sort_by cmp l) l.
Proof.
  induction l as [|x t IH]; simpl; [reflexivity|].
  rewrite insert_by_perm, IH. reflexivity.
Qed.

Lemma sort_by_length {A} (cmp : A -> A -> Z) l :
  List.length (sort_by cmp l) = List.length l.
Proof. apply Permutation_length, sort_by_perm. Qed.

Lemma sort_by_In {A} (cmp : A -> A -> Z) l x : In x (sort_by cmp l) <-> In x l.
Proof.
  split; apply Permutation_in; [|symmetry]; apply sort_by_perm.
Qed.

(** What [update] leaves in [filtered]: the passing entries, sorted. *)
Lemma filtered_update cmp w :
  filtered (update cmp w)
  = sort_by (compare_entries cmp (sortKey (state w)) (sortDir (state w)))
            (List.filter (entry_passes w) (allReviews w)).
Proof. reflexivity. Qed.

Lemma In_filtered_update cmp w r :
  In r (filtered (update cmp w)) <-> In r (allReviews w) /\ entry_passes w r = true.
Proof. rewrite filtered_update, sort_by_In, filter_In. reflexivity. Qed.

(** ** Entries without a subfield under a partial subfield selection *)

(** C10: an entry with neither [subfield] nor [subfield2] is excluded as
    soon as the selected subfields are a strict subset of the full list,
    even when a single value [x] is missing from the selection. *)
Theorem C10_untagged_entry_excluded cmp (w : World) (r : Entry) (x : string) :
  subfield r = None -> subfield2 r = None ->
  selection_of (selectedSubfields w) (allSubfields w) ->
  In x (allSubfields w) -> ~ In x (selectedSubfields w) ->
  entry_passes w r = false
  /\ ~ In r (filtered (applyFilters w))
  /\ ~ In r (filtered (update cmp w)).
Proof.
  intros H1 H2 [Hn Hi] Hx Hnx.
  assert (Hf : filterBySubfield w = true).
  { unfold filterBySubfield. rewrite size_lt_length. apply Nat.ltb_lt.
    exact (strict_selection _ _ x Hn Hi Hx Hnx). }
  assert (Hp : entry_passes w r = false).
  { unfold entry_passes. rewrite Hf, H1, H2. cbn [JSSet.has_opt negb andb].
    repeat match goal with
           | |- (if ?c then false else _) = false => destruct c; [reflexivity|]
           end.
    reflexivity. }
  split; [exact Hp|]. split.
  - unfold applyFilters. cbn [filtered with_filtered]. rewrite filter_In.
    intros [_ H]. congruence.
  - rewrite In_filtered_update. intros [_ H]. congruence.
Qed.

Lemma C10_untagged_entry_excluded_witness :
  selectedSubfields demo_subfields = ["ethics"; "political"]
  /\ allSubfields demo_subfields = ["ethics"; "political"; "history"]
  /\ entry_passes demo_subfields sample_2010 = false
  /\ map title (filtered demo_subfields) = ["Leviathan Revisited"; "On Virtue"].
Proof.
  split; [vm_compute; reflexivity|]. split; [vm_compute; reflexivity|].
  split; [|vm_compute; reflexivity].
  refine (proj1 (C10_untagged_entry_excluded codepoint_compare demo_subfields sample_2010
                   "history" eq_refl eq_refl _ _ _)).
  - split; [concrete_nodup | concrete_incl].
  - vm_compute. auto.
  - vm_compute. intuition discriminate.
Defined.

(** ** Field updates and projections *)

Section Fields.

Variable w : World.
Lemma allReviews_with_state v : allReviews (with_state v w) = allReviews w.
Proof. reflexivity. Qed.
Lemma filtered_with_state v : filtered (with_state v w) = filtered w.
Proof. reflexivity. Qed.
Lemma allJournals_with_state v : allJournals (with_state v w) = allJournals w.
Proof. reflexivity. Qed.
Lemma selectedJournals_with_state v : selectedJournals (with_state v w) = selectedJournals w.
Proof. reflexivity. Qed.
Lemma allSubfields_with_state v : allSubfields (with_state v w) = allSubfields w.
Proof. reflexivity. Qed.
Lemma selectedSubfields_with_state v : selectedSubfields (with_state v w) = selectedSubfields w.
Proof. reflexivity. Qed.
Lemma state_with_state v : state (with_state v w) = v.
Proof. reflexivity. Qed.
Lemma els_with_state v : els (with_state v w) = els w.
Proof. reflexivity. Qed.
Lemma hash_with_state v : hash (with_state v w) = hash w.
Proof. reflexivity. Qed.
Lemma rows_with_state v : rows (with_state v w) = rows w.
Proof. reflexivity. Qed.
Lemma pagination_with_state v : pagination (with_state v w) = pagination w.
Proof. reflexivity. Qed.
Lemma totalPages_with_state v : totalPages (with_state v w) = totalPages w.
Proof. reflexivity. Qed.
Lemma allReviews_with_els v : allReviews (with_els v w) = allReviews w.
Proof. reflexivity. Qed.
Lemma filtered_with_els v : filtered (with_els v w) = filtered w.
Proof. reflexivity. Qed.
Lemma allJournals_with_els v : allJournals (with_els v w) = allJournals w.
Proof. reflexivity. Qed.
Lemma selectedJournals_with_els v : selectedJournals (with_els v w) = selectedJournals w.
Proof. reflexivity. Qed.
Lemma allSubfields_with_els v : allSubfields (with_els v w) = allSubfields w.
Proof. reflexivity. Qed.
Lemma selectedSubfields_with_els v : selectedSubfields (with_els v w) = selectedSubfields w.
Proof. reflexivity. Qed.
Lemma state_with_els v : state (with_els v w) = state w.
Proof. reflexivity. Qed.
Lemma els_with_els v : els (with_els v w) = v.
Proof. reflexivity. Qed.
Lemma hash_with_els v : hash (with_els v w) = hash w.
Proof. reflexivity. Qed.
Lemma rows_with_els v : rows (with_els v w) = rows w.
Proof. reflexivity. Qed.
Lemma pagination_with_els v : pagination (with_els v w) = pagination w.
Proof. reflexivity. Qed.
Lemma totalPages_with_els v : totalPages (with_els v w) = totalPages w.
Proof. reflexivity. Qed.
Lemma allReviews_with_selectedJournals v : allReviews (with_selectedJournals v w) = allReviews w.
Proof. reflexivity. Qed.
Lemma filtered_with_selectedJournals v : filtered (with_selectedJournals v w) = filtered w.
Proof. reflexivity. Qed.
Lemma allJournals_with_selectedJournals v : allJournals (with_selectedJournals v w) = allJournals w.
Proof. reflexivity. Qed.
Lemma selectedJournals_with_selectedJournals v : selectedJournals (with_selectedJournals v w) = v.
Proof. reflexivity. Qed.
Lemma allSubfields_with_selectedJournals v : allSubfields (with_selectedJournals v w) = allSubfields w.
Proof. reflexivity. Qed.
Lemma selectedSubfields_with_selectedJournals v : selectedSubfields (with_selectedJournals v w) = selectedSubfields w.
Proof. reflexivity. Qed.
Lemma state_with_selectedJournals v : state (with_selectedJournals v w) = state w.
Proof. reflexivity. Qed.
Lemma els_with_selectedJournals v : els (with_selectedJournals v w) = els w.
Proof. reflexivity. Qed.
Lemma hash_with_selectedJournals v : hash (with_selectedJournals v w) = hash w.
Proof. reflexivity. Qed.
Lemma rows_with_selectedJournals v : rows (with_selectedJournals v w) = rows w.
Proof. reflexivity. Qed.
Lemma pagination_with_selectedJournals v : pagination (with_selectedJournals v w) = pagination w.
Proof. reflexivity. Qed.
Lemma totalPages_with_selectedJournals v : totalPages (with_selectedJournals v w) = totalPages w.
Proof. reflexivity. Qed.
Lemma allReviews_with_selectedSubfields v : allReviews (with_selectedSubfields v w) = allReviews w.
Proof. reflexivity. Qed.
Lemma filtered_with_selectedSubfields v : filtered (with_selectedSubfields v w) = filtered w.
Proof. reflexivity. Qed.
Lemma allJournals_with_selectedSubfields v : allJournals (with_selectedSubfields v w) = allJournals w.
Proof. reflexivity. Qed.
Lemma selectedJournals_with_selectedSubfields v : selectedJournals (with_selectedSubfields v w) = selectedJournals w.
Proof. reflexivity. Qed.
Lemma allSubfields_with_selectedSubfields v : allSubfields (with_selectedSubfields v w) = allSubfields w.
Proof. reflexivity. Qed.
Lemma selectedSubfields_with_selectedSubfields v : selectedSubfields (with_selectedSubfields v w) = v.
Proof. reflexivity. Qed.
Lemma state_with_selectedSubfields v : state (with_selectedSubfields v w) = state w.
Proof. reflexivity. Qed.
Lemma els_with_selectedSubfields v : els (with_selectedSubfields v w) = els w.
Proof. reflexivity. Qed.
Lemma hash_with_selectedSubfields v : hash (with_selectedSubfields v w) = hash w.
Proof. reflexivity. Qed.
Lemma rows_with_selectedSubfields v : rows (with_selectedSubfields v w) = rows w.
Proof. reflexivity. Qed.
Lemma pagination_with_selectedSubfields v : pagination (with_selectedSubfields v w) = pagination w.
Proof. reflexivity. Qed.
Lemma totalPages_with_selectedSubfields v : totalPages (with_selectedSubfields v w) = totalPages w.
Proof. reflexivity. Qed.
Lemma allReviews_with_filtered v : allReviews (with_filtered v w) = allReviews w.
Proof. reflexivity. Qed.
Lemma filtered_with_filtered v : filtered (with_filtered v w) = v.
Proof. reflexivity. Qed.
Lemma allJournals_with_filtered v : allJournals (with_filtered v w) = allJournals w.
Proof. reflexivity. Qed.
Lemma selectedJournals_with_filtered v : selectedJournals (with_filtered v w) = selectedJournals w.
Proof. reflexivity. Qed.
Lemma allSubfields_with_filtered v : allSubfields (with_filtered v w) = allSubfields w.
Proof. reflexivity. Qed.
Lemma selectedSubfields_with_filtered v : selectedSubfields (with_filtered v w) = selectedSubfields w.
Proof. reflexivity. Qed.
Lemma state_with_filtered v : state (with_filtered v w) = state w.
Proof. reflexivity. Qed.
Lemma els_with_filtered v : els (with_filtered v w) = els w.
Proof. reflexivity. Qed.
Lemma hash_with_filtered v : hash (with_filtered v w) = hash w.
Proof. reflexivity. Qed.
Lemma rows_with_filtered v : rows (with_filtered v w) = rows w.
Proof. reflexivity. Qed.
Lemma pagination_with_filtered v : pagination (with_filtered v w) = pagination w.
Proof. reflexivity. Qed.
Lemma totalPages_with_filtered v : totalPages (with_filtered v w) = totalPages w.
Proof. reflexivity. Qed.
Lemma allReviews_with_hash v : allReviews (with_hash v w) = allReviews w.
Proof. reflexivity. Qed.
Lemma filtered_with_hash v : filtered (with_hash v w) = filtered w.
Proof. reflexivity. Qed.
Lemma allJournals_with_hash v : allJournals (with_hash v w) = allJournals w.
Proof. reflexivity. Qed.
Lemma selectedJournals_with_hash v : selectedJournals (with_hash v w) = selectedJournals w.
Proof. reflexivity. Qed.
Lemma allSubfields_with_hash v : allSubfields (with_hash v w) = allSubfields w.
Proof. reflexivity. Qed.
Lemma selectedSubfields_with_hash v : selectedSubfields (with_hash v w) = selectedSubfields w.
Proof. reflexivity. Qed.
Lemma state_with_hash v : state (with_hash v w) = state w.
Proof. reflexivity. Qed.
Lemma els_with_hash v : els (with_hash v w) = els w.
Proof. reflexivity. Qed.
Lemma hash_with_hash v : hash (with_hash v w) = v.
Proof. reflexivity. Qed.
Lemma rows_with_hash v : rows (with_hash v w) = rows w.
Proof. reflexivity. Qed.
Lemma pagination_with_hash v : pagination (with_hash v w) = pagination w.
Proof. reflexivity. Qed.
Lemma totalPages_with_hash v : totalPages (with_hash v w) = totalPages w.
Proof. reflexivity. Qed.

End Fields.

Section StateFields.

Variable s : State.
Lemma page_set_page v : page (set_page v s) = v.
Proof. reflexivity. Qed.
Lemma perPage_set_page v : perPage (set_page v s) = perPage s.
Proof. reflexivity. Qed.
Lemma sortKey_set_page v : sortKey (set_page v s) = sortKey s.
Proof. reflexivity. Qed.
Lemma sortDir_set_page v : sortDir (set_page v s) = sortDir s.
Proof. reflexivity. Qed.
Lemma expandedIdx_set_page v : expandedIdx (set_page v s) = expandedIdx s.
Proof. reflexivity. Qed.
Lemma page_set_perPage v : page (set_perPage v s) = page s.
Proof. reflexivity. Qed.
Lemma perPage_set_perPage v : perPage (set_perPage v s) = v.
Proof. reflexivity. Qed.
Lemma sortKey_set_perPage v : sortKey (set_perPage v s) = sortKey s.
Proof. reflexivity. Qed.
Lemma sortDir_set_perPage v : sortDir (set_perPage v s) = sortDir s.
Proof. reflexivity. Qed.
Lemma expandedIdx_set_perPage v : expandedIdx (set_perPage v s) = expandedIdx s.
Proof. reflexivity. Qed.
Lemma page_set_expandedIdx v : page (set_expandedIdx v s) = page s.
Proof. reflexivity. Qed.
Lemma perPage_set_expandedIdx v : perPage (set_expandedIdx v s) = perPage s.
Proof. reflexivity. Qed.
Lemma sortKey_set_expandedIdx v : sortKey (set_expandedIdx v s) = sortKey s.
Proof. reflexivity. Qed.
Lemma sortDir_set_expandedIdx v : sortDir (set_expandedIdx v s) = sortDir s.
Proof. reflexivity. Qed.
Lemma expandedIdx_set_expandedIdx v : expandedIdx (set_expandedIdx v s) = v.
Proof. reflexivity. Qed.
Lemma page_set_sort k d : page (set_sort k d s) = page s.
Proof. reflexivity. Qed.
Lemma perPage_set_sort k d : perPage (set_sort k d s) = perPage s.
Proof. reflexivity. Qed.
Lemma sortKey_set_sort k d : sortKey (set_sort k d s) = k.
Proof. reflexivity. Qed.
Lemma sortDir_set_sort k d : sortDir (set_sort k d s) = d.
Proof. reflexivity. Qed.
Lemma expandedIdx_set_sort k d : expandedIdx (set_sort k d s) = expandedIdx s.
Proof. reflexivity. Qed.

End StateFields.

(** The defining equations of the operations, for rewriting. *)

Lemma with_page_eq n w : with_page n w = with_state (set_page n (state w)) w.
Proof. reflexivity. Qed.

Lemma with_control_eq c v w : with_control c v w = with_els (set_control c v (els w)) w.
Proof. reflexivity. Qed.

Lemma syncToUrl_eq w :
  syncToUrl w = with_hash (URLSearchParams.toString (url_params w)) w.
Proof. reflexivity. Qed.

Lemma applyFilters_eq w :
  applyFilters w = with_filtered (List.filter (entry_passes w) (allReviews w)) w.
Proof. reflexivity. Qed.

Lemma applySort_eq cmp w :
  applySort cmp w
  = with_filtered
      (sort_by (compare_entries cmp (sortKey (state w)) (sortDir (state w))) (filtered w)) w.
Proof. reflexivity. Qed.

Lemma update_eq cmp w : update cmp w = render cmp (applyFilters w).
Proof. reflexivity. Qed.

Lemma refilter_eq cmp w : refilter cmp w = syncToUrl (update cmp (with_page 1 w)).
Proof. reflexivity. Qed.

Lemma clearFilters_eq cmp w : clearFilters cmp w = update cmp (reset_filters w).
Proof. reflexivity. Qed.

Section ResetFields.

Variable w : World.

Lemma reset_allReviews : allReviews (reset_filters w) = allReviews w.
Proof. reflexivity. Qed.
Lemma reset_filtered : filtered (reset_filters w) = filtered w.
Proof. reflexivity. Qed.
Lemma reset_allJournals : allJournals (reset_filters w) = allJournals w.
Proof. reflexivity. Qed.
Lemma reset_selectedJournals :
  selectedJournals (reset_filters w) = JSSet.of_list (allJournals w).
Proof. reflexivity. Qed.
Lemma reset_allSubfields : allSubfields (reset_filters w) = allSubfields w.
Proof. reflexivity. Qed.
Lemma reset_selectedSubfields :
  selectedSubfields (reset_filters w) = JSSet.of_list (allSubfields w).
Proof. reflexivity. Qed.
Lemma reset_els : els (reset_filters w) = empty_form.
Proof. reflexivity. Qed.
Lemma reset_hash : hash (reset_filters w) = hash w.
Proof. reflexivity. Qed.
Lemma reset_rows : rows (reset_filters w) = rows w.
Proof. reflexivity. Qed.
Lemma reset_pagination : pagination (reset_filters w) = pagination w.
Proof. reflexivity. Qed.
Lemma reset_totalPages : totalPages (reset_filters w) = totalPages w.
Proof. reflexivity. Qed.
Lemma reset_page : page (state (reset_filters w)) = 1.
Proof. reflexivity. Qed.
Lemma reset_perPage : perPage (state (reset_filters w)) = perPage (state w).
Proof. reflexivity. Qed.
Lemma reset_sortKey : sortKey (state (reset_filters w)) = sortKey (state w).
Proof. reflexivity. Qed.
Lemma reset_sortDir : sortDir (state (reset_filters w)) = sortDir (state w).
Proof. reflexivity. Qed.
Lemma reset_expandedIdx : expandedIdx (state (reset_filters w)) = None.
Proof. reflexivity. Qed.

End ResetFields.

Section RenderFields.

Variables (cmp : string -> string -> Z) (w : World).

Lemma render_allReviews : allReviews (render cmp w) = allReviews w.
Proof. reflexivity. Qed.
Lemma render_filtered :
  filtered (render cmp w)
  = sort_by (compare_entries cmp (sortKey (state w)) (sortDir (state w))) (filtered w).
Proof. reflexivity. Qed.
Lemma render_allJournals : allJournals (render cmp w) = allJournals w.
Proof. reflexivity. Qed.
Lemma render_selectedJournals : selectedJournals (render cmp w) = selectedJournals w.
Proof. reflexivity. Qed.
Lemma render_allSubfields : allSubfields (render cmp w) = allSubfields w.
Proof. reflexivity. Qed.
Lemma render_selectedSubfields : selectedSubfields (render cmp w) = selectedSubfields w.
Proof. reflexivity. Qed.
Lemma render_els : els (render cmp w) = els w.
Proof. reflexivity. Qed.
Lemma render_hash : hash (render cmp w) = hash w.
Proof. reflexivity. Qed.

Lemma render_totalPages :
  totalPages (render cmp w)
  = Z.max 1 (ceil_div (Z.of_nat (List.length (filtered w))) (perPage (state w))).
Proof.
  change (totalPages (render cmp w))
    with (Z.max 1 (ceil_div (Z.of_nat (List.length
            (sort_by (compare_entries cmp (sortKey (state w)) (sortDir (state w)))
                     (filtered w))))
            (perPage (state w)))).
  rewrite sort_by_length. reflexivity.
Qed.

Lemma render_state :
  state (render cmp w)
  = if page (state w) >? totalPages (render cmp w)
    then set_page (totalPages (render cmp w)) (state w) else state w.
Proof. reflexivity. Qed.

Lemma render_pagination :
  pagination (render cmp w)
  = renderPagination (totalPages (render cmp w)) (page (state (render cmp w))).
Proof. reflexivity. Qed.

Lemma render_sortKey : sortKey (state (render cmp w)) = sortKey (state w).
Proof. rewrite render_state. destruct (_ >? _); reflexivity. Qed.

Lemma render_sortDir : sortDir (state (render cmp w)) = sortDir (state w).
Proof. rewrite render_state. destruct (_ >? _); reflexivity. Qed.

Lemma render_perPage : perPage (state (render cmp w)) = perPage (state w).
Proof. rewrite render_state. destruct (_ >? _); reflexivity. Qed.

Lemma render_expandedIdx : expandedIdx (state (render cmp w)) = expandedIdx (state w).
Proof. rewrite render_state. destruct (_ >? _); reflexivity. Qed.

Lemma render_page :
  page (state (render cmp w)) = Z.min (page (state w)) (totalPages (render cmp w)).
Proof.
  rewrite render_state.
  destruct (Z.gtb_spec (page (state w)) (totalPages (render cmp w)));
    [rewrite page_set_page|]; lia.
Qed.

End RenderFields.

Create Rewrite HintDb world.

#[export] Hint Rewrite
  allReviews_with_state filtered_with_state allJournals_with_state
  selectedJournals_with_state allSubfields_with_state selectedSubfields_with_state
  state_with_state els_with_state hash_with_state rows_with_state pagination_with_state
  totalPages_with_state allReviews_with_els filtered_with_els allJournals_with_els
  selectedJournals_with_els allSubfields_with_els selectedSubfields_with_els
  state_with_els els_with_els hash_with_els rows_with_els pagination_with_els
  totalPages_with_els allReviews_with_selectedJournals filtered_with_selectedJournals
  allJournals_with_selectedJournals selectedJournals_with_selectedJournals
  allSubfields_with_selectedJournals selectedSubfields_with_selectedJournals
  state_with_selectedJournals els_with_selectedJournals hash_with_selectedJournals
  rows_with_selectedJournals pagination_with_selectedJournals
  totalPages_with_selectedJournals allReviews_with_selectedSubfields
  filtered_with_selectedSubfields allJournals_with_selectedSubfields
  selectedJournals_with_selectedSubfields allSubfields_with_selectedSubfields
  selectedSubfields_with_selectedSubfields state_with_selectedSubfields
  els_with_selectedSubfields hash_with_selectedSubfields rows_with_selectedSubfields
  pagination_with_selectedSubfields totalPages_with_selectedSubfields
  allReviews_with_filtered filtered_with_filtered allJournals_with_filtered
  selectedJournals_with_filtered allSubfields_with_filtered
  selectedSubfields_with_filtered state_with_filtered els_with_filtered
  hash_with_filtered rows_with_filtered pagination_with_filtered
  totalPages_with_filtered allReviews_with_hash filtered_with_hash
  allJournals_with_hash selectedJournals_with_hash allSubfields_with_hash
  selectedSubfields_with_hash state_with_hash els_with_hash hash_with_hash
  rows_with_hash pagination_with_hash totalPages_with_hash page_set_page
  perPage_set_page sortKey_set_page sortDir_set_page expandedIdx_set_page
  page_set_perPage perPage_set_perPage sortKey_set_perPage sortDir_set_perPage
  expandedIdx_set_perPage page_set_expandedIdx perPage_set_expandedIdx
  sortKey_set_expandedIdx sortDir_set_expandedIdx expandedIdx_set_expandedIdx
  page_set_sort perPage_set_sort sortKey_set_sort sortDir_set_sort expandedIdx_set_sort
  with_page_eq with_control_eq syncToUrl_eq applyFilters_eq applySort_eq update_eq
  refilter_eq clearFilters_eq reset_allReviews reset_filtered reset_allJournals
  reset_selectedJournals reset_allSubfields reset_selectedSubfields reset_els
  reset_hash reset_rows reset_pagination reset_totalPages reset_page reset_perPage
  reset_sortKey reset_sortDir reset_expandedIdx render_allReviews render_filtered
  render_allJournals render_selectedJournals render_allSubfields
  render_selectedSubfields render_els render_hash render_sortKey render_sortDir
  render_perPage render_expandedIdx render_page render_totalPages : world.

(** The defining equation of each interaction. *)
Section StepEquations.

Variables (cmp : string -> string -> Z) (w : World).

Lemma step_ClearClick : step cmp ClearClick w = syncToUrl (clearFilters cmp w).
Proof. reflexivity. Qed.

Lemma step_PerPageChange n :
  step cmp (PerPageChange n) w
  = syncToUrl (render cmp (with_state (set_page 1 (set_perPage n (state w))) w)).
Proof. reflexivity. Qed.

Lemma step_ControlChange c v :
  step cmp (ControlChange c v) w = refilter cmp (with_control c v w).
Proof. reflexivity. Qed.

Lemma step_SubfieldSelectAll :
  step cmp SubfieldSelectAll w
  = refilter cmp (with_selectedSubfields (JSSet.of_list (allSubfields w)) w).
Proof. reflexivity. Qed.

Lemma step_SubfieldSelectNone :
  step cmp SubfieldSelectNone w = refilter cmp (with_selectedSubfields [] w).
Proof. reflexivity. Qed.

Lemma step_SubfieldCheckbox v checked :
  step cmp (SubfieldCheckbox v checked) w
  = refilter cmp (with_selectedSubfields
                    (if checked then JSSet.add (selectedSubfields w) v
                     else JSSet.delete (selectedSubfields w) v) w).
Proof. reflexivity. Qed.

Lemma step_JournalSelectAll :
  step cmp JournalSelectAll w
  = refilter cmp (with_selectedJournals (JSSet.of_list (allJournals w)) w).
Proof. reflexivity. Qed.

Lemma step_JournalSelectNone :
  step cmp JournalSelectNone w = refilter cmp (with_selectedJournals [] w).
Proof. reflexivity. Qed.

Lemma step_JournalCheckbox v checked :
  step cmp (JournalCheckbox v checked) w
  = refilter cmp (with_selectedJournals
                    (if checked then JSSet.add (selectedJournals w) v
                     else JSSet.delete (selectedJournals w) v) w).
Proof. reflexivity. Qed.

Lemma step_HeaderClick key :
  step cmp (HeaderClick key) w
  = syncToUrl (render cmp (with_page 1 (with_state (header_click key (state w)) w))).
Proof. reflexivity. Qed.

Lemma step_SourceCardClick j :
  step cmp (SourceCardClick j) w
  = refilter cmp
      (with_state
         (set_sort "date" "desc"
            (state (with_selectedJournals (JSSet.of_list [j]) (clearFilters cmp w))))
         (with_selectedJournals (JSSet.of_list [j]) (clearFilters cmp w))).
Proof. reflexivity. Qed.

Lemma step_BrowseRecentClick :
  step cmp BrowseRecentClick w
  = refilter cmp
      (with_state (set_sort "date" "desc" (state (clearFilters cmp w)))
         (clearFilters cmp w)).
Proof. reflexivity. Qed.

Lemma step_PopState h :
  step cmp (PopState h) w = update cmp (readFromUrl (with_hash h w)).
Proof. reflexivity. Qed.

Lemma step_RowClick idx :
  step cmp (RowClick idx) w = render cmp (with_state (row_click idx (state w)) w).
Proof. reflexivity. Qed.

Lemma step_NameLinkClick_journal value :
  step cmp (NameLinkClick "journal" value) w
  = refilter cmp
      (with_state
         (set_sort "date" "desc"
            (state (with_selectedJournals (JSSet.of_list [value]) (clearFilters cmp w))))
         (with_selectedJournals (JSSet.of_list [value]) (clearFilters cmp w))).
Proof. reflexivity. Qed.

Lemma step_NameLinkClick_other kind value :
  String.eqb kind "journal" = false ->
  step cmp (NameLinkClick kind value) w
  = refilter cmp
      (with_state
         (set_sort "date" "desc"
            (state (with_control GlobalSearch value (clearFilters cmp w))))
         (with_control GlobalSearch value (clearFilters cmp w))).
Proof.
  intros H. change (step cmp (NameLinkClick kind value) w)
    with (refilter cmp
            (with_state
               (set_sort "date" "desc"
                  (state (if String.eqb kind "journal"
                          then with_selectedJournals (JSSet.of_list [value])
                                 (clearFilters cmp w)
                          else with_control GlobalSearch value (clearFilters cmp w))))
               (if String.eqb kind "journal"
                then with_selectedJournals (JSSet.of_list [value]) (clearFilters cmp w)
                else with_control GlobalSearch value (clearFilters cmp w)))).
  rewrite H. reflexivity.
Qed.

Lemma step_PageButtonClick np :
  step cmp (PageButtonClick np) w
  = if (np >=? 1) && (np <=? totalPages w)
    then syncToUrl (render cmp (with_page np w)) else w.
Proof. reflexivity. Qed.

End StepEquations.

Ltac wnorm := repeat (progress autorewrite with world).

Ltac step_eq :=
  first [ rewrite step_ClearClick | rewrite step_PerPageChange | rewrite step_ControlChange
        | rewrite step_SubfieldSelectAll | rewrite step_SubfieldSelectNone
        | rewrite step_SubfieldCheckbox | rewrite step_JournalSelectAll
        | rewrite step_JournalSelectNone | rewrite step_JournalCheckbox
        | rewrite step_HeaderClick | rewrite step_SourceCardClick
        | rewrite step_BrowseRecentClick | rewrite step_PopState | rewrite step_RowClick
        | rewrite step_PageButtonClick ].

(** The filter only reads the form and the facet selections. *)
Lemma entry_passes_ext w1 w2 r :
  els w1 = els w2 ->
  allJournals w1 = allJournals w2 -> selectedJournals w1 = selectedJournals w2 ->
  allSubfields w1 = allSubfields w2 -> selectedSubfields w1 = selectedSubfields w2 ->
  entry_passes w1 r = entry_passes w2 r.
Proof.
  intros E1 E2 E3 E4 E5. unfold entry_passes, filterByJournal, filterBySubfield.
  rewrite E1, E2, E3, E4, E5. reflexivity.
Qed.

(** The URL only reads the form, the selections and the sort and page
    fields of the state. *)
Lemma url_params_ext w1 w2 :
  els w1 = els w2 ->
  allJournals w1 = allJournals w2 -> selectedJournals w1 = selectedJournals w2 ->
  allSubfields w1 = allSubfields w2 -> selectedSubfields w1 = selectedSubfields w2 ->
  sortKey (state w1) = sortKey (state w2) -> sortDir (state w1) = sortDir (state w2) ->
  page (state w1) = page (state w2) ->
  url_params w1 = url_params w2.
Proof.
  intros E1 E2 E3 E4 E5 E6 E7 E8. unfold url_params.
  rewrite E1, E2, E3, E4, E5, E6, E7, E8. reflexivity.
Qed.

Lemma filter_action_sort cmp a w :
  filter_action a = true ->
  sortKey (state (step cmp a w)) = sortKey (state w)
  /\ sortDir (state (step cmp a w)) = sortDir (state w).
Proof.
  destruct a; try discriminate; intros _; step_eq; wnorm; split; reflexivity.
Qed.

Section Sorting.

Variable localeCompare : string -> string -> Z.


Lemma sort_operand_text s : sort_operand (Text s) = Some (JS.toLowerCase s).
Proof. destruct s; reflexivity. Qed.

(** Off the inherited keys the comparator does not throw, and is the one
    the model sorts with. *)
Lemma comparator_total (key sdir : string) (a b : Entry) :
  inherited_key key = false ->
  comparator localeCompare key sdir a b
  = Some (compare_entries localeCompare key sdir a b).
Proof.
  intros H. unfold comparator, compare_entries, read_property. rewrite H. cbv zeta.
  destruct (prop a key) as [x|], (prop b key) as [y|];
    rewrite ?sort_operand_text; reflexivity.
Qed.

Lemma lower_char_spec (c : ascii) :
  JS.lower_char c
  = if (65 <=? Z.of_N (N_of_ascii c)) && (Z.of_N (N_of_ascii c) <=? 90)
    then ascii_of_N (N_of_ascii c + 32) else c.
Proof. reflexivity. Qed.

Lemma toLowerCase_get (s : string) (n : nat) :
  String.get n (JS.toLowerCase s) = option_map JS.lower_char (String.get n s).
Proof.
  revert n. induction s as [|c s IH]; intros n; [reflexivity|].
  destruct n as [|n]; [reflexivity|]. cbn [JS.toLowerCase String.get]. apply IH.
Qed.

Lemma toLowerCase_length (s : string) :
  String.length (JS.toLowerCase s) = String.length s.
Proof. induction s as [|c s IH]; [reflexivity|]. cbn. rewrite IH. reflexivity. Qed.


End Sorting.




(** ** The page window *)

Lemma zrange_nil lo hi : hi < lo -> zrange lo hi = [].
Proof.
  intros H. unfold zrange. replace (Z.to_nat (hi + 1 - lo)) with 0%nat by lia. reflexivity.
Qed.

Lemma zrange_cons lo hi : lo <= hi -> zrange lo hi = lo :: zrange (lo + 1) hi.
Proof.
  intros H. unfold zrange.
  replace (Z.to_nat (hi + 1 - lo)) with (S (Z.to_nat (hi + 1 - (lo + 1)))) by lia.
  cbn [seq map]. f_equal; [lia|].
  rewrite <- seq_shift, map_map. apply map_ext. intros k. lia.
Qed.

Lemma zrange_In lo hi n : In n (zrange lo hi) <-> lo <= n <= hi.
Proof.
  unfold zrange. rewrite in_map_iff. split.
  - intros (k & <- & Hk). apply in_seq in Hk. lia.
  - intros H. exists (Z.to_nat (n - lo)). split; [lia|]. apply in_seq. lia.
Qed.

(** The loop pushes exactly the numbers from [i] to [hi]. *)
Lemma push_range_zrange i hi : push_range i hi = map PageNum (zrange i hi).
Proof.
  funelim (push_range i hi).
  - rewrite zrange_cons by lia. cbn [map]. f_equal. assumption.
  - rewrite zrange_nil by lia. reflexivity.
Qed.

(** Nothing is rendered for a single page. *)
Lemma renderPagination_single T p : T <= 1 -> renderPagination T p = [].
Proof.
  intros H. unfold renderPagination.
  destruct (Z.leb_spec T 1); [reflexivity | lia].
Qed.

(** The array built when there are at least two pages. *)
Lemma renderPagination_shape T p :
  2 <= T ->
  renderPagination T p
  = ([PageNum 1]
     ++ (if p >? 3 then [Ellipsis] else [])
     ++ map PageNum (zrange (Z.max 2 (p - 1)) (Z.min (T - 1) (p + 1)))
     ++ (if p <? T - 2 then [Ellipsis] else [])
     ++ [PageNum T])%list.
Proof.
  intros H. unfold renderPagination.
  destruct (Z.leb_spec T 1); [lia|].
  destruct (Z.gtb_spec T 1); [|lia].
  rewrite push_range_zrange. reflexivity.
Qed.

Ltac window_cases T p :=
  let Hp := fresh "Hp" in
  let Ht := fresh "Ht" in
  assert (Hp : p = 1 \/ p = 2 \/ p = 3 \/ 4 <= p) by lia;
  assert (Ht : T = p \/ T = p + 1 \/ T = p + 2 \/ p + 3 <= T) by lia;
  destruct Hp as [Hp|[Hp|[Hp|Hp]]]; destruct Ht as [Ht|[Ht|[Ht|Ht]]];
  try (exfalso; lia);
  destruct (Z.gtb_spec p 3); try (exfalso; lia);
  destruct (Z.ltb_spec p (T - 2)); try (exfalso; lia);
  destruct (Z.max_spec 2 (p - 1)) as [[? ->]|[? ->]]; try (exfalso; lia);
  destruct (Z.min_spec (T - 1) (p + 1)) as [[? ->]|[? ->]]; try (exfalso; lia);
  repeat first [ rewrite zrange_nil by lia | rewrite zrange_cons by lia ];
  cbn [map app].

Lemma window_gapped T p :
  2 <= T -> 1 <= p <= T -> gapped (renderPagination T p) = true.
Proof.
  intros HT Hp. rewrite renderPagination_shape by exact HT.
  window_cases T p; cbn [gapped];
    repeat (apply andb_true_intro; split);
    first [ reflexivity | apply Z.eqb_eq; lia | apply Z.ltb_lt; lia ].
Qed.

Lemma window_members T p n :
  2 <= T ->
  In (PageNum n) (renderPagination T p)
  <-> n = 1 \/ n = T \/ (p - 1 <= n <= p + 1 /\ 2 <= n <= T - 1).
Proof.
  intros HT. rewrite renderPagination_shape by exact HT.
  rewrite !in_app_iff, in_map_iff. cbn [In].
  assert (HE : forall b : bool, In (PageNum n) (if b then [Ellipsis] else []) <-> False).
  { intros []; cbn; intuition discriminate. }
  rewrite !HE. split.
  - intros [[H|[]]|[[]|[(m & E & Hm)|[[]|[H|[]]]]]].
    + injection H as <-. auto.
    + injection E as ->. apply zrange_In in Hm. right. right. lia.
    + injection H as <-. auto.
  - intros [->|[->|H]]; [auto | tauto |].
    right. right. left. exists n. split; [reflexivity | apply zrange_In; lia].
Qed.

(** C7 (amended): the page window.  With at least two pages and the
    current page within range, the rendered window is: page 1; an ellipsis
    or nothing; the numbers of [currentPage-1, currentPage+1] that lie in
    [2, totalPages-1], in order; an ellipsis or nothing; page [totalPages].
    A number is shown exactly when it is 1, [totalPages], or in that
    intersection, and an ellipsis stands exactly between two shown numbers
    that are not consecutive.  (With a single page nothing is rendered.) *)
Theorem C7_page_window (T p : Z) :
  2 <= T -> 1 <= p <= T ->
  let l := renderPagination T p in
  (exists before after,
      l = ([PageNum 1] ++ before
           ++ map PageNum (zrange (Z.max 2 (p - 1)) (Z.min (T - 1) (p + 1)))
           ++ after ++ [PageNum T])%list
      /\ (before = [] \/ before = [Ellipsis])
      /\ (after = [] \/ after = [Ellipsis]))
  /\ (forall n, In (PageNum n) l
                <-> n = 1 \/ n = T \/ (p - 1 <= n <= p + 1 /\ 2 <= n <= T - 1))
  /\ gapped l = true.
Proof.
  intros HT Hp l. subst l. split; [|split].
  - rewrite renderPagination_shape by exact HT.
    exists (if p >? 3 then [Ellipsis] else []), (if p <? T - 2 then [Ellipsis] else []).
    split; [reflexivity|].
    split; [destruct (p >? 3) | destruct (p <? T - 2)]; auto.
  - intros n. apply window_members, HT.
  - apply window_gapped; assumption.
Qed.

Lemma C7_page_window_witness :
  renderPagination 10 5
  = [PageNum 1; Ellipsis; PageNum 4; PageNum 5; PageNum 6; Ellipsis; PageNum 10]
  /\ gapped (renderPagination 10 5) = true
  /\ (In (PageNum 4) (renderPagination 10 5)
      <-> 4 = 1 \/ 4 = 10 \/ (5 - 1 <= 4 <= 5 + 1 /\ 2 <= 4 <= 10 - 1)).
Proof.
  split; [vm_compute; reflexivity|].
  assert (H1 : 2 <= 10) by lia. assert (H2 : 1 <= 5 <= 10) by lia.
  split.
  - exact (proj2 (proj2 (C7_page_window 10 5 H1 H2))).
  - exact (proj1 (proj2 (C7_page_window 10 5 H1 H2)) 4).
Defined.

(** C7 as stated fails for a single page: page 1 is within range, yet the
    control is left empty and page 1 is not shown. *)
Lemma C7_counterexample :
  1 <= 1 <= 1 /\ renderPagination 1 1 = [] /\ ~ In (PageNum 1) (renderPagination 1 1).
Proof.
  split; [lia|]. split; [reflexivity|]. intros H. vm_compute in H. exact H.
Qed.

(** ** The expanded row and the URL *)

#[export] Hint Rewrite render_pagination : world.

Lemma sbe_refl w : same_but_expansion w w.
Proof. constructor; reflexivity. Qed.

Lemma sbe_passes w1 w2 :
  same_but_expansion w1 w2 -> forall r, entry_passes w1 r = entry_passes w2 r.
Proof. intros [] r. apply entry_passes_ext; assumption. Qed.

Lemma sbe_url_params w1 w2 :
  same_but_expansion w1 w2 -> url_params w1 = url_params w2.
Proof. intros []. apply url_params_ext; assumption. Qed.

Ltac sbe_fields H :=
  destruct H as [HaR Hf HaJ HsJ HaS HsS Hpg Hpp Hsk Hsd Hel Hh Hpn Htp];
  constructor; wnorm; try congruence.

Lemma sbe_with_state s1 s2 w1 w2 :
  page s1 = page s2 -> perPage s1 = perPage s2 ->
  sortKey s1 = sortKey s2 -> sortDir s1 = sortDir s2 ->
  same_but_expansion w1 w2 ->
  same_but_expansion (with_state s1 w1) (with_state s2 w2).
Proof. intros E1 E2 E3 E4 H. sbe_fields H. Qed.

Lemma sbe_with_page n w1 w2 :
  same_but_expansion w1 w2 -> same_but_expansion (with_page n w1) (with_page n w2).
Proof. intros H. sbe_fields H. Qed.

Lemma sbe_with_els f1 f2 w1 w2 :
  f1 = f2 -> same_but_expansion w1 w2 ->
  same_but_expansion (with_els f1 w1) (with_els f2 w2).
Proof. intros E H. sbe_fields H. Qed.

Lemma sbe_with_control c v w1 w2 :
  same_but_expansion w1 w2 ->
  same_but_expansion (with_control c v w1) (with_control c v w2).
Proof. intros H. sbe_fields H. Qed.

Lemma sbe_with_selectedJournals s1 s2 w1 w2 :
  s1 = s2 -> same_but_expansion w1 w2 ->
  same_but_expansion (with_selectedJournals s1 w1) (with_selectedJournals s2 w2).
Proof. intros E H. sbe_fields H. Qed.

Lemma sbe_with_selectedSubfields s1 s2 w1 w2 :
  s1 = s2 -> same_but_expansion w1 w2 ->
  same_but_expansion (with_selectedSubfields s1 w1) (with_selectedSubfields s2 w2).
Proof. intros E H. sbe_fields H. Qed.

Lemma sbe_with_hash h w1 w2 :
  same_but_expansion w1 w2 -> same_but_expansion (with_hash h w1) (with_hash h w2).
Proof. intros H. sbe_fields H. Qed.

Lemma sbe_applyFilters w1 w2 :
  same_but_expansion w1 w2 ->
  same_but_expansion (applyFilters w1) (applyFilters w2).
Proof.
  intros H. pose proof (sbe_passes _ _ H) as Hp. sbe_fields H.
  rewrite HaR. apply filter_ext, Hp.
Qed.

Lemma sbe_render cmp w1 w2 :
  same_but_expansion w1 w2 ->
  same_but_expansion (render cmp w1) (render cmp w2).
Proof. intros H. sbe_fields H. Qed.

Lemma sbe_syncToUrl w1 w2 :
  same_but_expansion w1 w2 -> same_but_expansion (syncToUrl w1) (syncToUrl w2).
Proof.
  intros H. pose proof (sbe_url_params _ _ H) as Hu. sbe_fields H.
Qed.

Lemma sbe_update cmp w1 w2 :
  same_but_expansion w1 w2 ->
  same_but_expansion (update cmp w1) (update cmp w2).
Proof. intros H. rewrite !update_eq. apply sbe_render, sbe_applyFilters, H. Qed.

Lemma sbe_refilter cmp w1 w2 :
  same_but_expansion w1 w2 ->
  same_but_expansion (refilter cmp w1) (refilter cmp w2).
Proof.
  intros H. rewrite !refilter_eq. apply sbe_syncToUrl, sbe_update, sbe_with_page, H.
Qed.

Lemma sbe_reset_filters w1 w2 :
  same_but_expansion w1 w2 ->
  same_but_expansion (reset_filters w1) (reset_filters w2).
Proof. intros H. sbe_fields H. Qed.

Lemma sbe_clearFilters cmp w1 w2 :
  same_but_expansion w1 w2 ->
  same_but_expansion (clearFilters cmp w1) (clearFilters cmp w2).
Proof. intros H. rewrite !clearFilters_eq. apply sbe_update, sbe_reset_filters, H. Qed.

Lemma readFromUrl_read_params w :
  readFromUrl w = read_params (URLSearchParams.parse (hash w)) w.
Proof.
  unfold readFromUrl. destruct (hash w); [|reflexivity].
  cbn [JS.truthy negb]. symmetry. apply read_params_nil.
Qed.

Section ReaderCongruence.

Variables (ps : URLSearchParams.t) (w1 w2 : World).
Hypothesis H : same_but_expansion w1 w2.

Lemma sbe_read_text k c :
  same_but_expansion (read_text k c ps w1) (read_text k c ps w2).
Proof.
  unfold read_text. destruct (URLSearchParams.get ps k); [apply sbe_with_control|]; exact H.
Qed.

Lemma sbe_read_subfield :
  same_but_expansion (read_subfield ps w1) (read_subfield ps w2).
Proof.
  unfold read_subfield. destruct (URLSearchParams.get ps "subfield"); [|exact H].
  apply sbe_with_selectedSubfields; [|exact H]. rewrite (sbe_allSubfields _ _ H). reflexivity.
Qed.

Lemma sbe_read_journals :
  same_but_expansion (read_journals ps w1) (read_journals ps w2).
Proof.
  unfold read_journals. destruct (URLSearchParams.get ps "journals"); [|exact H].
  apply sbe_with_selectedJournals; [|exact H]. rewrite (sbe_allJournals _ _ H). reflexivity.
Qed.

Lemma sbe_read_year : same_but_expansion (read_year ps w1) (read_year ps w2).
Proof.
  unfold read_year. destruct (URLSearchParams.get ps "year") as [v|]; [|exact H].
  destruct (nth_error (JS.split "-" v) 1) as [p1|];
    destruct (nth_error (JS.split "-" v) 0) as [p0|];
    try destruct (JS.truthy p1); try destruct (JS.truthy p0);
    repeat apply sbe_with_control; exact H.
Qed.

Lemma sbe_read_sort : same_but_expansion (read_sort ps w1) (read_sort ps w2).
Proof.
  unfold read_sort. destruct (URLSearchParams.get ps "sort") as [v|]; [|exact H].
  destruct (JS.split "-" v) as [|k [|d [|x t]]]; try exact H.
  apply sbe_with_state; wnorm; try reflexivity; try exact H.
  - apply (sbe_page _ _ H).
  - apply (sbe_perPage _ _ H).
Qed.

Lemma sbe_read_page : same_but_expansion (read_page ps w1) (read_page ps w2).
Proof.
  unfold read_page. destruct (URLSearchParams.get ps "page"); [|exact H].
  apply sbe_with_page, H.
Qed.

End ReaderCongruence.

Lemma sbe_read_params ps w1 w2 :
  same_but_expansion w1 w2 ->
  same_but_expansion (read_params ps w1) (read_params ps w2).
Proof.
  intros H. unfold read_params. cbv zeta.
  apply sbe_read_page, sbe_read_sort, sbe_read_text, sbe_read_text, sbe_read_year,
    sbe_read_journals, sbe_read_subfield, sbe_read_text, sbe_read_text, sbe_read_text,
    sbe_read_text, H.
Qed.

Lemma sbe_readFromUrl w1 w2 :
  same_but_expansion w1 w2 ->
  same_but_expansion (readFromUrl w1) (readFromUrl w2).
Proof.
  intros H. rewrite !readFromUrl_read_params, (sbe_hash _ _ H).
  apply sbe_read_params, H.
Qed.

Lemma sbe_header_click key w1 w2 :
  same_but_expansion w1 w2 ->
  same_but_expansion (with_state (header_click key (state w1)) w1)
                     (with_state (header_click key (state w2)) w2).
Proof.
  intros H. apply sbe_with_state; try exact H; unfold header_click;
    rewrite (sbe_sortKey _ _ H), (sbe_sortDir _ _ H);
    destruct (String.eqb (sortKey (state w2)) key); wnorm;
    first [ reflexivity | apply (sbe_page _ _ H) | apply (sbe_perPage _ _ H) ].
Qed.

Lemma sbe_row_click idx1 idx2 w1 w2 :
  same_but_expansion w1 w2 ->
  same_but_expansion (with_state (row_click idx1 (state w1)) w1)
                     (with_state (row_click idx2 (state w2)) w2).
Proof.
  intros H. apply sbe_with_state; try exact H; unfold row_click; wnorm; apply H.
Qed.

Lemma sbe_date_desc w1 w2 :
  same_but_expansion w1 w2 ->
  same_but_expansion (with_state (set_sort "date" "desc" (state w1)) w1)
                     (with_state (set_sort "date" "desc" (state w2)) w2).
Proof.
  intros H. apply sbe_with_state; try exact H; wnorm; first [reflexivity | apply H].
Qed.

(** Every interaction maps worlds that differ only in the expanded row to
    worlds that differ only in the expanded row. *)
Lemma sbe_step cmp a w1 w2 :
  same_but_expansion w1 w2 ->
  same_but_expansion (step cmp a w1) (step cmp a w2).
Proof.
  intros H. destruct a as [|n|c v| | |v b| | |v b|key|j| |h|idx|kind value|np].
  - rewrite !step_ClearClick. apply sbe_syncToUrl, sbe_clearFilters, H.
  - rewrite !step_PerPageChange. apply sbe_syncToUrl, sbe_render, sbe_with_state;
      wnorm; first [reflexivity | apply H | exact H].
  - rewrite !step_ControlChange. apply sbe_refilter, sbe_with_control, H.
  - rewrite !step_SubfieldSelectAll, (sbe_allSubfields _ _ H).
    apply sbe_refilter, sbe_with_selectedSubfields; [reflexivity | exact H].
  - rewrite !step_SubfieldSelectNone.
    apply sbe_refilter, sbe_with_selectedSubfields; [reflexivity | exact H].
  - rewrite !step_SubfieldCheckbox, (sbe_selectedSubfields _ _ H).
    apply sbe_refilter, sbe_with_selectedSubfields; [reflexivity | exact H].
  - rewrite !step_JournalSelectAll, (sbe_allJournals _ _ H).
    apply sbe_refilter, sbe_with_selectedJournals; [reflexivity | exact H].
  - rewrite !step_JournalSelectNone.
    apply sbe_refilter, sbe_with_selectedJournals; [reflexivity | exact H].
  - rewrite !step_JournalCheckbox, (sbe_selectedJournals _ _ H).
    apply sbe_refilter, sbe_with_selectedJournals; [reflexivity | exact H].
  - rewrite !step_HeaderClick.
    apply sbe_syncToUrl, sbe_render, sbe_with_page, sbe_header_click, H.
  - rewrite !step_SourceCardClick.
    apply sbe_refilter, sbe_date_desc, sbe_with_selectedJournals;
      [reflexivity | apply sbe_clearFilters, H].
  - rewrite !step_BrowseRecentClick.
    apply sbe_refilter, sbe_date_desc, sbe_clearFilters, H.
  - rewrite !step_PopState. apply sbe_update, sbe_readFromUrl, sbe_with_hash, H.
  - rewrite !step_RowClick. apply sbe_render, sbe_row_click, H.
  - destruct (String.eqb_spec kind "journal") as [->|Hk].
    + rewrite !step_NameLinkClick_journal.
      apply sbe_refilter, sbe_date_desc, sbe_with_selectedJournals;
        [reflexivity | apply sbe_clearFilters, H].
    + apply String.eqb_neq in Hk. rewrite !step_NameLinkClick_other by exact Hk.
      apply sbe_refilter, sbe_date_desc, sbe_with_control, sbe_clearFilters, H.
  - rewrite !step_PageButtonClick, (sbe_totalPages _ _ H).
    destruct ((np >=? 1) && (np <=? totalPages w2)); [|exact H].
    apply sbe_syncToUrl, sbe_render, sbe_with_page, H.
Qed.

Lemma sbe_set_expandedIdx e w :
  same_but_expansion (with_state (set_expandedIdx e (state w)) w) w.
Proof. constructor; wnorm; reflexivity. Qed.

Lemma refilter_expandedIdx cmp w :
  expandedIdx (state (refilter cmp w)) = expandedIdx (state w).
Proof. wnorm. reflexivity. Qed.

Lemma clearFilters_expandedIdx cmp w : expandedIdx (state (clearFilters cmp w)) = None.
Proof. wnorm. reflexivity. Qed.

Section Expansion.

Variable localeCompare : string -> string -> Z.

(** C9: expansion state stays out of the URL.  Clicking a row leaves the
    fragment as it is; the parameters [syncToUrl] writes do not depend on
    the expanded index, and neither does the fragment left by any
    interaction; [clearFilters], the clear button, a name link and a
    journal card all leave no row expanded. *)
Theorem C9_expansion_transient (w : World) :
  (forall idx, hash (step localeCompare (RowClick idx) w) = hash w)
  /\ (forall e, url_params (with_state (set_expandedIdx e (state w)) w) = url_params w)
  /\ (forall a e,
        hash (step localeCompare a (with_state (set_expandedIdx e (state w)) w))
        = hash (step localeCompare a w))
  /\ expandedIdx (state (clearFilters localeCompare w)) = None
  /\ expandedIdx (state (step localeCompare ClearClick w)) = None
  /\ (forall kind value,
        expandedIdx (state (step localeCompare (NameLinkClick kind value) w)) = None)
  /\ (forall j, expandedIdx (state (step localeCompare (SourceCardClick j) w)) = None).
Proof.
  split; [|split; [|split; [|split; [|split; [|split]]]]].
  - intros idx. rewrite step_RowClick. wnorm. reflexivity.
  - intros e. apply sbe_url_params, sbe_set_expandedIdx.
  - intros a e. apply sbe_hash, sbe_step, sbe_set_expandedIdx.
  - apply clearFilters_expandedIdx.
  - rewrite step_ClearClick. wnorm. reflexivity.
  - intros kind value. destruct (String.eqb_spec kind "journal") as [->|Hk].
    + rewrite step_NameLinkClick_journal. wnorm. reflexivity.
    + apply String.eqb_neq in Hk. rewrite step_NameLinkClick_other by exact Hk.
      wnorm. reflexivity.
  - intros j. rewrite step_SourceCardClick. wnorm. reflexivity.
Qed.

End Expansion.

(** ** Pagination arithmetic *)

(** [ceil_div c s] is the least number of pages of size [s] that hold [c]
    entries. *)
Lemma ceil_div_spec c s :
  0 < s -> (ceil_div c s - 1) * s < c <= ceil_div c s * s.
Proof.
  intros Hs. unfold ceil_div.
  pose proof (Z.div_mod (c + s - 1) s ltac:(lia)) as Hd.
  pose proof (Z.mod_pos_bound (c + s - 1) s Hs) as Hm. nia.
Qed.

Lemma render_page_le cmp w :
  page (state (render cmp w)) <= totalPages (render cmp w).
Proof. rewrite render_page. lia. Qed.

Lemma render_page_ge cmp w :
  1 <= page (state w) -> 1 <= page (state (render cmp w)).
Proof. intros H. rewrite render_page, render_totalPages. lia. Qed.

(** [render] computes the page count and clamps the page from above; a
    page that was at least 1 ends up within [1, totalPages]. *)
Lemma render_pagination_invariant cmp w :
  1 <= page (state w) ->
  totalPages (render cmp w)
  = Z.max 1 (ceil_div (Z.of_nat (List.length (filtered (render cmp w))))
                      (perPage (state (render cmp w))))
  /\ 1 <= page (state (render cmp w)) <= totalPages (render cmp w).
Proof.
  intros H. split.
  - rewrite render_totalPages, render_filtered, render_perPage, sort_by_length. reflexivity.
  - split; [apply render_page_ge, H | apply render_page_le].
Qed.

(** Only decoding a fragment can take the page below 1: every other
    interaction keeps a page that is at least 1 at least 1. *)
Lemma step_page_ge cmp a w :
  (forall h, a <> PopState h) ->
  1 <= page (state w) -> 1 <= page (state (step cmp a w)).
Proof.
  intros Ha H. destruct a as [|n|c v| | |v b| | |v b|key|j| |h|idx|kind value|np];
    try (step_eq; wnorm; lia).
  - exfalso. apply (Ha h). reflexivity.
  - rewrite step_RowClick. wnorm. unfold row_click. wnorm. lia.
  - destruct (String.eqb_spec kind "journal") as [->|Hk].
    + rewrite step_NameLinkClick_journal. wnorm. lia.
    + apply String.eqb_neq in Hk. rewrite step_NameLinkClick_other by exact Hk.
      wnorm. lia.
  - rewrite step_PageButtonClick.
    destruct (Z.geb_spec np 1); cbn [andb]; [|exact H].
    destruct (np <=? totalPages w); [|exact H]. wnorm. lia.
Qed.

(** C2: the page stays within [1, totalPages] after every render.  The
    code breaks this for a fragment with a negative page: [readFromUrl]
    only replaces NaN and 0 by 1, and [render] only clamps from above, so
    on the sample page opened with [#page=-3] the page count is
    [max(1, ceil(3/25)) = 1] while the current page stays -3 and no row is
    shown. *)
Theorem C2_negative_page_survives :
  reachable codepoint_compare sample_reviews sample_boxes demo_negative
  /\ Z.of_nat (List.length (filtered demo_negative)) = 3
  /\ perPage (state demo_negative) = 25
  /\ totalPages demo_negative = Z.max 1 (ceil_div 3 25)
  /\ page (state demo_negative) = -3
  /\ ~ (1 <= page (state demo_negative) <= totalPages demo_negative)
  /\ rows demo_negative = [].
Proof.
  split; [apply reach_init|].
  repeat (split; [vm_compute; reflexivity|]).
  split; [|vm_compute; reflexivity].
  assert (E : page (state demo_negative) = -3) by (vm_compute; reflexivity).
  rewrite E. lia.
Qed.

(** ** Decoding tolerates what it does not know *)

Section ReaderExt.

Variables (ps ps' : URLSearchParams.t).
Hypothesis agree :
  forall k, In k recognized_keys -> URLSearchParams.get ps' k = URLSearchParams.get ps k.

Ltac known := unfold recognized_keys; cbn [In]; tauto.

Lemma read_text_ext k c w :
  In k recognized_keys -> read_text k c ps' w = read_text k c ps w.
Proof. intros Hk. unfold read_text. rewrite (agree k Hk). reflexivity. Qed.

Lemma read_subfield_ext w : read_subfield ps' w = read_subfield ps w.
Proof. unfold read_subfield. rewrite (agree "subfield") by known. reflexivity. Qed.

Lemma read_journals_ext w : read_journals ps' w = read_journals ps w.
Proof. unfold read_journals. rewrite (agree "journals") by known. reflexivity. Qed.

Lemma read_year_ext w : read_year ps' w = read_year ps w.
Proof. unfold read_year. rewrite (agree "year") by known. reflexivity. Qed.

Lemma read_sort_ext w : read_sort ps' w = read_sort ps w.
Proof. unfold read_sort. rewrite (agree "sort") by known. reflexivity. Qed.

Lemma read_page_ext w : read_page ps' w = read_page ps w.
Proof. unfold read_page. rewrite (agree "page") by known. reflexivity. Qed.

(** Parameter lists that agree on the recognised keys decode alike. *)
Lemma read_params_ext w : read_params ps' w = read_params ps w.
Proof.
  unfold read_params. cbv zeta.
  rewrite read_page_ext, read_sort_ext, read_year_ext, read_journals_ext,
    read_subfield_ext.
  rewrite !read_text_ext by known. reflexivity.
Qed.

End ReaderExt.

Lemma restore_facet_In all v x :
  In x (restore_facet all v) <-> In x (JS.split "," v) /\ In x all.
Proof.
  unfold restore_facet. rewrite of_list_In, filter_In, existsb_exists.
  split.
  - intros [H (y & Hy & E)]. apply String.eqb_eq in E. subst y. auto.
  - intros [H1 H2]. split; [exact H1|]. exists x. split; [exact H2 | apply String.eqb_refl].
Qed.

(** C8: the sort key of a fragment is not validated.  The fragment
    [#sort=constructor-asc] has exactly two dash-joined tokens, so
    [readFromUrl] writes ["constructor"] to [state.sortKey] in place of the
    default ["date"].  No entry has a field of that name; the property is
    inherited from [Object.prototype], all three sample entries pass the
    filter, and the comparator [update] then sorts them with throws on
    every pair of entries.  The page value is not checked for being an
    integer either: [#page=2.5] is no decimal form of an integer and decodes
    to page 2, not to the default 1. *)
Theorem C8_unvalidated_sort_key :
  hash (fresh codepoint_compare sample_reviews sample_boxes "sort=constructor-asc")
  = "sort=constructor-asc"
  /\ JS.split "-" "constructor-asc" = ["constructor"; "asc"]
  /\ sortKey (state demo_inherited) = "constructor"
  /\ sortDir (state demo_inherited) = "asc"
  /\ sortKey initial_state = "date"
  /\ (forall r, prop r (sortKey (state demo_inherited)) = None)
  /\ inherited_key (sortKey (state demo_inherited)) = true
  /\ List.filter (entry_passes demo_inherited) (allReviews demo_inherited) = sample_reviews
  /\ (forall lc a b,
        comparator lc (sortKey (state demo_inherited)) (sortDir (state demo_inherited)) a b
        = None)
  /\ (forall n, JS.string_of_Z n <> "2.5")
  /\ page (state demo_fraction) = 2
  /\ page initial_state = 1.
Proof.
  assert (E : sortKey (state demo_inherited) = "constructor") by (vm_compute; reflexivity).
  split; [reflexivity|]. split; [reflexivity|]. split; [exact E|].
  split; [vm_compute; reflexivity|]. split; [reflexivity|].
  split; [intros r; rewrite E; reflexivity|].
  split; [rewrite E; reflexivity|].
  split; [vm_compute; reflexivity|].
  split; [intros lc a b; rewrite E; reflexivity|].
  split.
  - intros n H. pose proof (parseInt_string_of_Z n) as P. rewrite H in P.
    vm_compute in P. injection P as <-. vm_compute in H. discriminate H.
  - split; vm_compute; reflexivity.
Qed.

(** X23: what [readFromUrl] does check.  It only looks up the recognised
    keys, so fragments that agree on them decode alike.  A facet value is
    split at commas and the names that are not in the facet's full list are
    dropped (what is left may be empty); without the key the selection is
    kept.  A sort value that does not split into exactly two dash-separated
    tokens, or no sort value, leaves sort key and direction as they were.
    A page value without a leading integer, or with the integer 0, gives
    page 1; without the key the page is kept. *)
Theorem decode_drops_unknown (w : World) :
  let ps := URLSearchParams.parse (hash w) in
  let w' := readFromUrl w in
  (forall ps', (forall k, In k recognized_keys ->
                          URLSearchParams.get ps' k = URLSearchParams.get ps k) ->
               read_params ps' w = w')
  /\ match URLSearchParams.get ps "journals" with
     | Some v => forall x, In x (selectedJournals w')
                           <-> In x (JS.split "," v) /\ In x (allJournals w)
     | None => selectedJournals w' = selectedJournals w
     end
  /\ match URLSearchParams.get ps "subfield" with
     | Some v => forall x, In x (selectedSubfields w')
                           <-> In x (JS.split "," v) /\ In x (allSubfields w)
     | None => selectedSubfields w' = selectedSubfields w
     end
  /\ match URLSearchParams.get ps "sort" with
     | Some v =>
         List.length (JS.split "-" v) <> 2%nat ->
         sortKey (state w') = sortKey (state w) /\ sortDir (state w') = sortDir (state w)
     | None => sortKey (state w') = sortKey (state w) /\ sortDir (state w') = sortDir (state w)
     end
  /\ match URLSearchParams.get ps "page" with
     | Some v =>
         match JS.parseInt v with
         | None => page (state w') = 1
         | Some n => n = 0 -> page (state w') = 1
         end
     | None => page (state w') = page (state w)
     end.
Proof.
  intros ps w'. subst w'. rewrite readFromUrl_read_params. fold ps.
  split; [intros ps' Hag; apply read_params_ext, Hag|].
  split.
  { rewrite read_params_selectedJournals.
    destruct (URLSearchParams.get ps "journals"); [|reflexivity].
    intros x. apply restore_facet_In. }
  split.
  { rewrite read_params_selectedSubfields.
    destruct (URLSearchParams.get ps "subfield"); [|reflexivity].
    intros x. apply restore_facet_In. }
  split.
  { pose proof (read_params_sort ps w) as Hs.
    destruct (URLSearchParams.get ps "sort") as [v|].
    - intros Hl. destruct (JS.split "-" v) as [|k [|d [|y t]]];
        try (injection Hs as -> ->; split; reflexivity).
      exfalso. apply Hl. reflexivity.
    - injection Hs as -> ->. split; reflexivity. }
  rewrite read_params_page.
  destruct (URLSearchParams.get ps "page") as [v|]; [|reflexivity].
  unfold JS.num_or. destruct (JS.parseInt v) as [n|]; [|reflexivity].
  intros ->. reflexivity.
Qed.

(** ** Selecting every facet value *)

(** The filter does not tell selections with the same members apart. *)
Lemma entry_passes_sets w1 w2 r :
  els w1 = els w2 ->
  allJournals w1 = allJournals w2 -> allSubfields w1 = allSubfields w2 ->
  NoDup (selectedJournals w1) -> NoDup (selectedJournals w2) ->
  NoDup (selectedSubfields w1) -> NoDup (selectedSubfields w2) ->
  same_set (selectedJournals w1) (selectedJournals w2) ->
  same_set (selectedSubfields w1) (selectedSubfields w2) ->
  entry_passes w1 r = entry_passes w2 r.
Proof.
  intros He HJ HS NJ1 NJ2 NS1 NS2 SJ SS.
  unfold entry_passes, filterByJournal, filterBySubfield.
  rewrite !size_lt_length.
  rewrite (same_set_length _ _ NJ1 NJ2 SJ), (same_set_length _ _ NS1 NS2 SS).
  rewrite (same_set_has _ _ (journal r) SJ).
  rewrite (same_set_has_opt _ _ (subfield r) SS), (same_set_has_opt _ _ (subfield2 r) SS).
  rewrite He, HJ, HS. reflexivity.
Qed.

(** A duplicate-free selection with the members of a duplicate-free full
    list switches the facet off. *)
Lemma full_set_no_filter (sel all : list string) :
  NoDup sel -> NoDup all -> same_set sel all ->
  (JSSet.size sel <? Z.of_nat (List.length all)) = false.
Proof.
  intros Hs Ha H. rewrite size_lt_length, (same_set_length _ _ Hs Ha H).
  apply Nat.ltb_irrefl.
Qed.

Section CheckAll.

Variable cmp : string -> string -> Z.

Lemma check_journals_cons v vs w :
  check_journals cmp (v :: vs) w
  = check_journals cmp vs (step cmp (JournalCheckbox v true) w).
Proof. reflexivity. Qed.

Lemma check_subfields_cons v vs w :
  check_subfields cmp (v :: vs) w
  = check_subfields cmp vs (step cmp (SubfieldCheckbox v true) w).
Proof. reflexivity. Qed.

Ltac check_induction vs w :=
  revert w; induction vs as [|v vs IH]; intros w; [reflexivity|];
  rewrite ?check_journals_cons, ?check_subfields_cons, IH,
    ?step_JournalCheckbox, ?step_SubfieldCheckbox;
  wnorm; reflexivity.

Lemma check_journals_els vs w : els (check_journals cmp vs w) = els w.
Proof. check_induction vs w. Qed.
Lemma check_journals_allReviews vs w :
  allReviews (check_journals cmp vs w) = allReviews w.
Proof. check_induction vs w. Qed.
Lemma check_journals_allJournals vs w :
  allJournals (check_journals cmp vs w) = allJournals w.
Proof. check_induction vs w. Qed.
Lemma check_journals_allSubfields vs w :
  allSubfields (check_journals cmp vs w) = allSubfields w.
Proof. check_induction vs w. Qed.
Lemma check_journals_selectedSubfields vs w :
  selectedSubfields (check_journals cmp vs w) = selectedSubfields w.
Proof. check_induction vs w. Qed.
Lemma check_journals_sortKey vs w :
  sortKey (state (check_journals cmp vs w)) = sortKey (state w).
Proof. check_induction vs w. Qed.
Lemma check_journals_sortDir vs w :
  sortDir (state (check_journals cmp vs w)) = sortDir (state w).
Proof. check_induction vs w. Qed.
Lemma check_journals_selectedJournals vs w :
  selectedJournals (check_journals cmp vs w) = fold_left JSSet.add vs (selectedJournals w).
Proof. check_induction vs w. Qed.

Lemma check_subfields_els vs w : els (check_subfields cmp vs w) = els w.
Proof. check_induction vs w. Qed.
Lemma check_subfields_allReviews vs w :
  allReviews (check_subfields cmp vs w) = allReviews w.
Proof. check_induction vs w. Qed.
Lemma check_subfields_allJournals vs w :
  allJournals (check_subfields cmp vs w) = allJournals w.
Proof. check_induction vs w. Qed.
Lemma check_subfields_allSubfields vs w :
  allSubfields (check_subfields cmp vs w) = allSubfields w.
Proof. check_induction vs w. Qed.
Lemma check_subfields_selectedJournals vs w :
  selectedJournals (check_subfields cmp vs w) = selectedJournals w.
Proof. check_induction vs w. Qed.
Lemma check_subfields_sortKey vs w :
  sortKey (state (check_subfields cmp vs w)) = sortKey (state w).
Proof. check_induction vs w. Qed.
Lemma check_subfields_sortDir vs w :
  sortDir (state (check_subfields cmp vs w)) = sortDir (state w).
Proof. check_induction vs w. Qed.
Lemma check_subfields_selectedSubfields vs w :
  selectedSubfields (check_subfields cmp vs w)
  = fold_left JSSet.add vs (selectedSubfields w).
Proof. check_induction vs w. Qed.

(** After an interaction that refilters, [filtered] holds the passing
    entries in sort order. *)
Lemma filtered_refilter w :
  filtered (refilter cmp w)
  = sort_by (compare_entries cmp (sortKey (state w)) (sortDir (state w)))
            (List.filter (entry_passes (with_page 1 w)) (allReviews w)).
Proof. wnorm. reflexivity. Qed.

Lemma check_journals_last vs v w :
  check_journals cmp (vs ++ [v]) w
  = step cmp (JournalCheckbox v true) (check_journals cmp vs w).
Proof. unfold check_journals. apply fold_left_app. Qed.

Lemma check_subfields_last vs v w :
  check_subfields cmp (vs ++ [v]) w
  = step cmp (SubfieldCheckbox v true) (check_subfields cmp vs w).
Proof. unfold check_subfields. apply fold_left_app. Qed.

End CheckAll.

Section SelectAll.

Variable localeCompare : string -> string -> Z.

Lemma checked_selection (sel all vs : list string) :
  selection_of sel all -> same_set vs all ->
  NoDup (fold_left JSSet.add vs sel) /\ same_set (fold_left JSSet.add vs sel) all.
Proof.
  intros [Hn Hi] Hv. split; [apply fold_add_NoDup, Hn|].
  intros x. rewrite fold_add_In. split.
  - intros [H|H]; [apply Hi, H | apply Hv, H].
  - intros H. right. apply Hv, H.
Qed.

Lemma of_list_selection (all : list string) :
  NoDup (JSSet.of_list all) /\ same_set (JSSet.of_list all) all.
Proof. split; [apply of_list_NoDup | intros x; apply of_list_In]. Qed.

Lemma same_set_trans_sym (a b c : list string) :
  same_set a c -> same_set b c -> same_set a b.
Proof. intros H1 H2 x. rewrite (H1 x), (H2 x). reflexivity. Qed.

Lemma journals_select_all (w : World) (vs : list string) :
  NoDup (allJournals w) -> NoDup (selectedSubfields w) ->
  selection_of (selectedJournals w) (allJournals w) ->
  same_set vs (allJournals w) ->
  let wj := check_journals localeCompare vs w in
  let aj := step localeCompare JournalSelectAll w in
  filterByJournal wj = false /\ filterByJournal aj = false
  /\ (forall r, entry_passes wj r = entry_passes aj r)
  /\ (vs <> [] -> filtered wj = filtered aj).
Proof.
  intros Hall HnS Hsel Hvs wj aj.
  destruct (checked_selection _ _ _ Hsel Hvs) as [N1 S1].
  destruct (of_list_selection (allJournals w)) as [N2 S2].
  assert (Hpass : forall (u1 u2 : World) r,
             els u1 = els u2 -> allJournals u1 = allJournals w ->
             allJournals u2 = allJournals w -> allSubfields u1 = allSubfields u2 ->
             selectedSubfields u1 = selectedSubfields w ->
             selectedSubfields u2 = selectedSubfields w ->
             selectedJournals u1 = fold_left JSSet.add vs (selectedJournals w) ->
             selectedJournals u2 = JSSet.of_list (allJournals w) ->
             entry_passes u1 r = entry_passes u2 r).
  { intros u1 u2 r E1 E2 E3 E4 E5 E6 E7 E8.
    apply entry_passes_sets; rewrite ?E2, ?E3, ?E5, ?E6, ?E7, ?E8; try assumption.
    - reflexivity.
    - exact (same_set_trans_sym _ _ _ S1 S2).
    - intros x. reflexivity. }
  subst wj aj. split; [|split; [|split]].
  - unfold filterByJournal.
    rewrite check_journals_selectedJournals, check_journals_allJournals.
    apply full_set_no_filter; assumption.
  - unfold filterByJournal. rewrite step_JournalSelectAll. wnorm.
    apply full_set_no_filter; assumption.
  - intros r. apply Hpass;
      rewrite ?check_journals_els, ?check_journals_allJournals,
        ?check_journals_allSubfields, ?check_journals_selectedSubfields,
        ?check_journals_selectedJournals, ?step_JournalSelectAll;
      wnorm; reflexivity.
  - intros Hne. destruct (exists_last Hne) as (vs' & v & ->).
    rewrite check_journals_last, step_JournalCheckbox, step_JournalSelectAll.
    rewrite !filtered_refilter. wnorm.
    rewrite check_journals_sortKey, check_journals_sortDir, check_journals_allReviews.
    f_equal. apply filter_ext. intros r. apply Hpass; wnorm;
      rewrite ?check_journals_els, ?check_journals_allJournals,
        ?check_journals_allSubfields, ?check_journals_selectedSubfields,
        ?check_journals_selectedJournals; try reflexivity.
    rewrite fold_left_app. reflexivity.
Qed.

Lemma subfields_select_all (w : World) (vs : list string) :
  NoDup (allSubfields w) -> NoDup (selectedJournals w) ->
  selection_of (selectedSubfields w) (allSubfields w) ->
  same_set vs (allSubfields w) ->
  let ws := check_subfields localeCompare vs w in
  let az := step localeCompare SubfieldSelectAll w in
  filterBySubfield ws = false /\ filterBySubfield az = false
  /\ (forall r, entry_passes ws r = entry_passes az r)
  /\ (vs <> [] -> filtered ws = filtered az).
Proof.
  intros Hall HnJ Hsel Hvs ws az.
  destruct (checked_selection _ _ _ Hsel Hvs) as [N1 S1].
  destruct (of_list_selection (allSubfields w)) as [N2 S2].
  assert (Hpass : forall (u1 u2 : World) r,
             els u1 = els u2 -> allSubfields u1 = allSubfields w ->
             allSubfields u2 = allSubfields w -> allJournals u1 = allJournals u2 ->
             selectedJournals u1 = selectedJournals w ->
             selectedJournals u2 = selectedJournals w ->
             selectedSubfields u1 = fold_left JSSet.add vs (selectedSubfields w) ->
             selectedSubfields u2 = JSSet.of_list (allSubfields w) ->
             entry_passes u1 r = entry_passes u2 r).
  { intros u1 u2 r E1 E2 E3 E4 E5 E6 E7 E8.
    apply entry_passes_sets; rewrite ?E2, ?E3, ?E5, ?E6, ?E7, ?E8; try assumption.
    - reflexivity.
    - intros x. reflexivity.
    - exact (same_set_trans_sym _ _ _ S1 S2). }
  subst ws az. split; [|split; [|split]].
  - unfold filterBySubfield.
    rewrite check_subfields_selectedSubfields, check_subfields_allSubfields.
    apply full_set_no_filter; assumption.
  - unfold filterBySubfield. rewrite step_SubfieldSelectAll. wnorm.
    apply full_set_no_filter; assumption.
  - intros r. apply Hpass;
      rewrite ?check_subfields_els, ?check_subfields_allJournals,
        ?check_subfields_allSubfields, ?check_subfields_selectedSubfields,
        ?check_subfields_selectedJournals, ?step_SubfieldSelectAll;
      wnorm; reflexivity.
  - intros Hne. destruct (exists_last Hne) as (vs' & v & ->).
    rewrite check_subfields_last, step_SubfieldCheckbox, step_SubfieldSelectAll.
    rewrite !filtered_refilter. wnorm.
    rewrite check_subfields_sortKey, check_subfields_sortDir, check_subfields_allReviews.
    f_equal. apply filter_ext. intros r. apply Hpass; wnorm;
      rewrite ?check_subfields_els, ?check_subfields_allJournals,
        ?check_subfields_allSubfields, ?check_subfields_selectedSubfields,
        ?check_subfields_selectedJournals; try reflexivity.
    rewrite fold_left_app. reflexivity.
Qed.

(** C6: selecting every value one by one is select-all.  On a page whose
    facet lists and selections are duplicate-free, ticking every journal
    checkbox (in any order, repeats allowed) and pressing "select all" both
    switch the journal facet off, let the same entries pass and leave the
    same filtered list; likewise for the subfields.  A selection with
    exactly the members of the full list switches the facet off. *)
Theorem C6_select_all_equivalence (w : World) (vsJ vsS : list string) :
  NoDup (allJournals w) -> NoDup (allSubfields w) ->
  selection_of (selectedJournals w) (allJournals w) ->
  selection_of (selectedSubfields w) (allSubfields w) ->
  same_set vsJ (allJournals w) -> same_set vsS (allSubfields w) ->
  let wj := check_journals localeCompare vsJ w in
  let aj := step localeCompare JournalSelectAll w in
  let ws := check_subfields localeCompare vsS w in
  let az := step localeCompare SubfieldSelectAll w in
  (filterByJournal wj = false /\ filterByJournal aj = false
   /\ (forall r, entry_passes wj r = entry_passes aj r)
   /\ (vsJ <> [] -> filtered wj = filtered aj))
  /\ (filterBySubfield ws = false /\ filterBySubfield az = false
      /\ (forall r, entry_passes ws r = entry_passes az r)
      /\ (vsS <> [] -> filtered ws = filtered az))
  /\ (same_set (selectedJournals w) (allJournals w) -> filterByJournal w = false)
  /\ (same_set (selectedSubfields w) (allSubfields w) -> filterBySubfield w = false).
Proof.
  intros HaJ HaS HsJ HsS HvJ HvS wj aj ws az.
  split; [apply journals_select_all; try assumption; apply HsS|].
  split; [apply subfields_select_all; try assumption; apply HsJ|].
  split; intros H; apply full_set_no_filter; try assumption; [apply HsJ | apply HsS].
Qed.

End SelectAll.

Lemma C6_select_all_equivalence_witness :
  selectedJournals demo_unchecked = [] /\ selectedSubfields demo_unchecked = []
  /\ filtered demo_unchecked = []
  /\ filtered (check_journals codepoint_compare ["Mind"; "Ethics"] demo_unchecked)
     = filtered (step codepoint_compare JournalSelectAll demo_unchecked)
  /\ filterBySubfield
       (check_subfields codepoint_compare ["history"; "ethics"; "political"] demo_unchecked)
     = false.
Proof.
  do 3 (split; [vm_compute; reflexivity|]).
  assert (H : NoDup (allJournals demo_unchecked) /\ NoDup (allSubfields demo_unchecked)
              /\ selection_of (selectedJournals demo_unchecked) (allJournals demo_unchecked)
              /\ selection_of (selectedSubfields demo_unchecked)
                              (allSubfields demo_unchecked)
              /\ same_set ["Mind"; "Ethics"] (allJournals demo_unchecked)
              /\ same_set ["history"; "ethics"; "political"] (allSubfields demo_unchecked)).
  { split; [concrete_nodup|]. split; [concrete_nodup|].
    split; [split; [concrete_nodup | concrete_incl]|].
    split; [split; [concrete_nodup | concrete_incl]|].
    split; intros x; vm_compute; intuition. }
  destruct H as (H1 & H2 & H3 & H4 & H5 & H6).
  pose proof (C6_select_all_equivalence codepoint_compare demo_unchecked
                ["Mind"; "Ethics"] ["history"; "ethics"; "political"]
                H1 H2 H3 H4 H5 H6) as (HJ & HS & _).
  split.
  - apply (proj2 (proj2 (proj2 HJ))). discriminate.
  - exact (proj1 HS).
Defined.

(** * Further properties of the pipeline *)

(** ** The dataset is never touched *)

Section ReaderDataset.

Variable ps : URLSearchParams.t.

Lemma read_text_allReviews k c w : allReviews (read_text k c ps w) = allReviews w.
Proof. unfold read_text. destruct (URLSearchParams.get ps k); reflexivity. Qed.

Lemma read_subfield_allReviews w : allReviews (read_subfield ps w) = allReviews w.
Proof. unfold read_subfield. destruct (URLSearchParams.get ps "subfield"); reflexivity. Qed.

Lemma read_journals_allReviews w : allReviews (read_journals ps w) = allReviews w.
Proof. unfold read_journals. destruct (URLSearchParams.get ps "journals"); reflexivity. Qed.

Lemma read_year_allReviews w : allReviews (read_year ps w) = allReviews w.
Proof.
  unfold read_year. destruct (URLSearchParams.get ps "year") as [v|]; [|reflexivity].
  destruct (nth_error (JS.split "-" v) 1) as [p1|];
    destruct (nth_error (JS.split "-" v) 0) as [p0|];
    try destruct (JS.truthy p1); try destruct (JS.truthy p0); reflexivity.
Qed.

Lemma read_sort_allReviews w : allReviews (read_sort ps w) = allReviews w.
Proof.
  unfold read_sort. destruct (URLSearchParams.get ps "sort") as [v|]; [|reflexivity].
  destruct (JS.split "-" v) as [|k [|d [|x t]]]; reflexivity.
Qed.

Lemma read_page_allReviews w : allReviews (read_page ps w) = allReviews w.
Proof. unfold read_page. destruct (URLSearchParams.get ps "page"); reflexivity. Qed.

Lemma read_params_allReviews w : allReviews (read_params ps w) = allReviews w.
Proof.
  unfold read_params. cbv zeta.
  rewrite read_page_allReviews, read_sort_allReviews, !read_text_allReviews,
    read_year_allReviews, read_journals_allReviews, read_subfield_allReviews,
    !read_text_allReviews.
  reflexivity.
Qed.

End ReaderDataset.

Lemma readFromUrl_allReviews w : allReviews (readFromUrl w) = allReviews w.
Proof. rewrite readFromUrl_read_params. apply read_params_allReviews. Qed.

Lemma readFromUrl_allJournals w : allJournals (readFromUrl w) = allJournals w.
Proof. rewrite readFromUrl_read_params. apply read_params_allJournals. Qed.

Lemma readFromUrl_allSubfields w : allSubfields (readFromUrl w) = allSubfields w.
Proof. rewrite readFromUrl_read_params. apply read_params_allSubfields. Qed.

Lemma readFromUrl_selectedJournals_NoDup w :
  NoDup (selectedJournals w) -> NoDup (selectedJournals (readFromUrl w)).
Proof.
  intros H. rewrite readFromUrl_read_params, read_params_selectedJournals.
  destruct (URLSearchParams.get _ "journals"); [apply of_list_NoDup | exact H].
Qed.

Lemma readFromUrl_selectedSubfields_NoDup w :
  NoDup (selectedSubfields w) -> NoDup (selectedSubfields (readFromUrl w)).
Proof.
  intros H. rewrite readFromUrl_read_params, read_params_selectedSubfields.
  destruct (URLSearchParams.get _ "subfield"); [apply of_list_NoDup | exact H].
Qed.

#[export] Hint Rewrite readFromUrl_allReviews readFromUrl_allJournals
  readFromUrl_allSubfields : world.

Lemma step_dataset cmp (a : Action) (w : World) :
  allReviews (step cmp a w) = allReviews w
  /\ allJournals (step cmp a w) = allJournals w
  /\ allSubfields (step cmp a w) = allSubfields w.
Proof.
  destruct a as [|n|c v| | |v b| | |v b|key|j| |h|idx|kind value|np];
    try (step_eq; wnorm; repeat split; reflexivity).
  - destruct (String.eqb_spec kind "journal") as [->|Hk].
    + rewrite step_NameLinkClick_journal. wnorm. repeat split; reflexivity.
    + apply String.eqb_neq in Hk. rewrite step_NameLinkClick_other by exact Hk.
      wnorm. repeat split; reflexivity.
  - rewrite step_PageButtonClick.
    destruct ((np >=? 1) && (np <=? totalPages w)); wnorm; repeat split; reflexivity.
Qed.

(** X1: No interaction changes the dataset, the journal list or the subfield
    list, and [update] shows exactly the entries of the dataset that pass
    the filter, each as often as the dataset holds it. *)
Theorem dataset_never_mutated cmp (a : Action) (w : World) :
  allReviews (step cmp a w) = allReviews w
  /\ allJournals (step cmp a w) = allJournals w
  /\ allSubfields (step cmp a w) = allSubfields w
  /\ Permutation (filtered (update cmp w)) (List.filter (entry_passes w) (allReviews w))
  /\ (forall r, In r (filtered (update cmp w))
                <-> In r (allReviews w) /\ entry_passes w r = true)
  /\ (List.length (filtered (update cmp w)) <= List.length (allReviews w))%nat.
Proof.
  destruct (step_dataset cmp a w) as (H1 & H2 & H3).
  split; [exact H1|]. split; [exact H2|]. split; [exact H3|].
  split; [rewrite filtered_update; apply sort_by_perm|].
  split; [intros r; apply In_filtered_update|].
  rewrite filtered_update, sort_by_length. apply filter_length_le.
Qed.

(** ** What every reachable page satisfies *)

Section Consistency.

Variables (cmp : string -> string -> Z) (reviews : list Entry) (boxes : list string).

Lemma same_filter w1 w2 (l : list Entry) :
  els w1 = els w2 ->
  allJournals w1 = allJournals w2 -> selectedJournals w1 = selectedJournals w2 ->
  allSubfields w1 = allSubfields w2 -> selectedSubfields w1 = selectedSubfields w2 ->
  List.filter (entry_passes w1) l = List.filter (entry_passes w2) l.
Proof.
  intros E1 E2 E3 E4 E5. apply filter_ext. intros r. apply entry_passes_ext; assumption.
Qed.

Ltac filter_of w :=
  match goal with
  | |- Permutation _ (List.filter (entry_passes ?X) ?l) =>
      replace (List.filter (entry_passes X) l) with (List.filter (entry_passes w) l)
        by (apply same_filter; wnorm; reflexivity)
  end.

(** [render] turns a world whose [filtered] holds the passing entries into
    a consistent one. *)
Lemma consistent_render w :
  allReviews w = reviews -> allSubfields w = boxes ->
  Permutation (filtered w) (List.filter (entry_passes w) (allReviews w)) ->
  NoDup (selectedJournals w) -> NoDup (selectedSubfields w) ->
  consistent reviews boxes (render cmp w).
Proof.
  intros HR HS HF NJ NS. constructor.
  - wnorm. exact HR.
  - wnorm. exact HS.
  - wnorm. rewrite sort_by_perm, HF. filter_of w. reflexivity.
  - rewrite render_totalPages, render_filtered, render_perPage, sort_by_length. reflexivity.
  - apply render_page_le.
  - apply render_pagination.
  - wnorm. exact NJ.
  - wnorm. exact NS.
Qed.

Lemma consistent_update w :
  allReviews w = reviews -> allSubfields w = boxes ->
  NoDup (selectedJournals w) -> NoDup (selectedSubfields w) ->
  consistent reviews boxes (update cmp w).
Proof.
  intros HR HS NJ NS. rewrite update_eq. apply consistent_render; wnorm; try assumption.
  filter_of w. reflexivity.
Qed.

(** Changing only the state record or the fragment keeps [filtered] in
    line with the filter. *)
Lemma filtered_in_line w u :
  consistent reviews boxes w ->
  filtered u = filtered w -> allReviews u = allReviews w -> els u = els w ->
  allJournals u = allJournals w -> selectedJournals u = selectedJournals w ->
  allSubfields u = allSubfields w -> selectedSubfields u = selectedSubfields w ->
  Permutation (filtered u) (List.filter (entry_passes u) (allReviews u)).
Proof.
  intros Hc E1 E2 E3 E4 E5 E6 E7. rewrite E1, E2, (cons_filtered _ _ _ Hc).
  rewrite (same_filter u w) by assumption. reflexivity.
Qed.

Lemma consistent_syncToUrl w :
  consistent reviews boxes w -> consistent reviews boxes (syncToUrl w).
Proof.
  intros Hc. pose proof Hc as [HR HS HF HT HP HG NJ NS]. constructor; wnorm; try assumption.
Qed.

Lemma consistent_refilter w :
  allReviews w = reviews -> allSubfields w = boxes ->
  NoDup (selectedJournals w) -> NoDup (selectedSubfields w) ->
  consistent reviews boxes (refilter cmp w).
Proof.
  intros HR HS NJ NS. rewrite refilter_eq.
  apply consistent_syncToUrl, consistent_update; wnorm; assumption.
Qed.

Lemma consistent_clearFilters w :
  allReviews w = reviews -> allSubfields w = boxes ->
  consistent reviews boxes (clearFilters cmp w).
Proof.
  intros HR HS. rewrite clearFilters_eq.
  apply consistent_update; wnorm; try assumption; apply of_list_NoDup.
Qed.

Lemma singleton_NoDup (v : string) : NoDup (JSSet.of_list [v]).
Proof. apply of_list_NoDup. Qed.

(** Every interaction keeps the page consistent. *)
Lemma consistent_step a w :
  consistent reviews boxes w -> consistent reviews boxes (step cmp a w).
Proof.
  intros Hc. pose proof Hc as [HR HS HF HT HP HG NJ NS].
  destruct a as [|n|c v| | |v b| | |v b|key|j| |h|idx|kind value|np].
  - rewrite step_ClearClick. apply consistent_syncToUrl, consistent_clearFilters; assumption.
  - rewrite step_PerPageChange. apply consistent_syncToUrl, consistent_render;
      wnorm; try assumption;
      try (apply (filtered_in_line w); wnorm; try reflexivity; exact Hc).
  - rewrite step_ControlChange. apply consistent_refilter; wnorm; assumption.
  - rewrite step_SubfieldSelectAll. apply consistent_refilter; wnorm; try assumption.
    apply of_list_NoDup.
  - rewrite step_SubfieldSelectNone. apply consistent_refilter; wnorm; try assumption.
    constructor.
  - rewrite step_SubfieldCheckbox. apply consistent_refilter; wnorm; try assumption.
    destruct b; [apply add_NoDup | apply delete_NoDup]; exact NS.
  - rewrite step_JournalSelectAll. apply consistent_refilter; wnorm; try assumption.
    apply of_list_NoDup.
  - rewrite step_JournalSelectNone. apply consistent_refilter; wnorm; try assumption.
    constructor.
  - rewrite step_JournalCheckbox. apply consistent_refilter; wnorm; try assumption.
    destruct b; [apply add_NoDup | apply delete_NoDup]; exact NJ.
  - rewrite step_HeaderClick. apply consistent_syncToUrl, consistent_render;
      wnorm; try assumption;
      try (apply (filtered_in_line w); wnorm; try reflexivity; exact Hc).
  - rewrite step_SourceCardClick. apply consistent_refilter; wnorm; try assumption;
      apply of_list_NoDup.
  - rewrite step_BrowseRecentClick. apply consistent_refilter; wnorm; try assumption;
      apply of_list_NoDup.
  - rewrite step_PopState. apply consistent_update; wnorm; try assumption.
    + apply readFromUrl_selectedJournals_NoDup. wnorm. exact NJ.
    + apply readFromUrl_selectedSubfields_NoDup. wnorm. exact NS.
  - rewrite step_RowClick. apply consistent_render; wnorm; try assumption;
      try (apply (filtered_in_line w); wnorm; try reflexivity; exact Hc).
  - destruct (String.eqb_spec kind "journal") as [->|Hk].
    + rewrite step_NameLinkClick_journal. apply consistent_refilter; wnorm; try assumption;
        apply of_list_NoDup.
    + apply String.eqb_neq in Hk. rewrite step_NameLinkClick_other by exact Hk.
      apply consistent_refilter; wnorm; try assumption; apply of_list_NoDup.
  - rewrite step_PageButtonClick.
    destruct ((np >=? 1) && (np <=? totalPages w)); [|exact Hc].
    apply consistent_syncToUrl, consistent_render; wnorm; try assumption;
      try (apply (filtered_in_line w); wnorm; try reflexivity; exact Hc).
Qed.

Lemma consistent_init fragment :
  consistent reviews boxes (init cmp reviews boxes fragment).
Proof.
  unfold init. apply consistent_update; wnorm; try reflexivity.
  - apply readFromUrl_selectedJournals_NoDup, of_list_NoDup.
  - apply readFromUrl_selectedSubfields_NoDup, of_list_NoDup.
Qed.

Lemma consistent_reachable (w : World) :
  reachable cmp reviews boxes w -> consistent reviews boxes w.
Proof.
  intros H. induction H as [fragment | a w Hw IH].
  - apply consistent_init.
  - apply consistent_step, IH.
Qed.

Lemma browsable_reachable (w : World) :
  browsable cmp reviews boxes w -> reachable cmp reviews boxes w.
Proof.
  intros H. induction H as [fragment _ | a w _ IH _]; [apply reach_init|].
  apply reach_step, IH.
Qed.


End Consistency.

Ltac concrete_renderable := split; vm_compute; reflexivity.

Lemma demo_w0_browsable : browsable codepoint_compare sample_reviews sample_boxes demo_w0.
Proof. unfold demo_w0. apply browse_init. concrete_renderable. Qed.

Lemma demo_years_browsable :
  browsable codepoint_compare sample_reviews sample_boxes demo_years.
Proof.
  unfold demo_years.
  apply browse_step; [apply browse_step; [apply demo_w0_browsable|] |];
    concrete_renderable.
Qed.

Lemma demo_w_browsable : browsable codepoint_compare sample_reviews sample_boxes demo_w.
Proof.
  unfold demo_w.
  repeat (apply browse_step; [|concrete_renderable]).
  apply demo_w0_browsable.
Qed.


(** ** When nothing is filtered *)

Lemma truthy_false s : JS.truthy s = false <-> s = EmptyString.
Proof. destruct s; split; intros H; try reflexivity; discriminate H. Qed.

(** With empty text filters, empty year bounds, no access or type choice
    and both facets switched off, every entry passes. *)
Lemma unfiltered_passes w r :
  JS.trim (globalSearch (els w)) = "" -> JS.trim (titleFilter (els w)) = "" ->
  JS.trim (authorFilter (els w)) = "" -> JS.trim (reviewerFilter (els w)) = "" ->
  yearFrom (els w) = "" -> yearTo (els w) = "" ->
  accessFilter (els w) = "" -> typeFilter (els w) = "" ->
  filterByJournal w = false -> filterBySubfield w = false ->
  entry_passes w r = true.
Proof.
  intros H1 H2 H3 H4 H5 H6 H7 H8 HJ HS. unfold entry_passes.
  rewrite <- !toLowerCase_trim, H1, H2, H3, H4, H5, H6, H7, H8, HJ, HS. reflexivity.
Qed.

Lemma filter_all_pass (f : Entry -> bool) l :
  (forall r, f r = true) -> List.filter f l = l.
Proof. intros H. apply forallb_filter_id, forallb_forall. intros r _. apply H. Qed.

Lemma of_list_size_full (all : list string) :
  NoDup all -> (JSSet.size (JSSet.of_list all) <? Z.of_nat (List.length all)) = false.
Proof.
  intros H. rewrite (of_list_id _ H), size_lt_length. apply Nat.ltb_irrefl.
Qed.

(** *** The indicator *)

Lemma pushed_nil (b : bool) (l : list string) x :
  (if b then (l ++ [x])%list else l) = [] -> b = false /\ l = [].
Proof.
  destruct b; intros H; [|auto]. destruct l; discriminate H.
Qed.

Lemma active_filters_nil w :
  active_filters w = [] ->
  JS.trim (globalSearch (els w)) = "" /\ JS.trim (titleFilter (els w)) = ""
  /\ JS.trim (authorFilter (els w)) = "" /\ JS.trim (reviewerFilter (els w)) = ""
  /\ filterBySubfield w = false /\ filterByJournal w = false
  /\ yearFrom (els w) = "" /\ yearTo (els w) = ""
  /\ accessFilter (els w) = "" /\ typeFilter (els w) = "".
Proof.
  unfold active_filters. cbv zeta. intros H.
  apply pushed_nil in H as [H9 H]. apply pushed_nil in H as [H8 H].
  apply pushed_nil in H as [H7 H]. apply pushed_nil in H as [H6 H].
  apply pushed_nil in H as [H5 H]. apply pushed_nil in H as [H4 H].
  apply pushed_nil in H as [H3 H]. apply pushed_nil in H as [H2 H].
  apply pushed_nil in H as [H1 _].
  apply orb_false_iff in H7 as [H7 H7'].
  rewrite truthy_false in H1, H2, H3, H4, H7, H7', H8, H9.
  repeat split; assumption.
Qed.

Lemma active_filters_none w :
  JS.trim (globalSearch (els w)) = "" -> JS.trim (titleFilter (els w)) = "" ->
  JS.trim (authorFilter (els w)) = "" -> JS.trim (reviewerFilter (els w)) = "" ->
  filterBySubfield w = false -> filterByJournal w = false ->
  yearFrom (els w) = "" -> yearTo (els w) = "" ->
  accessFilter (els w) = "" -> typeFilter (els w) = "" ->
  active_filters w = [].
Proof.
  unfold active_filters, filterBySubfield, filterByJournal. cbv zeta.
  intros H1 H2 H3 H4 H5 H6 H7 H8 H9 H10.
  rewrite H1, H2, H3, H4, H5, H6, H7, H8, H9, H10. reflexivity.
Qed.

Lemma append_empty (a b : string) : (a ++ b)%string = EmptyString -> b = EmptyString.
Proof. destruct a; [auto | discriminate]. Qed.

Lemma filter_indicator_empty w : filter_indicator w = "" <-> active_filters w = [].
Proof.
  unfold filter_indicator. destruct (active_filters w) as [|x l]; [tauto|].
  cbn [List.length]. destruct (Z.gtb_spec (Z.of_nat (S (List.length l))) 0) as [_|H]; [|lia].
  split; [|discriminate]. intros H. apply append_empty in H. discriminate H.
Qed.

(** X3: When the filter indicator shows nothing, no entry is filtered out:
    every entry passes and [update] shows a rearrangement of the whole
    dataset. *)
Theorem silent_indicator_shows_all cmp (w : World) :
  filter_indicator w = "" ->
  (forall r, entry_passes w r = true)
  /\ Permutation (filtered (update cmp w)) (allReviews w)
  /\ List.length (filtered (update cmp w)) = List.length (allReviews w).
Proof.
  intros H. apply filter_indicator_empty, active_filters_nil in H.
  destruct H as (H1 & H2 & H3 & H4 & HS & HJ & H5 & H6 & H7 & H8).
  assert (Hp : forall r, entry_passes w r = true)
    by (intros r; apply unfiltered_passes; assumption).
  split; [exact Hp|].
  assert (HP : Permutation (filtered (update cmp w)) (allReviews w)).
  { rewrite filtered_update, sort_by_perm, (filter_all_pass _ _ Hp). reflexivity. }
  split; [exact HP | apply Permutation_length, HP].
Qed.

Lemma silent_indicator_shows_all_witness :
  filter_indicator demo_w0 = ""
  /\ List.length (filtered (update codepoint_compare demo_w0)) = 3%nat.
Proof.
  assert (H : filter_indicator demo_w0 = "") by (vm_compute; reflexivity).
  split; [exact H|].
  exact (proj2 (proj2 (silent_indicator_shows_all codepoint_compare demo_w0 H))).
Defined.

(** ** The empty fragment *)

Lemma url_params_defaults w : at_defaults w -> url_params w = [].
Proof.
  intros [H1 H2 H3 H4 H5 H6 H7 H8 H9 H10 H11 H12 H13].
  unfold url_params, set_if_truthy, set_facet. cbv zeta.
  rewrite H1, H2, H3, H4, H5, H6, H7, H8, H9, H10, H11, H12.
  destruct (Z.gtb_spec (page (state w)) 1); [lia | reflexivity].
Qed.

Lemma some_if_none {A} (b : bool) (x : A) :
  None = (if b then Some x else None) -> b = false.
Proof. destruct b; [discriminate | reflexivity]. Qed.

Lemma url_params_nil_defaults w : url_params w = [] -> at_defaults w.
Proof.
  intros H.
  pose proof (url_get_q w) as G1. pose proof (url_get_title w) as G2.
  pose proof (url_get_author w) as G3. pose proof (url_get_reviewer w) as G4.
  pose proof (url_get_subfield w) as G5. pose proof (url_get_journals w) as G6.
  pose proof (url_get_year w) as G7. pose proof (url_get_access w) as G8.
  pose proof (url_get_type w) as G9. pose proof (url_get_sort w) as G10.
  pose proof (url_get_page w) as G11.
  rewrite H in G1, G2, G3, G4, G5, G6, G7, G8, G9, G10, G11.
  cbn [URLSearchParams.get] in G1, G2, G3, G4, G5, G6, G7, G8, G9, G10, G11.
  apply some_if_none in G1, G2, G3, G4, G5, G6, G7, G8, G9, G10, G11.
  apply orb_false_iff in G7 as [G7 G7'].
  apply negb_false_iff, andb_true_iff in G10 as [G10 G10'].
  rewrite truthy_false in G1, G2, G3, G4, G7, G7', G8, G9.
  apply String.eqb_eq in G10, G10'. rewrite Z.gtb_ltb, Z.ltb_ge in G11.
  constructor; assumption.
Qed.

(** X4: [syncToUrl] leaves the URL without a fragment exactly in the default
    state: text filters blank after trimming, no year, access or type
    value, no facet that is written, sort by date descending, page at most
    1.  In every other state some key is written. *)
Theorem empty_fragment_iff_defaults (w : World) :
  hash (syncToUrl w) = "" <-> at_defaults w.
Proof.
  rewrite syncToUrl_eq, hash_with_hash. split.
  - intros H. apply url_params_nil_defaults, toString_empty, H.
  - intros H. rewrite (url_params_defaults w H). reflexivity.
Qed.

Lemma defaults_no_fragment (w : World) : at_defaults w -> hash (syncToUrl w) = "".
Proof.
  intros H. rewrite syncToUrl_eq, hash_with_hash, (url_params_defaults w H). reflexivity.
Qed.

(** ** Clearing the filters *)

(** X5: The clear button, on a page whose facet lists hold no value twice:
    the form is blank, both facets are fully selected, every entry of the
    dataset is shown, the page is 1, no row is expanded, the indicator is
    silent, the sort is kept, and the fragment only holds the sort (it is
    empty when the sort is the default). *)
Theorem clear_restores_everything cmp (w : World) :
  NoDup (allJournals w) -> NoDup (allSubfields w) ->
  let w' := step cmp ClearClick w in
  els w' = empty_form
  /\ selectedJournals w' = allJournals w /\ selectedSubfields w' = allSubfields w
  /\ Permutation (filtered w') (allReviews w)
  /\ List.length (filtered w') = List.length (allReviews w)
  /\ page (state w') = 1 /\ expandedIdx (state w') = None
  /\ sortKey (state w') = sortKey (state w) /\ sortDir (state w') = sortDir (state w)
  /\ filter_indicator w' = ""
  /\ (sortKey (state w) = "date" -> sortDir (state w) = "desc" -> hash w' = "").
Proof.
  intros HJ HS w'. subst w'. rewrite step_ClearClick.
  assert (Hp : forall r, entry_passes (reset_filters w) r = true).
  { intros r. apply unfiltered_passes; wnorm; try reflexivity.
    - unfold filterByJournal. wnorm. apply of_list_size_full, HJ.
    - unfold filterBySubfield. wnorm. apply of_list_size_full, HS. }
  assert (HP : Permutation (filtered (syncToUrl (clearFilters cmp w))) (allReviews w)).
  { wnorm. rewrite sort_by_perm, (filter_all_pass _ _ Hp). reflexivity. }
  assert (Hpage : page (state (syncToUrl (clearFilters cmp w))) = 1) by (wnorm; lia).
  split; [wnorm; reflexivity|].
  split; [wnorm; apply of_list_id, HJ|].
  split; [wnorm; apply of_list_id, HS|].
  split; [exact HP|]. split; [apply Permutation_length, HP|].
  split; [exact Hpage|].
  split; [wnorm; reflexivity|].
  split; [wnorm; reflexivity|]. split; [wnorm; reflexivity|].
  split.
  - apply filter_indicator_empty, active_filters_none; wnorm; try reflexivity.
    + unfold filterBySubfield. wnorm. apply of_list_size_full, HS.
    + unfold filterByJournal. wnorm. apply of_list_size_full, HJ.
  - intros Hk Hd.
    assert (Hdef : at_defaults (clearFilters cmp w)).
    { constructor; wnorm; try reflexivity; try assumption.
      - unfold facet_written. rewrite (of_list_size_full _ HS). apply andb_false_r.
      - unfold facet_written. rewrite (of_list_size_full _ HJ). apply andb_false_r.
      - lia. }
    apply (defaults_no_fragment (clearFilters cmp w)), Hdef.
Qed.

Lemma clear_restores_everything_witness :
  NoDup (allJournals demo_years) /\ NoDup (allSubfields demo_years)
  /\ List.length (filtered demo_years) = 1%nat
  /\ List.length (filtered (step codepoint_compare ClearClick demo_years)) = 3%nat
  /\ hash (step codepoint_compare ClearClick demo_years) = "".
Proof.
  assert (H1 : NoDup (allJournals demo_years)) by concrete_nodup.
  assert (H2 : NoDup (allSubfields demo_years)) by concrete_nodup.
  split; [exact H1|]. split; [exact H2|].
  split; [vm_compute; reflexivity|].
  pose proof (clear_restores_everything codepoint_compare demo_years H1 H2) as H.
  cbv zeta in H. destruct H as (_ & _ & _ & _ & HL & _ & _ & _ & _ & _ & HH).
  split.
  - rewrite HL. vm_compute. reflexivity.
  - apply HH; vm_compute; reflexivity.
Defined.

(** ** Loading the page *)

Section Loading.

Variables (cmp : string -> string -> Z) (reviews : list Entry) (boxes : list string).

Lemma fresh_allJournals_eq fragment :
  allJournals (fresh cmp reviews boxes fragment)
  = sort_by (fun a b => cmp (strip_the a) (strip_the b))
            (JSSet.of_list (map journal reviews)).
Proof. reflexivity. Qed.

Lemma fresh_selectedJournals_eq fragment :
  selectedJournals (fresh cmp reviews boxes fragment)
  = JSSet.of_list (allJournals (fresh cmp reviews boxes fragment)).
Proof. reflexivity. Qed.

Lemma fresh_journals_NoDup fragment :
  NoDup (allJournals (fresh cmp reviews boxes fragment)).
Proof.
  rewrite fresh_allJournals_eq.
  apply (Permutation_NoDup (l := JSSet.of_list (map journal reviews)));
    [symmetry; apply sort_by_perm | apply of_list_NoDup].
Qed.

Lemma fresh_journals_In fragment j :
  In j (allJournals (fresh cmp reviews boxes fragment))
  <-> exists r, In r reviews /\ journal r = j.
Proof.
  rewrite fresh_allJournals_eq, sort_by_In, of_list_In, in_map_iff.
  split; intros (r & H1 & H2); exists r; auto.
Qed.

Lemma init_allJournals fragment :
  allJournals (init cmp reviews boxes fragment)
  = allJournals (fresh cmp reviews boxes "").
Proof. unfold init. wnorm. reflexivity. Qed.

Lemma reachable_allJournals w :
  reachable cmp reviews boxes w ->
  allJournals w = allJournals (fresh cmp reviews boxes "").
Proof.
  intros H. induction H as [fragment | a w Hw IH].
  - apply init_allJournals.
  - rewrite (proj1 (proj2 (step_dataset cmp a w))). exact IH.
Qed.

(** X6: The journal facet of every reachable page lists each journal of the
    dataset exactly once, so every entry's journal is among the checkboxes
    and the fully selected facet is switched off. *)
Theorem journal_facet_from_dataset (w : World) :
  reachable cmp reviews boxes w ->
  NoDup (allJournals w)
  /\ (forall j, In j (allJournals w) <-> exists r, In r reviews /\ journal r = j)
  /\ (forall r, In r (allReviews w) -> In (journal r) (allJournals w))
  /\ (JSSet.size (JSSet.of_list (allJournals w)) <? Z.of_nat (List.length (allJournals w)))
     = false.
Proof.
  intros H. rewrite (reachable_allJournals w H).
  pose proof (fresh_journals_NoDup "") as HN.
  split; [exact HN|]. split; [apply fresh_journals_In|].
  split; [|apply of_list_size_full, HN].
  intros r Hr. apply fresh_journals_In. exists r. split; [|reflexivity].
  rewrite <- (cons_allReviews _ _ _ (consistent_reachable cmp reviews boxes w H)).
  exact Hr.
Qed.

(** X7: Opened without a fragment, with subfield checkboxes that hold no value
    twice, the page shows the whole dataset on page 1, sorted by date
    descending, with a blank form, full selections and no fragment
    written by a later [syncToUrl]. *)
Theorem load_without_fragment :
  NoDup boxes ->
  let w := init cmp reviews boxes "" in
  Permutation (filtered w) reviews
  /\ page (state w) = 1 /\ sortKey (state w) = "date" /\ sortDir (state w) = "desc"
  /\ els w = empty_form
  /\ selectedJournals w = allJournals w /\ selectedSubfields w = boxes
  /\ filter_indicator w = ""
  /\ hash (syncToUrl w) = "".
Proof.
  intros HB w. subst w. unfold init.
  change (readFromUrl (fresh cmp reviews boxes "")) with (fresh cmp reviews boxes "").
  set (W := fresh cmp reviews boxes "").
  assert (EJ : selectedJournals W = allJournals W).
  { unfold W. rewrite fresh_selectedJournals_eq. apply of_list_id, fresh_journals_NoDup. }
  assert (ES : selectedSubfields W = boxes) by (apply of_list_id, HB).
  assert (HJ : filterByJournal W = false).
  { unfold filterByJournal. rewrite EJ, size_lt_length. apply Nat.ltb_irrefl. }
  assert (HS : filterBySubfield W = false).
  { unfold filterBySubfield. rewrite ES. change (allSubfields W) with boxes.
    rewrite size_lt_length. apply Nat.ltb_irrefl. }
  assert (Hp : forall r, entry_passes W r = true)
    by (intros r; apply unfiltered_passes; try reflexivity; assumption).
  split.
  { rewrite filtered_update, sort_by_perm, (filter_all_pass _ _ Hp). reflexivity. }
  split; [wnorm; change (page (state W)) with 1; lia|].
  split; [wnorm; reflexivity|]. split; [wnorm; reflexivity|].
  split; [wnorm; reflexivity|].
  split; [wnorm; exact EJ|]. split; [wnorm; exact ES|].
  split.
  - apply filter_indicator_empty, active_filters_none; wnorm; try reflexivity.
    + unfold filterBySubfield. wnorm. exact HS.
    + unfold filterByJournal. wnorm. exact HJ.
  - apply defaults_no_fragment. constructor; wnorm; try reflexivity.
    + unfold facet_written. fold (filterBySubfield W). rewrite HS. apply andb_false_r.
    + unfold facet_written. fold (filterByJournal W). rewrite HJ. apply andb_false_r.
    + change (page (state W)) with 1. lia.
Qed.

End Loading.

Lemma load_without_fragment_witness :
  NoDup sample_boxes
  /\ Permutation (filtered (init codepoint_compare sample_reviews sample_boxes ""))
                 sample_reviews.
Proof.
  assert (H : NoDup sample_boxes) by concrete_nodup.
  split; [exact H|].
  exact (proj1 (load_without_fragment codepoint_compare sample_reviews sample_boxes H)).
Defined.

Lemma journal_facet_from_dataset_witness :
  reachable codepoint_compare sample_reviews sample_boxes demo_unchecked
  /\ NoDup (allJournals demo_unchecked).
Proof.
  assert (H : reachable codepoint_compare sample_reviews sample_boxes demo_unchecked).
  { unfold demo_unchecked, demo_none, demo_w0. apply reach_step, reach_step, reach_init. }
  split; [exact H|].
  exact (proj1 (journal_facet_from_dataset codepoint_compare sample_reviews sample_boxes
                  demo_unchecked H)).
Defined.

(** ** Back to page 1 *)

(** X8: Every interaction except a row click, a page button and back/forward
    navigation leaves the page at 1. *)
Theorem interaction_returns_to_page_1 cmp (a : Action) (w : World) :
  resets_page a = true -> page (state (step cmp a w)) = 1.
Proof.
  destruct a as [|n|c v| | |v b| | |v b|key|j| |h|idx|kind value|np];
    intros H; try discriminate H; try (step_eq; wnorm; lia).
  destruct (String.eqb_spec kind "journal") as [->|Hk].
  - rewrite step_NameLinkClick_journal. wnorm. lia.
  - apply String.eqb_neq in Hk. rewrite step_NameLinkClick_other by exact Hk.
    wnorm. lia.
Qed.

Lemma interaction_returns_to_page_1_witness :
  resets_page (ControlChange TitleFilter "x") = true
  /\ page (state demo_w) = 2
  /\ page (state (step codepoint_compare (ControlChange TitleFilter "x") demo_w)) = 1.
Proof.
  split; [reflexivity|]. split; [vm_compute; reflexivity|].
  exact (interaction_returns_to_page_1 codepoint_compare (ControlChange TitleFilter "x")
           demo_w eq_refl).
Defined.

(** ** The rows of a page *)

Lemma slice_chunk {A} (l : list A) (a s : Z) :
  0 <= a -> 0 <= s ->
  slice l a (a + s) = firstn (Z.to_nat s) (skipn (Z.to_nat a) l).
Proof.
  intros Ha Hs. unfold slice.
  destruct (Z.ltb_spec a 0) as [H|_]; [lia|].
  destruct (Z.ltb_spec (a + s) 0) as [H|_]; [lia|].
  set (len := Z.of_nat (List.length l)).
  destruct (Z.le_gt_cases a len) as [Hle|Hgt].
  - rewrite (Z.min_l a len) by lia.
    destruct (Z.le_gt_cases (a + s) len) as [Hle'|Hgt'].
    + rewrite (Z.min_l (a + s) len) by lia. f_equal. lia.
    + rewrite (Z.min_r (a + s) len) by lia.
      assert (HL : List.length (skipn (Z.to_nat a) l) = Z.to_nat (len - a)).
      { rewrite length_skipn. unfold len. lia. }
      rewrite <- HL, firstn_all. symmetry. apply firstn_all2. lia.
  - rewrite (Z.min_r a len), (Z.min_r (a + s) len) by lia.
    rewrite Z.sub_diag. cbn [Z.to_nat firstn].
    rewrite (skipn_all2 l) by (unfold len in Hgt; lia).
    symmetry. apply firstn_nil.
Qed.

Lemma chunks_concat {A} (s : nat) :
  (0 < s)%nat ->
  forall n (l : list A), (List.length l <= n * s)%nat ->
  concat (map (fun k => firstn s (skipn (k * s) l)) (seq 0 n)) = l.
Proof.
  intros Hs n. induction n as [|n IH]; intros l Hl.
  - destruct l; [reflexivity | cbn in Hl; lia].
  - cbn [seq map concat]. rewrite <- seq_shift, map_map.
    rewrite (map_ext _ (fun k => firstn s (skipn (k * s) (skipn s l)))).
    + rewrite IH by (rewrite length_skipn; lia).
      cbn [Nat.mul skipn]. apply firstn_skipn.
    + intros k. rewrite skipn_skipn. do 2 f_equal. lia.
Qed.

Lemma build_rows_entries e i l : map row_entry (build_rows e i l) = l.
Proof.
  revert i. induction l as [|r t IH]; intros i; [reflexivity|].
  cbn [build_rows map row_entry]. rewrite IH. reflexivity.
Qed.

Lemma build_rows_length e i l : List.length (build_rows e i l) = List.length l.
Proof. rewrite <- (build_rows_entries e i l) at 2. symmetry. apply length_map. Qed.

Lemma build_rows_idx e i l :
  map row_idx (build_rows e i l) = zrange i (i + Z.of_nat (List.length l) - 1).
Proof.
  revert i. induction l as [|r t IH]; intros i.
  - cbn [build_rows map List.length]. symmetry. apply zrange_nil. lia.
  - cbn [build_rows map row_idx]. rewrite IH, (zrange_cons i) by (cbn [List.length]; lia).
    do 2 f_equal. cbn [List.length]. lia.
Qed.

Lemma build_rows_In e i l row :
  In row (build_rows e i l) ->
  exists k, nth_error l k = Some (row_entry row)
            /\ row_idx row = i + Z.of_nat k
            /\ row_expanded row
               = match e with Some x => x =? row_idx row | None => false end.
Proof.
  revert i. induction l as [|r t IH]; intros i; [intros []|].
  cbn [build_rows In]. intros [<-|H].
  - exists 0%nat. cbn. repeat split. lia.
  - destruct (IH _ H) as (k & H1 & H2 & H3). exists (S k). cbn [nth_error].
    repeat split; [exact H1 | lia | exact H3].
Qed.

Lemma render_rows cmp w :
  rows (render cmp w)
  = build_rows (expandedIdx (state (render cmp w)))
      ((page (state (render cmp w)) - 1) * perPage (state (render cmp w)))
      (slice (filtered (render cmp w))
         ((page (state (render cmp w)) - 1) * perPage (state (render cmp w)))
         ((page (state (render cmp w)) - 1) * perPage (state (render cmp w))
          + perPage (state (render cmp w)))).
Proof. reflexivity. Qed.

Lemma row_eq (r1 r2 : Row) :
  row_idx r1 = row_idx r2 -> row_entry r1 = row_entry r2 ->
  row_expanded r1 = row_expanded r2 -> r1 = r2.
Proof. destruct r1, r2. cbn. intros -> -> ->. reflexivity. Qed.

Lemma nth_error_chunk {A} (l : list A) (a s k : nat) x :
  nth_error (firstn s (skipn a l)) k = Some x ->
  nth_error l (a + k) = Some x /\ (k < s)%nat.
Proof.
  intros H.
  assert (Hk : (k < s)%nat).
  { assert (Hl : (k < List.length (firstn s (skipn a l)))%nat)
      by (apply nth_error_Some; congruence).
    rewrite length_firstn in Hl. lia. }
  split; [|exact Hk].
  rewrite nth_error_firstn in H.
  destruct (Nat.ltb_spec k s); [|lia].
  rewrite nth_error_skipn in H. exact H.
Qed.

(** X9: What [render] puts in the table, for a sort key that is not
    inherited, a positive page size and a page of at least 1: the rows hold the entries of the sorted list from
    position [(page - 1) * perPage] on, at most [perPage] of them; a row's
    index is its position in that list; there is a row as soon as an entry
    passes the filter; a row is expanded exactly when its index is the
    expanded index, so at most one row is. *)
Theorem rows_address_sorted_list cmp (w : World) :
  renderable w -> 1 <= page (state w) ->
  let w' := render cmp w in
  let start := (page (state w') - 1) * perPage (state w') in
  map row_entry (rows w')
  = firstn (Z.to_nat (perPage (state w'))) (skipn (Z.to_nat start) (filtered w'))
  /\ map row_idx (rows w') = zrange start (start + Z.of_nat (List.length (rows w')) - 1)
  /\ (forall row, In row (rows w') ->
        nth_error (filtered w') (Z.to_nat (row_idx row)) = Some (row_entry row)
        /\ start <= row_idx row < start + perPage (state w'))
  /\ Z.of_nat (List.length (rows w')) <= perPage (state w')
  /\ (filtered w' <> [] -> rows w' <> [])
  /\ (forall row, In row (rows w') ->
        row_expanded row = true <-> expandedIdx (state w') = Some (row_idx row))
  /\ (forall r1 r2, In r1 (rows w') -> In r2 (rows w') ->
        row_expanded r1 = true -> row_expanded r2 = true -> r1 = r2).
Proof.
  intros [_ Hs] Hp w' start.
  assert (Hs' : 0 < perPage (state w')) by (unfold w'; rewrite render_perPage; exact Hs).
  assert (Hp' : 1 <= page (state w') <= totalPages w')
    by (split; [apply render_page_ge, Hp | apply render_page_le]).
  assert (Hstart : 0 <= start) by (unfold start; nia).
  assert (HR : rows w'
               = build_rows (expandedIdx (state w')) start
                   (firstn (Z.to_nat (perPage (state w')))
                           (skipn (Z.to_nat start) (filtered w')))).
  { unfold w' at 1. rewrite render_rows. fold w'. fold start.
    rewrite slice_chunk by lia. reflexivity. }
  assert (HIn : forall row, In row (rows w') ->
            nth_error (filtered w') (Z.to_nat (row_idx row)) = Some (row_entry row)
            /\ start <= row_idx row < start + perPage (state w')
            /\ row_expanded row
               = match expandedIdx (state w') with
                 | Some x => x =? row_idx row | None => false end).
  { intros row Hrow. rewrite HR in Hrow.
    destruct (build_rows_In _ _ _ _ Hrow) as (k & H1 & H2 & H3).
    apply nth_error_chunk in H1. destruct H1 as [H1 Hk].
    split; [|split; [lia | exact H3]].
    rewrite H2. replace (Z.to_nat (start + Z.of_nat k)) with (Z.to_nat start + k)%nat by lia.
    exact H1. }
  assert (Hexp : forall row, In row (rows w') ->
            row_expanded row = true <-> expandedIdx (state w') = Some (row_idx row)).
  { intros row Hrow. destruct (HIn row Hrow) as (_ & _ & ->).
    destruct (expandedIdx (state w')) as [x|]; [|split; discriminate].
    rewrite Z.eqb_eq. split; [intros ->; reflexivity | intros [= ->]; reflexivity]. }
  split; [rewrite HR; apply build_rows_entries|].
  split; [rewrite HR at 1; rewrite build_rows_idx, <- (build_rows_length
            (expandedIdx (state w')) start), <- HR; reflexivity|].
  split; [intros row Hrow; destruct (HIn row Hrow) as (H1 & H2 & _); split; assumption|].
  split.
  { rewrite HR, build_rows_length, length_firstn. lia. }
  split.
  { intros Hne Hrows. rewrite HR in Hrows.
    apply (f_equal (@List.length Row)) in Hrows.
    rewrite build_rows_length, length_firstn, length_skipn in Hrows.
    cbn [List.length] in Hrows.
    assert (Hlen : (0 < List.length (filtered w'))%nat)
      by (destruct (filtered w'); [congruence | cbn; lia]).
    assert (HT : totalPages w'
                 = Z.max 1 (ceil_div (Z.of_nat (List.length (filtered w')))
                                     (perPage (state w'))))
      by (apply render_pagination_invariant, Hp).
    pose proof (ceil_div_spec (Z.of_nat (List.length (filtered w'))) _ Hs') as Hc.
    assert (start < Z.of_nat (List.length (filtered w'))) by (unfold start; nia).
    lia. }
  split; [exact Hexp|].
  intros r1 r2 H1 H2 E1 E2.
  pose proof (proj1 (Hexp r1 H1) E1) as X1. pose proof (proj1 (Hexp r2 H2) E2) as X2.
  assert (Hidx : row_idx r1 = row_idx r2) by congruence.
  apply row_eq; [exact Hidx | | congruence].
  destruct (HIn r1 H1) as (N1 & _). destruct (HIn r2 H2) as (N2 & _).
  rewrite Hidx in N1. congruence.
Qed.

Lemma rows_address_sorted_list_witness :
  renderable demo_w /\ 1 <= page (state demo_w)
  /\ Z.of_nat (List.length (rows (render codepoint_compare demo_w)))
     <= perPage (state (render codepoint_compare demo_w)).
Proof.
  assert (H1 : renderable demo_w) by (split; vm_compute; reflexivity).
  assert (H2 : 1 <= page (state demo_w)) by (vm_compute; discriminate).
  split; [exact H1|]. split; [exact H2|].
  exact (proj1 (proj2 (proj2 (proj2
           (rows_address_sorted_list codepoint_compare demo_w H1 H2))))).
Defined.

(** ** The pages taken together *)

Lemma page_entries_chunk cmp w k :
  0 < perPage (state w) -> 1 <= k <= totalPages (render cmp w) ->
  page_entries cmp w k
  = firstn (Z.to_nat (perPage (state w)))
           (skipn (Z.to_nat ((k - 1) * perPage (state w))) (filtered (render cmp w))).
Proof.
  intros Hs Hk. unfold page_entries. rewrite render_rows, build_rows_entries.
  assert (HT : totalPages (render cmp (with_page k w)) = totalPages (render cmp w))
    by (wnorm; reflexivity).
  assert (HP : page (state (render cmp (with_page k w))) = k).
  { rewrite render_page, HT. rewrite render_totalPages in Hk. wnorm. lia. }
  assert (HF : filtered (render cmp (with_page k w)) = filtered (render cmp w))
    by (wnorm; reflexivity).
  assert (HS : perPage (state (render cmp (with_page k w))) = perPage (state w))
    by (wnorm; reflexivity).
  rewrite HP, HF, HS. apply slice_chunk; nia.
Qed.

(** X10: For a sort key that is not inherited and a positive page size, the
    pages 1 to [totalPages] taken one after the other show the sorted list
    of passing entries exactly once: no entry is skipped or shown on two
    pages.  Every page before the last is full, and the last holds at
    least one entry unless nothing passes. *)
Theorem pages_partition cmp (w : World) :
  renderable w ->
  let T := totalPages (render cmp w) in
  concat (map (page_entries cmp w) (zrange 1 T)) = filtered (render cmp w)
  /\ (forall k, 1 <= k < T ->
        Z.of_nat (List.length (page_entries cmp w k)) = perPage (state w))
  /\ (filtered (render cmp w) <> [] ->
        1 <= Z.of_nat (List.length (page_entries cmp w T)) <= perPage (state w)).
Proof.
  intros [_ Hs] T.
  set (S := filtered (render cmp w)).
  set (s := perPage (state w)) in *.
  assert (HT : T = Z.max 1 (ceil_div (Z.of_nat (List.length S)) s)).
  { unfold T, S, s. rewrite render_totalPages, render_filtered, sort_by_length.
    reflexivity. }
  pose proof (ceil_div_spec (Z.of_nat (List.length S)) s Hs) as Hc.
  assert (Hchunk : forall k, 1 <= k <= T ->
            page_entries cmp w k
            = firstn (Z.to_nat s) (skipn (Z.to_nat ((k - 1) * s)) S))
    by (intros k Hk; apply page_entries_chunk; assumption).
  split; [|split].
  - unfold zrange. rewrite map_map.
    rewrite (map_ext_in _ (fun k => firstn (Z.to_nat s) (skipn (k * Z.to_nat s) S))).
    + replace (T + 1 - 1) with T by lia.
      apply chunks_concat; [lia|]. nia.
    + intros k Hk. apply in_seq in Hk. rewrite Hchunk by lia.
      do 2 f_equal. nia.
  - intros k Hk. rewrite Hchunk, length_firstn, length_skipn by lia. nia.
  - intros Hne.
    assert (Hlen : (0 < List.length S)%nat) by (destruct S; [congruence | cbn; lia]).
    rewrite Hchunk, length_firstn, length_skipn by lia. nia.
Qed.

Lemma pages_partition_witness :
  renderable demo_w
  /\ concat (map (page_entries codepoint_compare demo_w)
                 (zrange 1 (totalPages (render codepoint_compare demo_w))))
     = filtered (render codepoint_compare demo_w).
Proof.
  assert (H1 : renderable demo_w) by (split; vm_compute; reflexivity).
  split; [exact H1|].
  exact (proj1 (pages_partition codepoint_compare demo_w H1)).
Defined.

(** ** The fragment and the view *)

Lemma in_sync_syncToUrl w : in_sync (syncToUrl w).
Proof.
  unfold in_sync. rewrite syncToUrl_eq, hash_with_hash. reflexivity.
Qed.

Lemma readFromUrl_bare w : hash w = "" -> readFromUrl w = w.
Proof. intros H. unfold readFromUrl. rewrite H. reflexivity. Qed.

Section Paging.

Variables (cmp : string -> string -> Z) (reviews : list Entry) (boxes : list string).

(** Rendering a consistent page again, whatever happened to the expanded
    row, finds the same page count and moves no page. *)
Lemma rerender_total w u :
  consistent reviews boxes w ->
  filtered u = filtered w -> perPage (state u) = perPage (state w) ->
  totalPages (render cmp u) = totalPages w.
Proof.
  intros Hc E1 E2. rewrite render_totalPages, E1, E2. symmetry. apply (cons_totalPages _ _ _ Hc).
Qed.

Lemma rerender_page w u :
  consistent reviews boxes w ->
  filtered u = filtered w -> perPage (state u) = perPage (state w) ->
  page (state u) <= totalPages w ->
  page (state (render cmp u)) = page (state u).
Proof.
  intros Hc E1 E2 Hp. rewrite render_page, (rerender_total w u Hc E1 E2). lia.
Qed.

Lemma in_sync_rerender w u :
  consistent reviews boxes w -> in_sync w ->
  filtered u = filtered w -> perPage (state u) = perPage (state w) ->
  page (state u) = page (state w) ->
  sortKey (state u) = sortKey (state w) -> sortDir (state u) = sortDir (state w) ->
  els u = els w -> hash u = hash w ->
  allJournals u = allJournals w -> selectedJournals u = selectedJournals w ->
  allSubfields u = allSubfields w -> selectedSubfields u = selectedSubfields w ->
  in_sync (render cmp u).
Proof.
  intros Hc Hs E1 E2 E3 E4 E5 E6 E7 E8 E9 E10 E11. unfold in_sync in *.
  rewrite render_hash, E7, Hs. f_equal. symmetry.
  apply url_params_ext;
    rewrite ?render_els, ?render_allJournals, ?render_selectedJournals,
      ?render_allSubfields, ?render_selectedSubfields, ?render_sortKey, ?render_sortDir;
    try assumption.
  rewrite (rerender_page w u Hc E1 E2); [exact E3|].
  rewrite E3. apply (cons_page _ _ _ Hc).
Qed.

(** X11: On a page reached without an exception whose fragment encodes the
    view, every interaction but a back/forward navigation that ends in a
    renderable world (no inherited sort key, a positive page size) leaves
    a fragment that encodes the view: the handlers that change the filter,
    the sort or the page write it anew after rendering, and a row click
    changes nothing the fragment holds. *)
Theorem fragment_tracks_view (a : Action) (w : World) :
  browsable cmp reviews boxes w -> renderable (step cmp a w) -> in_sync w ->
  (forall h, a <> PopState h) ->
  in_sync (step cmp a w).
Proof.
  intros Hb _ Hs Ha. pose proof (browsable_reachable cmp reviews boxes w Hb) as Hr.
  pose proof (consistent_reachable cmp reviews boxes w Hr) as Hc.
  destruct a as [|n|c v| | |v b| | |v b|key|j| |h|idx|kind value|np];
    try (step_eq; rewrite ?refilter_eq; apply in_sync_syncToUrl).
  - exfalso. apply (Ha h). reflexivity.
  - rewrite step_RowClick. unfold row_click.
    apply (in_sync_rerender w); wnorm; try reflexivity; assumption.
  - destruct (String.eqb_spec kind "journal") as [->|Hk].
    + rewrite step_NameLinkClick_journal, refilter_eq. apply in_sync_syncToUrl.
    + apply String.eqb_neq in Hk. rewrite step_NameLinkClick_other by exact Hk.
      rewrite refilter_eq. apply in_sync_syncToUrl.
  - rewrite step_PageButtonClick.
    destruct ((np >=? 1) && (np <=? totalPages w)); [apply in_sync_syncToUrl | exact Hs].
Qed.

(** X12: A page button inside [1, totalPages] of a page reached without an
    exception shows that page and writes it to the fragment; a button
    outside, such as the arrows at either end, changes nothing at all. *)
Theorem page_button_click (np : Z) (w : World) :
  browsable cmp reviews boxes w ->
  let w' := step cmp (PageButtonClick np) w in
  (1 <= np <= totalPages w ->
     page (state w') = np /\ totalPages w' = totalPages w
     /\ pagination w' = renderPagination (totalPages w) np
     /\ URLSearchParams.get (url_params w') "page"
        = (if np >? 1 then Some (JS.string_of_Z np) else None)
     /\ in_sync w')
  /\ (~ (1 <= np <= totalPages w) -> w' = w).
Proof.
  intros Hb w'. pose proof (browsable_reachable cmp reviews boxes w Hb) as Hr.
  pose proof (consistent_reachable cmp reviews boxes w Hr) as Hc.
  subst w'. rewrite step_PageButtonClick. split.
  - intros Hnp.
    destruct (Z.geb_spec np 1) as [_|H]; [|lia].
    destruct (Z.leb_spec np (totalPages w)) as [_|H]; [|lia].
    cbn [andb].
    assert (HT : totalPages (render cmp (with_page np w)) = totalPages w)
      by (apply (rerender_total w); [exact Hc | wnorm; reflexivity..]).
    assert (HP : page (state (render cmp (with_page np w))) = np).
    { rewrite (rerender_page w); wnorm; try reflexivity; try assumption. lia. }
    assert (HP' : page (state (syncToUrl (render cmp (with_page np w)))) = np).
    { rewrite syncToUrl_eq, state_with_hash. exact HP. }
    split; [exact HP'|].
    split; [rewrite syncToUrl_eq, totalPages_with_hash; exact HT|].
    split.
    { rewrite syncToUrl_eq, pagination_with_hash, render_pagination, HT, HP. reflexivity. }
    split; [rewrite url_get_page, HP'; reflexivity | apply in_sync_syncToUrl].
  - intros Hnp.
    destruct (Z.geb_spec np 1) as [H1|H1];
      destruct (Z.leb_spec np (totalPages w)) as [H2|H2]; cbn [andb]; try reflexivity.
    exfalso. apply Hnp. lia.
Qed.


End Paging.

Lemma fragment_tracks_view_witness :
  browsable codepoint_compare sample_reviews sample_boxes demo_w
  /\ renderable (step codepoint_compare (RowClick 1) demo_w)
  /\ in_sync demo_w
  /\ in_sync (step codepoint_compare (RowClick 1) demo_w).
Proof.
  assert (Hr : renderable (step codepoint_compare (RowClick 1) demo_w))
    by (split; vm_compute; reflexivity).
  assert (Hs : in_sync demo_w) by (vm_compute; reflexivity).
  split; [exact demo_w_browsable|]. split; [exact Hr|]. split; [exact Hs|].
  apply (fragment_tracks_view codepoint_compare sample_reviews sample_boxes
           (RowClick 1) demo_w demo_w_browsable Hr Hs).
  intros h. discriminate.
Defined.

Lemma page_button_click_witness :
  browsable codepoint_compare sample_reviews sample_boxes demo_w
  /\ 1 <= 1 <= totalPages demo_w
  /\ page (state demo_w) = 2
  /\ page (state (step codepoint_compare (PageButtonClick 1) demo_w)) = 1.
Proof.
  pose proof demo_w_browsable as H.
  assert (Hp : 1 <= 1 <= totalPages demo_w) by (vm_compute; split; discriminate).
  split; [exact H|]. split; [exact Hp|]. split; [vm_compute; reflexivity|].
  exact (proj1 (proj1 (page_button_click codepoint_compare sample_reviews sample_boxes
                         1 demo_w H) Hp)).
Defined.


(** ** The global search *)

Lemma prefix_empty (s : string) : String.prefix "" s = true.
Proof. destruct s; reflexivity. Qed.

Lemma prefix_app (n a b : string) :
  String.prefix n a = true -> String.prefix n (a ++ b) = true.
Proof.
  revert a. induction n as [|c n IH]; intros a H; [apply prefix_empty|].
  destruct a as [|d a]; [discriminate H|].
  cbn [String.prefix append] in *. destruct (ascii_dec c d); [apply IH, H | discriminate H].
Qed.

Lemma includes_app_l (a b n : string) :
  JS.includes a n = true -> JS.includes (a ++ b) n = true.
Proof.
  induction a as [|c a IH]; intros H.
  - cbn [JS.includes] in H. rewrite orb_false_r in H.
    destruct n; [|discriminate H]. cbn [append].
    destruct b; cbn [JS.includes]; rewrite prefix_empty; reflexivity.
  - cbn [JS.includes append] in *. apply orb_true_iff in H. apply orb_true_iff.
    destruct H as [H|H]; [left; apply (prefix_app n (String c a) b H) | right; apply IH, H].
Qed.

Lemma includes_app_r (a b n : string) :
  JS.includes b n = true -> JS.includes (a ++ b) n = true.
Proof.
  intros H. induction a as [|c a IH]; [exact H|].
  cbn [JS.includes append]. rewrite IH. apply orb_true_r.
Qed.

Lemma toLowerCase_app (a b : string) :
  JS.toLowerCase (a ++ b) = (JS.toLowerCase a ++ JS.toLowerCase b)%string.
Proof.
  induction a as [|c a IH]; [reflexivity|].
  cbn [JS.toLowerCase append]. rewrite IH. reflexivity.
Qed.

Lemma lower_char_idem c : JS.lower_char (JS.lower_char c) = JS.lower_char c.
Proof. destruct c as [[] [] [] [] [] [] [] []]; reflexivity. Qed.

Lemma toLowerCase_idem s : JS.toLowerCase (JS.toLowerCase s) = JS.toLowerCase s.
Proof.
  induction s as [|c s IH]; [reflexivity|].
  cbn [JS.toLowerCase]. rewrite lower_char_idem, IH. reflexivity.
Qed.

Lemma blob_eq r :
  blob r
  = (JS.toLowerCase (title r) ++ " " ++ JS.toLowerCase (author r) ++ " "
     ++ JS.toLowerCase (reviewer r) ++ " " ++ JS.toLowerCase (journal r) ++ " "
     ++ JS.toLowerCase (JS.to_string (date r)) ++ " "
     ++ JS.toLowerCase (JS.or_empty (subfield_name (subfield r))))%string.
Proof.
  unfold blob. rewrite !toLowerCase_app, toLowerCase_idem. reflexivity.
Qed.

Lemma blob_includes r f g :
  In f (searched_fields r) ->
  JS.includes (JS.toLowerCase f) g = true -> JS.includes (blob r) g = true.
Proof.
  intros Hf Hg. rewrite blob_eq. unfold searched_fields in Hf. cbn [In] in Hf.
  destruct Hf as [<-|[<-|[<-|[<-|[<-|[<-|[]]]]]]].
  - apply includes_app_l, Hg.
  - do 2 apply includes_app_r. apply includes_app_l, Hg.
  - do 4 apply includes_app_r. apply includes_app_l, Hg.
  - do 6 apply includes_app_r. apply includes_app_l, Hg.
  - do 8 apply includes_app_r. apply includes_app_l, Hg.
  - do 10 apply includes_app_r. exact Hg.
Qed.

(** The global search is the first clause of the filter and the only one
    that reads the search box. *)
Lemma search_clause w r :
  entry_passes w r
  = if JS.truthy (JS.trim (JS.toLowerCase (globalSearch (els w))))
       && negb (JS.includes (blob r) (JS.trim (JS.toLowerCase (globalSearch (els w)))))
    then false
    else entry_passes (with_control GlobalSearch "" w) r.
Proof.
  unfold entry_passes at 1. cbv zeta.
  destruct (JS.truthy (JS.trim (JS.toLowerCase (globalSearch (els w))))
            && negb (JS.includes (blob r) (JS.trim (JS.toLowerCase (globalSearch (els w))))));
    [reflexivity|].
  reflexivity.
Qed.

Lemma search_box_only q w r :
  entry_passes (with_control GlobalSearch "" (with_control GlobalSearch q w)) r
  = entry_passes (with_control GlobalSearch "" w) r.
Proof. reflexivity. Qed.

(** X14: A query that occurs, after lower-casing both, in the title, the
    author, the reviewer, the journal, the date or the subfield name of an
    entry never excludes it: the entry passes exactly as it does with an
    empty search box. *)
Theorem global_search_covers_fields (w : World) (r : Entry) (q f : string) :
  In f (searched_fields r) ->
  JS.includes (JS.toLowerCase f) (JS.trim (JS.toLowerCase q)) = true ->
  entry_passes (with_control GlobalSearch q w) r
  = entry_passes (with_control GlobalSearch "" w) r.
Proof.
  intros Hf Hg. rewrite search_clause.
  replace (globalSearch (els (with_control GlobalSearch q w))) with q by reflexivity.
  rewrite (blob_includes r f _ Hf Hg), andb_false_r.
  apply search_box_only.
Qed.

Lemma global_search_covers_fields_witness :
  In (author sample_2012) (searched_fields sample_2012)
  /\ JS.includes (JS.toLowerCase (author sample_2012))
                 (JS.trim (JS.toLowerCase "HOBBES ")) = true
  /\ entry_passes (with_control GlobalSearch "HOBBES " demo_w0) sample_2012 = true.
Proof.
  assert (H : In (author sample_2012) (searched_fields sample_2012))
    by (right; left; reflexivity).
  assert (G : JS.includes (JS.toLowerCase (author sample_2012))
                          (JS.trim (JS.toLowerCase "HOBBES ")) = true)
    by (vm_compute; reflexivity).
  split; [exact H|]. split; [exact G|].
  rewrite (global_search_covers_fields demo_w0 sample_2012 "HOBBES " _ H G).
  vm_compute. reflexivity.
Defined.

(** ** Shortcuts into the facets *)

Lemma filter_none {A} (f : A -> bool) (l : list A) :
  (forall x, In x l -> f x = false) -> List.filter f l = [].
Proof.
  induction l as [|x l IH]; intros H; [reflexivity|].
  cbn [List.filter]. rewrite (H x (or_introl eq_refl)). apply IH.
  intros y Hy. apply H. right. exact Hy.
Qed.

Lemma journal_clause_excludes w r :
  filterByJournal w = true -> JSSet.has (selectedJournals w) (journal r) = false ->
  entry_passes w r = false.
Proof.
  intros H1 H2. unfold entry_passes. rewrite H1, H2. cbn [negb andb].
  repeat match goal with
         | |- (if ?c then false else _) = false => destruct c; [reflexivity|]
         end.
  reflexivity.
Qed.

Lemma subfield_clause_excludes w r :
  filterBySubfield w = true -> selectedSubfields w = [] ->
  entry_passes w r = false.
Proof.
  intros H1 H2. unfold entry_passes. rewrite H1, H2.
  replace (JSSet.has_opt [] (subfield r)) with false by (destruct (subfield r); reflexivity).
  replace (JSSet.has_opt [] (subfield2 r)) with false by (destruct (subfield2 r); reflexivity).
  cbn [negb andb].
  repeat match goal with
         | |- (if ?c then false else _) = false => destruct c; [reflexivity|]
         end.
  reflexivity.
Qed.

Lemma rows_of_empty cmp u : filtered u = [] -> rows (render cmp u) = [].
Proof.
  intros H. rewrite render_rows, render_filtered, H. cbn [sort_by fold_right].
  unfold slice. rewrite skipn_nil, firstn_nil. reflexivity.
Qed.

Lemma update_nothing cmp u :
  (forall r, In r (allReviews u) -> entry_passes u r = false) ->
  filtered (update cmp u) = [] /\ rows (update cmp u) = [].
Proof.
  intros H. pose proof (filter_none _ _ H) as E. split.
  - rewrite filtered_update, E. reflexivity.
  - rewrite update_eq. apply rows_of_empty. rewrite applyFilters_eq, filtered_with_filtered.
    exact E.
Qed.

(** With a blank form and the subfield facet switched off, the journal
    facet alone decides. *)
Lemma journal_only w r :
  els w = empty_form -> filterBySubfield w = false ->
  entry_passes w r
  = negb (filterByJournal w && negb (JSSet.has (selectedJournals w) (journal r))).
Proof.
  intros H1 H2. unfold entry_passes. rewrite H1, H2. cbv zeta.
  cbn [globalSearch titleFilter authorFilter reviewerFilter yearFrom yearTo accessFilter
       typeFilter empty_form JS.toLowerCase JS.trim JS.trimStart JS.trimEnd JS.truthy
       andb year_bound JS.num_truthy orb year_passes].
  destruct (filterByJournal w && negb (JSSet.has (selectedJournals w) (journal r)));
    reflexivity.
Qed.

Lemma prefix_trimEnd (s : string) : String.prefix (JS.trimEnd s) s = true.
Proof.
  induction s as [|c r IH]; [reflexivity|].
  cbn [JS.trimEnd]. destruct (JS.trimEnd r) as [|d r'] eqn:E.
  - destruct (JS.is_space c); [apply prefix_empty|].
    cbn [String.prefix]. destruct (ascii_dec c c); [apply prefix_empty | congruence].
  - cbn [String.prefix]. destruct (ascii_dec c c); [exact IH | congruence].
Qed.

Lemma includes_prefix (s n : string) : String.prefix n s = true -> JS.includes s n = true.
Proof. intros H. destruct s; cbn [JS.includes]; rewrite H; reflexivity. Qed.

Lemma includes_trim (s : string) : JS.includes s (JS.trim s) = true.
Proof.
  unfold JS.trim. induction s as [|c r IH]; [reflexivity|].
  cbn [JS.trimStart]. destruct (JS.is_space c).
  - cbn [JS.includes]. rewrite IH. apply orb_true_r.
  - apply includes_prefix, prefix_trimEnd.
Qed.

Section Shortcuts.

Variables (cmp : string -> string -> Z) (reviews : list Entry) (boxes : list string).

Lemma reachable_journal_listed w r :
  reachable cmp reviews boxes w -> In r reviews -> In (journal r) (allJournals w).
Proof.
  intros H Hr. rewrite (reachable_allJournals cmp reviews boxes w H).
  apply fresh_journals_In. exists r. split; [exact Hr | reflexivity].
Qed.

Lemma reachable_journals_NoDup w :
  reachable cmp reviews boxes w -> NoDup (allJournals w).
Proof.
  intros H. rewrite (reachable_allJournals cmp reviews boxes w H).
  apply fresh_journals_NoDup.
Qed.

(** X15: "Select none" on the journal facet of a reachable page empties the
    table; so does "select none" on the subfield facet when the page has a
    subfield checkbox.  Neither empty selection is written to the
    fragment. *)
Theorem select_none_shows_nothing (w : World) :
  reachable cmp reviews boxes w ->
  let wj := step cmp JournalSelectNone w in
  let ws := step cmp SubfieldSelectNone w in
  filtered wj = [] /\ rows wj = []
  /\ URLSearchParams.get (url_params wj) "journals" = None
  /\ (boxes <> [] -> filtered ws = [] /\ rows ws = [])
  /\ URLSearchParams.get (url_params ws) "subfield" = None.
Proof.
  intros Hr wj ws. pose proof (consistent_reachable cmp reviews boxes w Hr) as Hc.
  pose proof (cons_allReviews _ _ _ Hc) as HR.
  pose proof (cons_allSubfields _ _ _ Hc) as HS.
  assert (Hj : filtered wj = [] /\ rows wj = []).
  { unfold wj. rewrite step_JournalSelectNone, refilter_eq, syncToUrl_eq,
      filtered_with_hash, rows_with_hash.
    apply update_nothing. intros r Hin. apply journal_clause_excludes.
    - unfold filterByJournal. wnorm. rewrite size_lt_length. apply Nat.ltb_lt.
      cbn [List.length].
      assert (Hl : In (journal r) (allJournals w)).
      { apply reachable_journal_listed; [exact Hr|]. rewrite <- HR.
        revert Hin. wnorm. exact (fun H => H). }
      destruct (allJournals w); [destruct Hl | cbn; lia].
    - wnorm. reflexivity. }
  split; [exact (proj1 Hj)|]. split; [exact (proj2 Hj)|].
  split.
  { rewrite url_get_journals. unfold wj.
    rewrite step_JournalSelectNone. wnorm. reflexivity. }
  split.
  { intros Hb. unfold ws. rewrite step_SubfieldSelectNone, refilter_eq, syncToUrl_eq,
      filtered_with_hash, rows_with_hash.
    apply update_nothing. intros r Hin. apply subfield_clause_excludes.
    - unfold filterBySubfield. wnorm. rewrite size_lt_length, HS. apply Nat.ltb_lt.
      destruct boxes; [congruence | cbn; lia].
    - wnorm. reflexivity. }
  rewrite url_get_subfield. unfold ws.
  rewrite step_SubfieldSelectNone. wnorm. reflexivity.
Qed.

(** X16: On a page reached without an exception, a source card, or the
    journal link of a row, for a journal of the dataset shows exactly the
    entries of that journal, on page 1, sorted by date descending, with
    that journal as the only selection.  Both handlers lead to the same
    page. *)
Theorem journal_shortcut_shows_journal (w : World) (j : string) :
  browsable cmp reviews boxes w -> NoDup boxes -> In j (allJournals w) ->
  let w' := step cmp (SourceCardClick j) w in
  step cmp (NameLinkClick "journal" j) w = w'
  /\ (forall r, In r (filtered w') <-> In r reviews /\ journal r = j)
  /\ Permutation (filtered w')
                 (List.filter (fun r => String.eqb (journal r) j) reviews)
  /\ selectedJournals w' = [j]
  /\ sortKey (state w') = "date" /\ sortDir (state w') = "desc"
  /\ page (state w') = 1.
Proof.
  intros Hb HB Hj w'. pose proof (browsable_reachable cmp reviews boxes w Hb) as Hr.
  pose proof (consistent_reachable cmp reviews boxes w Hr) as Hc.
  pose proof (cons_allReviews _ _ _ Hc) as HR.
  pose proof (cons_allSubfields _ _ _ Hc) as HS.
  pose proof (reachable_journals_NoDup w Hr) as HJ.
  subst w'. rewrite step_NameLinkClick_journal, step_SourceCardClick.
  set (X := with_state _ _).
  assert (EX : els (with_page 1 X) = empty_form) by (unfold X; wnorm; reflexivity).
  assert (SX : selectedJournals (with_page 1 X) = [j]) by (unfold X; wnorm; reflexivity).
  assert (AX : allJournals (with_page 1 X) = allJournals w) by (unfold X; wnorm; reflexivity).
  assert (RX : allReviews X = reviews) by (unfold X; wnorm; exact HR).
  assert (FX : filterBySubfield (with_page 1 X) = false).
  { unfold filterBySubfield. unfold X. wnorm. rewrite HS. apply of_list_size_full, HB. }
  assert (HP : forall r, In r reviews ->
                 entry_passes (with_page 1 X) r = String.eqb (journal r) j).
  { intros r Hin. rewrite (journal_only _ r EX FX). unfold filterByJournal.
    rewrite SX, AX, size_lt_length. cbn [List.length JSSet.has existsb].
    rewrite orb_false_r.
    pose proof (reachable_journal_listed w r Hr Hin) as Hl.
    destruct (Nat.ltb_spec 1 (List.length (allJournals w))) as [_|Hle].
    - cbn [andb]. apply negb_involutive.
    - cbn [andb negb]. symmetry. apply String.eqb_eq.
      destruct (allJournals w) as [|a [|b t]]; [destruct Hj | | cbn in Hle; lia].
      destruct Hj as [<-|[]]. destruct Hl as [<-|[]]. reflexivity. }
  assert (HF : filtered (refilter cmp X)
               = sort_by (compare_entries cmp (sortKey (state X)) (sortDir (state X)))
                   (List.filter (fun r => String.eqb (journal r) j) reviews)).
  { rewrite filtered_refilter, RX. f_equal. apply filter_ext_in. exact HP. }
  split; [reflexivity|].
  split.
  { intros r. rewrite HF, sort_by_In, filter_In, String.eqb_eq. tauto. }
  split; [rewrite HF; apply sort_by_perm|].
  split; [rewrite refilter_eq; unfold X; wnorm; reflexivity|].
  split; [rewrite refilter_eq; unfold X; wnorm; reflexivity|].
  split; [rewrite refilter_eq; unfold X; wnorm; reflexivity|].
  rewrite refilter_eq. wnorm. lia.
Qed.

(** X17: The author, reviewer and journal links of a row never lose the row
    they belong to: on a reachable page whose subfield checkboxes hold no
    value twice, the entry whose link is clicked is in the table
    afterwards. *)
Theorem name_link_keeps_entry (w : World) (r : Entry) :
  reachable cmp reviews boxes w -> NoDup boxes -> In r reviews ->
  In r (filtered (step cmp (NameLinkClick "author" (author r)) w))
  /\ In r (filtered (step cmp (NameLinkClick "reviewer" (reviewer r)) w))
  /\ In r (filtered (step cmp (NameLinkClick "journal" (journal r)) w)).
Proof.
  intros Hr HB Hin. pose proof (consistent_reachable cmp reviews boxes w Hr) as Hc.
  pose proof (cons_allReviews _ _ _ Hc) as HR.
  pose proof (cons_allSubfields _ _ _ Hc) as HS.
  pose proof (reachable_journals_NoDup w Hr) as HJ.
  assert (Hsearch : forall kind f,
            String.eqb kind "journal" = false -> In f (searched_fields r) ->
            In r (filtered (step cmp (NameLinkClick kind f) w))).
  { intros kind f Hk Hf. rewrite (step_NameLinkClick_other cmp w kind f Hk).
    rewrite filtered_refilter, sort_by_In, filter_In. split; [wnorm; rewrite HR; exact Hin|].
    set (X := with_page 1 _). rewrite search_clause.
    replace (globalSearch (els X)) with f by (unfold X; wnorm; reflexivity).
    rewrite (blob_includes r f _ Hf (includes_trim (JS.toLowerCase f))), andb_false_r.
    apply unfiltered_passes; unfold X; wnorm; try reflexivity.
    - unfold filterByJournal. wnorm. apply of_list_size_full, HJ.
    - unfold filterBySubfield. wnorm. rewrite HS. apply of_list_size_full, HB. }
  split; [apply Hsearch; [reflexivity | right; left; reflexivity]|].
  split; [apply Hsearch; [reflexivity | right; right; left; reflexivity]|].
  rewrite step_NameLinkClick_journal, filtered_refilter, sort_by_In, filter_In.
  split; [wnorm; rewrite HR; exact Hin|].
  set (X := with_page 1 _).
  assert (SX : selectedJournals X = [journal r]) by (unfold X; wnorm; reflexivity).
  rewrite (journal_only X r).
  - rewrite SX. cbn [JSSet.has existsb]. rewrite String.eqb_refl.
    cbn [orb negb]. rewrite andb_false_r. reflexivity.
  - unfold X. wnorm. reflexivity.
  - unfold filterBySubfield, X. wnorm. rewrite HS. apply of_list_size_full, HB.
Qed.

End Shortcuts.

Lemma select_none_shows_nothing_witness :
  reachable codepoint_compare sample_reviews sample_boxes demo_years
  /\ filtered (step codepoint_compare JournalSelectNone demo_years) = [].
Proof.
  assert (H : reachable codepoint_compare sample_reviews sample_boxes demo_years).
  { unfold demo_years, demo_w0. apply reach_step, reach_step, reach_init. }
  split; [exact H|].
  pose proof (select_none_shows_nothing codepoint_compare sample_reviews sample_boxes
                demo_years H) as K.
  cbv zeta in K. exact (proj1 K).
Defined.

Lemma journal_shortcut_shows_journal_witness :
  browsable codepoint_compare sample_reviews sample_boxes demo_years
  /\ NoDup sample_boxes /\ In "Mind" (allJournals demo_years)
  /\ selectedJournals (step codepoint_compare (SourceCardClick "Mind") demo_years)
     = ["Mind"].
Proof.
  pose proof demo_years_browsable as H.
  assert (HB : NoDup sample_boxes) by concrete_nodup.
  assert (HJ : In "Mind" (allJournals demo_years)) by (vm_compute; tauto).
  split; [exact H|]. split; [exact HB|]. split; [exact HJ|].
  pose proof (journal_shortcut_shows_journal codepoint_compare sample_reviews sample_boxes
                demo_years "Mind" H HB HJ) as K.
  cbv zeta in K. exact (proj1 (proj2 (proj2 (proj2 K)))).
Defined.

Lemma name_link_keeps_entry_witness :
  reachable codepoint_compare sample_reviews sample_boxes demo_none
  /\ NoDup sample_boxes /\ In sample_2012 sample_reviews
  /\ In sample_2012
        (filtered (step codepoint_compare (NameLinkClick "author" (author sample_2012))
                        demo_none)).
Proof.
  assert (H : reachable codepoint_compare sample_reviews sample_boxes demo_none).
  { unfold demo_none, demo_w0. apply reach_step, reach_init. }
  assert (HB : NoDup sample_boxes) by concrete_nodup.
  assert (HI : In sample_2012 sample_reviews) by (left; reflexivity).
  split; [exact H|]. split; [exact HB|]. split; [exact HI|].
  exact (proj1 (name_link_keeps_entry codepoint_compare sample_reviews sample_boxes
                  demo_none sample_2012 H HB HI)).
Defined.

(** ** The expanded row *)

Lemma read_sort_expandedIdx ps w :
  expandedIdx (state (read_sort ps w)) = expandedIdx (state w).
Proof.
  unfold read_sort. destruct (URLSearchParams.get ps "sort") as [v|]; [|reflexivity].
  destruct (JS.split "-" v) as [|k [|d [|x t]]]; reflexivity.
Qed.

Lemma read_page_expandedIdx ps w :
  expandedIdx (state (read_page ps w)) = expandedIdx (state w).
Proof.
  unfold read_page. destruct (URLSearchParams.get ps "page"); reflexivity.
Qed.

Lemma readFromUrl_expandedIdx w :
  expandedIdx (state (readFromUrl w)) = expandedIdx (state w).
Proof.
  rewrite readFromUrl_read_params. unfold read_params. cbv zeta.
  rewrite read_page_expandedIdx, read_sort_expandedIdx, !read_text_state, read_year_state,
    read_journals_state, read_subfield_state, !read_text_state.
  reflexivity.
Qed.

Lemma header_click_expandedIdx key s :
  expandedIdx (header_click key s) = expandedIdx s.
Proof. unfold header_click. destruct (String.eqb (sortKey s) key); reflexivity. Qed.

(** A rendered row is shown expanded exactly when its index is the
    expanded index. *)
Lemma render_row_expanded cmp w row :
  In row (rows (render cmp w)) ->
  row_expanded row = true <-> expandedIdx (state w) = Some (row_idx row).
Proof.
  intros H. rewrite render_rows in H.
  destruct (build_rows_In _ _ _ _ H) as (k & _ & _ & ->).
  rewrite render_expandedIdx.
  destruct (expandedIdx (state w)) as [x|]; [|split; discriminate].
  rewrite Z.eqb_eq. split; [intros ->; reflexivity | intros [= ->]; reflexivity].
Qed.

(** X18: On a renderable page (no inherited sort key, a positive page size)
    a click on a row that is not expanded expands it and nothing else; a
    click on the expanded row collapses it, so that no row is expanded.
    Whatever was expanded before, at most the clicked index is expanded
    afterwards. *)
Theorem row_click_exclusive cmp (idx : Z) (w : World) :
  renderable w ->
  let w' := step cmp (RowClick idx) w in
  expandedIdx (state w')
  = (if match expandedIdx (state w) with Some e => e =? idx | None => false end
     then None else Some idx)
  /\ (forall row, In row (rows w') ->
        row_expanded row = true
        <-> row_idx row = idx /\ expandedIdx (state w) <> Some idx)
  /\ (forall r1 r2, In r1 (rows w') -> In r2 (rows w') ->
        row_expanded r1 = true -> row_expanded r2 = true -> row_idx r1 = row_idx r2).
Proof.
  intros _ w'. subst w'. rewrite step_RowClick.
  set (u := with_state (row_click idx (state w)) w).
  assert (HE : expandedIdx (state u)
               = if match expandedIdx (state w) with Some e => e =? idx | None => false end
                 then None else Some idx).
  { unfold u. rewrite state_with_state. unfold row_click. rewrite expandedIdx_set_expandedIdx.
    destruct (expandedIdx (state w)) as [e|]; [|reflexivity].
    destruct (e =? idx); reflexivity. }
  assert (HR : forall row, In row (rows (render cmp u)) ->
            row_expanded row = true
            <-> row_idx row = idx /\ expandedIdx (state w) <> Some idx).
  { intros row Hrow. rewrite (render_row_expanded cmp u row Hrow), HE.
    clear HE Hrow. clearbody u.
    destruct (expandedIdx (state w)) as [e|].
    - destruct (Z.eqb_spec e idx) as [He|Hne].
      + subst e. split; [discriminate | intros [_ H]; congruence].
      + split; [intros [= <-]; split; [reflexivity | congruence]
               | intros [-> _]; reflexivity].
    - split; [intros [= <-]; split; [reflexivity | discriminate]
             | intros [-> _]; reflexivity]. }
  split; [rewrite render_expandedIdx; exact HE|].
  split; [exact HR|].
  intros r1 r2 H1 H2 E1 E2.
  destruct (proj1 (HR r1 H1) E1) as [-> _]. destruct (proj1 (HR r2 H2) E2) as [-> _].
  reflexivity.
Qed.

Lemma row_click_exclusive_witness :
  renderable demo_w0
  /\ expandedIdx (state (step codepoint_compare (RowClick 0) demo_w0)) = Some 0
  /\ expandedIdx
       (state (step codepoint_compare (RowClick 0)
                 (step codepoint_compare (RowClick 0) demo_w0))) = None.
Proof.
  assert (H : renderable demo_w0) by (split; vm_compute; reflexivity).
  assert (H' : renderable (step codepoint_compare (RowClick 0) demo_w0))
    by (split; vm_compute; reflexivity).
  split; [exact H|]. split.
  - rewrite (proj1 (row_click_exclusive codepoint_compare 0 demo_w0 H)).
    vm_compute. reflexivity.
  - rewrite (proj1 (row_click_exclusive codepoint_compare 0 _ H')).
    vm_compute. reflexivity.
Defined.

(** X19: Changing a filter, a selection, the sort, the page size or the page,
    and back/forward navigation, keep the expanded index.  When the
    interaction ends in a renderable world (no inherited sort key, a
    positive page size), the row at that position of the new list, if it
    is on the page, is the one shown expanded afterwards. *)
Theorem expansion_follows_index cmp (a : Action) (w : World) :
  keeps_expansion a = true ->
  expandedIdx (state (step cmp a w)) = expandedIdx (state w)
  /\ (renderable (step cmp a w) ->
      (forall np, a = PageButtonClick np -> 1 <= np <= totalPages w) ->
      forall row, In row (rows (step cmp a w)) ->
        row_expanded row = true <-> expandedIdx (state w) = Some (row_idx row)).
Proof.
  intros Hk.
  assert (Hsync : forall u row, expandedIdx (state u) = expandedIdx (state w) ->
            In row (rows (syncToUrl (render cmp u))) ->
            row_expanded row = true <-> expandedIdx (state w) = Some (row_idx row)).
  { intros u row Hu Hrow. rewrite syncToUrl_eq, rows_with_hash in Hrow.
    rewrite (render_row_expanded cmp u row Hrow), Hu. reflexivity. }
  assert (Hre : forall u, expandedIdx (state (refilter cmp u)) = expandedIdx (state u))
    by (intros u; wnorm; reflexivity).
  assert (Hrf : forall u row, expandedIdx (state u) = expandedIdx (state w) ->
            In row (rows (refilter cmp u)) ->
            row_expanded row = true <-> expandedIdx (state w) = Some (row_idx row)).
  { intros u row Hu Hrow. rewrite refilter_eq, update_eq in Hrow.
    apply (Hsync (applyFilters (with_page 1 u)) row); [|exact Hrow]. wnorm. exact Hu. }
  destruct a as [|n|c v| | |v b| | |v b|key|j| |h|idx|kind value|np];
    try discriminate Hk;
    try (step_eq; split; [rewrite Hre; wnorm; reflexivity
                         | intros _ _ row; apply Hrf; wnorm; reflexivity]).
  - rewrite step_PerPageChange. split; [wnorm; reflexivity|].
    intros _ _ row. apply Hsync. wnorm. reflexivity.
  - rewrite step_HeaderClick. split; [wnorm; apply header_click_expandedIdx|].
    intros _ _ row. apply Hsync. wnorm. apply header_click_expandedIdx.
  - rewrite step_PopState.
    assert (HE : expandedIdx (state (applyFilters (readFromUrl (with_hash h w))))
                 = expandedIdx (state w)).
    { rewrite applyFilters_eq, state_with_filtered, readFromUrl_expandedIdx,
        state_with_hash. reflexivity. }
    rewrite update_eq. split; [rewrite render_expandedIdx; exact HE|].
    intros _ _ row Hrow. rewrite (render_row_expanded cmp _ row Hrow), HE. reflexivity.
  - rewrite step_PageButtonClick. split.
    + destruct ((np >=? 1) && (np <=? totalPages w)); [wnorm|]; reflexivity.
    + intros _ Hnp row. specialize (Hnp np eq_refl).
      destruct (Z.geb_spec np 1) as [_|H]; [|lia].
      destruct (Z.leb_spec np (totalPages w)) as [_|H]; [|lia].
      cbn [andb]. apply Hsync. wnorm. reflexivity.
Qed.

Lemma expansion_follows_index_witness :
  keeps_expansion (HeaderClick "title") = true
  /\ renderable (step codepoint_compare (HeaderClick "title")
                   (step codepoint_compare (RowClick 0) demo_w0))
  /\ expandedIdx (state (step codepoint_compare (RowClick 0) demo_w0)) = Some 0
  /\ expandedIdx
       (state (step codepoint_compare (HeaderClick "title")
                 (step codepoint_compare (RowClick 0) demo_w0))) = Some 0.
Proof.
  split; [reflexivity|]. split; [split; vm_compute; reflexivity|].
  split; [vm_compute; reflexivity|].
  rewrite (proj1 (expansion_follows_index codepoint_compare (HeaderClick "title")
                    (step codepoint_compare (RowClick 0) demo_w0) eq_refl)).
  vm_compute. reflexivity.
Defined.

(** ** Interactions that filter nothing *)

(** X20: Sorting, changing the page size, paging and clicking a row change
    neither the form nor the selections, and the table lists the same
    entries as before, each as often. *)
Theorem view_changes_keep_entries cmp (a : Action) (w : World) :
  view_action a = true ->
  Permutation (filtered (step cmp a w)) (filtered w)
  /\ els (step cmp a w) = els w
  /\ selectedJournals (step cmp a w) = selectedJournals w
  /\ selectedSubfields (step cmp a w) = selectedSubfields w.
Proof.
  intros Ha.
  destruct a as [|n|c v| | |v b| | |v b|key|j| |h|idx|kind value|np];
    try discriminate Ha.
  - rewrite step_PerPageChange. wnorm. split; [apply sort_by_perm|]. repeat split.
  - rewrite step_HeaderClick. wnorm. split; [apply sort_by_perm|]. repeat split.
  - rewrite step_RowClick. wnorm. split; [apply sort_by_perm|]. repeat split.
  - rewrite step_PageButtonClick.
    destruct ((np >=? 1) && (np <=? totalPages w)); [|repeat split; reflexivity].
    wnorm. split; [apply sort_by_perm|]. repeat split.
Qed.

Lemma view_changes_keep_entries_witness :
  view_action (HeaderClick "title") = true
  /\ Permutation (filtered (step codepoint_compare (HeaderClick "title") demo_years))
                 (filtered demo_years).
Proof.
  split; [reflexivity|].
  exact (proj1 (view_changes_keep_entries codepoint_compare (HeaderClick "title")
                  demo_years eq_refl)).
Defined.

(** ** The order of the table *)

Section InsertionSort.

Context {A : Type} (c : A -> A -> Z).
Hypothesis c_total : forall a b, c a b <= 0 \/ c b a <= 0.
Hypothesis c_trans : forall a b d, c a b <= 0 -> c b d <= 0 -> c a d <= 0.

Lemma insert_by_In x l z : In z (insert_by c x l) -> z = x \/ In z l.
Proof.
  induction l as [|y t IH]; cbn [insert_by].
  - intros [<-|[]]. left. reflexivity.
  - destruct (c x y <=? 0).
    + intros [<-|H]; [left; reflexivity | right; exact H].
    + intros [<-|H]; [right; left; reflexivity|].
      destruct (IH H) as [->|H']; [left; reflexivity | right; right; exact H'].
Qed.

Lemma insert_by_sorted x l :
  Sorted.StronglySorted (fun a b => c a b <= 0) l ->
  Sorted.StronglySorted (fun a b => c a b <= 0) (insert_by c x l).
Proof.
  induction l as [|y t IH]; intros Hs; cbn [insert_by].
  - constructor; constructor.
  - inversion Hs as [|y' t' Ht Hy]; subst.
    destruct (Z.leb_spec (c x y) 0) as [Hxy|Hxy].
    + constructor; [exact Hs|]. constructor; [exact Hxy|].
      rewrite Forall_forall in *. intros z Hz. apply (c_trans x y z Hxy), Hy, Hz.
    + constructor; [apply IH, Ht|].
      rewrite Forall_forall in *. intros z Hz.
      destruct (insert_by_In _ _ _ Hz) as [->|Hz']; [|apply Hy, Hz'].
      destruct (c_total x y); lia.
Qed.

Lemma sort_by_sorted l : Sorted.StronglySorted (fun a b => c a b <= 0) (sort_by c l).
Proof.
  unfold sort_by. induction l as [|x l IH]; cbn [fold_right]; [constructor|].
  apply insert_by_sorted, IH.
Qed.

Lemma sorted_nth (R : A -> A -> Prop) l :
  Sorted.StronglySorted R l ->
  forall i j a b, (i < j)%nat -> nth_error l i = Some a -> nth_error l j = Some b -> R a b.
Proof.
  induction 1 as [|x l Hs IH Hx]; intros i j a b Hij Hi Hj.
  - destruct i; discriminate Hi.
  - destruct j as [|j]; [lia|]. cbn [nth_error] in Hj. destruct i as [|i].
    + cbn [nth_error] in Hi. injection Hi as <-.
      rewrite Forall_forall in Hx. apply Hx. eapply nth_error_In, Hj.
    + cbn [nth_error] in Hi. apply (IH i j); [lia | assumption..].
Qed.

End InsertionSort.

Section SortedTable.

Variable cmp : string -> string -> Z.
Hypothesis cmp_antisym : forall a b, Z.sgn (cmp a b) = - Z.sgn (cmp b a).
Hypothesis cmp_trans : forall a b c, cmp a b <= 0 -> cmp b c <= 0 -> cmp a c <= 0.

Lemma cmp_flip a b : (cmp a b < 0 <-> 0 < cmp b a) /\ (cmp a b = 0 <-> cmp b a = 0).
Proof.
  pose proof (cmp_antisym a b) as H.
  destruct (Z.sgn_spec (cmp a b)) as [[H1 H2]|[[H1 H2]|[H1 H2]]];
    destruct (Z.sgn_spec (cmp b a)) as [[H3 H4]|[[H3 H4]|[H3 H4]]]; lia.
Qed.

Lemma compare_entries_total k d a b :
  compare_entries cmp k d a b <= 0 \/ compare_entries cmp k d b a <= 0.
Proof.
  unfold compare_entries. cbv zeta.
  set (va := JS.toLowerCase (JS.or_empty (prop a k))).
  set (vb := JS.toLowerCase (JS.or_empty (prop b k))).
  pose proof (cmp_flip va vb) as [H1 H2].
  destruct (String.eqb d "asc"); lia.
Qed.

Lemma compare_entries_trans k d a b e :
  compare_entries cmp k d a b <= 0 -> compare_entries cmp k d b e <= 0 ->
  compare_entries cmp k d a e <= 0.
Proof.
  unfold compare_entries. cbv zeta.
  set (va := JS.toLowerCase (JS.or_empty (prop a k))).
  set (vb := JS.toLowerCase (JS.or_empty (prop b k))).
  set (ve := JS.toLowerCase (JS.or_empty (prop e k))).
  pose proof (cmp_flip va vb) as [H1 H2]. pose proof (cmp_flip vb ve) as [H3 H4].
  pose proof (cmp_flip va ve) as [H5 H6].
  pose proof (cmp_trans va vb ve) as T1. pose proof (cmp_trans ve vb va) as T2.
  destruct (String.eqb d "asc"); lia.
Qed.

Lemma sorted_view_intro w l :
  filtered w = sort_by (compare_entries cmp (sortKey (state w)) (sortDir (state w))) l ->
  sorted_view cmp w.
Proof.
  intros E i j a b Hij Hi Hj. rewrite E in Hi, Hj.
  pose proof (sorted_nth _ _
                (sort_by_sorted _ (compare_entries_total _ _) (compare_entries_trans _ _) l)
                i j a b Hij Hi Hj) as H.
  cbv beta in H. unfold compare_entries in H. cbv zeta in H.
  unfold ascending, sort_value. destruct (String.eqb (sortDir (state w)) "asc"); lia.
Qed.

Lemma render_sorted w : sorted_view cmp (render cmp w).
Proof.
  apply (sorted_view_intro _ (filtered w)).
  rewrite render_filtered, render_sortKey, render_sortDir. reflexivity.
Qed.

Lemma sorted_syncToUrl w : sorted_view cmp w -> sorted_view cmp (syncToUrl w).
Proof. intros H. exact H. Qed.

Lemma step_sorted a w : sorted_view cmp w -> sorted_view cmp (step cmp a w).
Proof.
  intros Hw.
  destruct a as [|n|c v| | |v b| | |v b|key|j| |h|idx|kind value|np];
    try (step_eq; rewrite ?refilter_eq, ?clearFilters_eq, ?update_eq;
         first [apply sorted_syncToUrl, render_sorted | apply render_sorted]).
  - destruct (String.eqb_spec kind "journal") as [->|Hk].
    + rewrite step_NameLinkClick_journal, refilter_eq, update_eq.
      apply sorted_syncToUrl, render_sorted.
    + apply String.eqb_neq in Hk. rewrite step_NameLinkClick_other by exact Hk.
      rewrite refilter_eq, update_eq. apply sorted_syncToUrl, render_sorted.
  - rewrite step_PageButtonClick.
    destruct ((np >=? 1) && (np <=? totalPages w));
      [apply sorted_syncToUrl, render_sorted | exact Hw].
Qed.


End SortedTable.

Lemma codepoint_antisym a b :
  Z.sgn (codepoint_compare a b) = - Z.sgn (codepoint_compare b a).
Proof.
  unfold codepoint_compare. rewrite (String.compare_antisym a b).
  destruct (String.compare b a); reflexivity.
Qed.

Lemma codepoint_le a b :
  codepoint_compare a b <= 0 <-> OrderedTypeEx.String_as_OT.lt a b \/ a = b.
Proof.
  unfold codepoint_compare. destruct (String.compare a b) eqn:E.
  - apply OrderedTypeEx.String_as_OT.cmp_eq in E. split; [right; exact E | lia].
  - apply OrderedTypeEx.String_as_OT.cmp_lt in E. split; [left; exact E | lia].
  - split; [lia|]. intros [H|H].
    + apply OrderedTypeEx.String_as_OT.cmp_lt in H.
      unfold OrderedTypeEx.String_as_OT.cmp in H. congruence.
    + apply OrderedTypeEx.String_as_OT.cmp_eq in H.
      unfold OrderedTypeEx.String_as_OT.cmp in H. congruence.
Qed.

Lemma codepoint_trans a b c :
  codepoint_compare a b <= 0 -> codepoint_compare b c <= 0 -> codepoint_compare a c <= 0.
Proof.
  rewrite !codepoint_le. intros [H1 | ->] [H2 | ->]; auto.
  left. exact (OrderedTypeEx.String_as_OT.lt_trans _ _ _ H1 H2).
Qed.


(** ** The journal facet as a membership test *)

Lemma journal_clause_split w r :
  entry_passes w r
  = entry_passes (with_selectedJournals (allJournals w) w) r
    && negb (filterByJournal w && negb (JSSet.has (selectedJournals w) (journal r))).
Proof.
  assert (Hoff : filterByJournal (with_selectedJournals (allJournals w) w) = false).
  { unfold filterByJournal. wnorm. rewrite size_lt_length. apply Nat.ltb_irrefl. }
  unfold entry_passes. rewrite Hoff. cbv zeta.
  change (filterBySubfield (with_selectedJournals (allJournals w) w))
    with (filterBySubfield w).
  change (els (with_selectedJournals (allJournals w) w)) with (els w).
  change (selectedSubfields (with_selectedJournals (allJournals w) w))
    with (selectedSubfields w).
  cbn [andb].
  repeat match goal with
         | |- (if ?c then false else _) = (if ?c then false else _) && _ =>
             destruct c; [reflexivity|]
         end.
  destruct (filterByJournal w && negb (JSSet.has (selectedJournals w) (journal r)));
    cbn [negb].
  - symmetry. apply andb_false_r.
  - symmetry. apply andb_true_r.
Qed.

(** X22: The filter compares the size of the selection with the number of
    journals.  As long as the selection holds no value twice and only
    journals of the list, this is a membership test: an entry whose journal
    is listed passes exactly when it passes the other clauses and its
    journal is selected. *)
Theorem journal_facet_is_membership (w : World) (r : Entry) :
  selection_of (selectedJournals w) (allJournals w) ->
  In (journal r) (allJournals w) ->
  entry_passes w r
  = entry_passes (with_selectedJournals (allJournals w) w) r
    && JSSet.has (selectedJournals w) (journal r).
Proof.
  intros [Hs Hi] Hj. rewrite journal_clause_split. f_equal.
  unfold filterByJournal. rewrite size_lt_length.
  destruct (Nat.ltb_spec (List.length (selectedJournals w)) (List.length (allJournals w)))
    as [Hlt|Hge]; cbn [andb].
  - apply negb_involutive.
  - cbn [negb]. symmetry. apply has_In.
    apply (NoDup_length_incl Hs Hge Hi). exact Hj.
Qed.

Lemma journal_facet_is_membership_witness :
  selection_of (selectedJournals demo_w) (allJournals demo_w)
  /\ In (journal sample_2009) (allJournals demo_w)
  /\ entry_passes demo_w sample_2009 = false.
Proof.
  assert (H2 : selection_of (selectedJournals demo_w) (allJournals demo_w))
    by (split; [concrete_nodup | concrete_incl]).
  assert (H3 : In (journal sample_2009) (allJournals demo_w)) by (vm_compute; tauto).
  split; [exact H2|]. split; [exact H3|].
  rewrite (journal_facet_is_membership demo_w sample_2009 H2 H3).
  vm_compute. reflexivity.
Defined.

(** ** Worked examples *)

Example parseInt_year : JS.parseInt "2012" = Some 2012.
Proof. reflexivity. Qed.

Example parseInt_signed_prefix : JS.parseInt " -3x" = Some (-3).
Proof. reflexivity. Qed.

Example parseInt_not_a_number : JS.parseInt "n.d." = None.
Proof. reflexivity. Qed.

Example split_commas : JS.split "," "a,b,,c" = ["a"; "b"; ""; "c"].
Proof. reflexivity. Qed.

Example split_empty : JS.split "-" "" = [""].
Proof. reflexivity. Qed.

Example trim_spaces : JS.trim "  Hobbes " = "Hobbes".
Proof. reflexivity. Qed.

Example serialize_params :
  URLSearchParams.toString [("q", "a b&c"); ("journals", "Mind,Ethics")]
  = "q=a+b%26c&journals=Mind%2CEthics".
Proof. reflexivity. Qed.

Example parse_fragment :
  URLSearchParams.parse "q=a+b%26c&journals=Mind%2CEthics&&x"
  = [("q", "a b&c"); ("journals", "Mind,Ethics"); ("x", "")].
Proof. reflexivity. Qed.

Example parse_bad_escape : URLSearchParams.parse "a=%zz%4" = [("a", "%zz%4")].
Proof. reflexivity. Qed.

(** Default sort (date, descending) puts the 2012 entry first. *)
Example default_sort_order :
  map title (filtered demo_w0) = ["Leviathan Revisited"; "Untitled Notes"; "On Virtue"].
Proof. vm_compute. reflexivity. Qed.

(** The global search matches the author field, case-insensitively. *)
Example search_hobbes :
  map title (filtered (step codepoint_compare (ControlChange GlobalSearch "hobbes") demo_w0))
  = ["Leviathan Revisited"].
Proof. vm_compute. reflexivity. Qed.

(** Page size 1 on three results: three pages, page 2 shows index 1. *)
Example paging_indices :
  let w := step codepoint_compare (PageButtonClick 2)
             (step codepoint_compare (PerPageChange 1) demo_w0) in
  totalPages w = 3 /\ map row_idx (rows w) = [1]
  /\ pagination w = [PageNum 1; PageNum 2; PageNum 3].
Proof. vm_compute. repeat split; reflexivity. Qed.
